(** * Enzymscreening: the locale number parser and the chart mapper of
    [Greattable.py], embedded in Rocq.

    The first part models [parse_number_de] and [as_percent_0_100] on Python
    values; the second part models [update_plot] over a store of data frames
    and the figure it returns. *)

From stdpp Require Import base list.
From Stdlib Require Import ZArith NArith List String Ascii Bool Lia.
From Stdlib Require Import Floats.
Import ListNotations.

Local Open Scope bool_scope.
Set Warnings "-inexact-float,-abstract-large-number,-register-all".

(** ** Python values and results *)

(** A Python [str] is the sequence of its code points. *)
Definition ustr := list N.

(** The code points of a literal written with ASCII characters only. *)
Fixpoint lit (s : string) : ustr :=
  match s with
  | EmptyString => []
  | String c r => N_of_ascii c :: lit r
  end.

Inductive exn :=
| KeyError (key : string)
| TypeError
| ValueError
| OverflowError.

Inductive result (A : Type) :=
| Ok (a : A)
| Raise (e : exn).
Arguments Ok {A} a.
Arguments Raise {A} e.

(** The values [parse_number_de] can be applied to: a cell read from the
    spreadsheet.  [PyOther s] is any object that is neither [None], a number
    nor a [str]; only its [str()] rendering [s] matters to the parser. *)
Inductive pyval :=
| PyNone
| PyBool (b : bool)
| PyInt (z : Z)
| PyFloat (f : float)
| PyStr (s : ustr)
| PyOther (repr : ustr).

(** ** The [str] methods the parser uses *)

Definition ustr_eqb (a b : ustr) : bool :=
  if list_eq_dec N.eq_dec a b then true else false.

(** [str.isspace] on one code point (CPython's [_PyUnicode_IsWhitespace]). *)
Definition is_whitespace (c : N) : bool :=
  (((9 <=? c) && (c <=? 13)) || ((28 <=? c) && (c <=? 32)) ||
   (c =? 133) || (c =? 160) || (c =? 5760) ||
   ((8192 <=? c) && (c <=? 8202)) ||
   (c =? 8232) || (c =? 8233) || (c =? 8239) || (c =? 8287) ||
   (c =? 12288))%N.

Fixpoint lstrip (s : ustr) : ustr :=
  match s with
  | c :: r => if is_whitespace c then lstrip r else s
  | [] => []
  end.

Fixpoint rstrip (s : ustr) : ustr :=
  match s with
  | [] => []
  | c :: r =>
      match rstrip r with
      | [] => if is_whitespace c then [] else [c]
      | r' => c :: r'
      end
  end.

(** [s.strip()] *)
Definition strip (s : ustr) : ustr := rstrip (lstrip s).

(** [s.replace(old, new)] for a pattern [old] of one code point. *)
Definition replace (old : N) (new : ustr) (s : ustr) : ustr :=
  flat_map (fun c => if (c =? old)%N then new else [c]) s.

Definition is_ascii (s : ustr) : bool := forallb (fun c => (c <? 128)%N) s.

Definition ascii_lower (c : N) : N :=
  if ((65 <=? c) && (c <=? 90))%N then (c + 32)%N else c.

Definition nbsp : N := 160%N.       (* "\xa0" *)
Definition space : N := 32%N.
Definition percent : N := 37%N.     (* "%" *)
Definition permille : N := 8240%N.  (* U+2030 *)
Definition dot : N := 46%N.
Definition comma : N := 44%N.

(** ** Binary64 conversions *)

(** [float(x)] for a Python [int]: round to nearest even, [OverflowError]
    when the result is not finite. *)
Definition float_of_int (z : Z) : result float :=
  match binary_normalize prec emax z 0%Z false with
  | S754_infinity _ => Raise OverflowError
  | f => Ok (SF2Prim f)
  end.

Definition digit_val (c : N) : Z := (Z.of_N c - 48)%Z.

Definition digits_value (ds : list N) : Z :=
  fold_left (fun acc d => acc * 10 + digit_val d)%Z ds 0%Z.

(** The binary64 nearest to [(-1)^sign * m * 10^e10], ties to even. *)
Definition decimal_to_float (sign : bool) (m e10 : Z) : float :=
  SF2Prim
    match m with
    | Z0 => S754_zero sign
    | Zneg _ => S754_nan
    | Zpos p =>
        match e10 with
        | Zneg k =>
            let '(mz, ez, lz) :=
              SFdiv_core_binary prec emax (Zpos p) 0%Z (Z.pow_pos 10 k) 0%Z in
            binary_round_aux prec emax sign mz ez lz
        | _ => binary_round prec emax sign (p * Z.to_pos (10 ^ e10)) 0%Z
        end
    end.


(** ** [float(s)] on a [str] *)

Definition is_digit (c : N) : bool := ((48 <=? c) && (c <=? 57))%N.

(** [Py_ISSPACE]: the C-locale white space of the ASCII range. *)
Definition c_isspace (c : N) : bool :=
  (((9 <=? c) && (c <=? 13)) || (c =? 32))%N.

Fixpoint span_digits (s : ustr) : list N * ustr :=
  match s with
  | c :: r =>
      if is_digit c then let '(ds, rest) := span_digits r in (c :: ds, rest)
      else ([], s)
  | [] => ([], [])
  end.

Definition parse_sign (s : ustr) : bool * ustr :=
  match s with
  | c :: r =>
      if (c =? 45)%N then (true, r)
      else if (c =? 43)%N then (false, r)
      else (false, s)
  | [] => (false, [])
  end.

(** The exponent part of [_Py_dg_strtod]: an [e] or [E], an optional sign and
    at least one digit; without a digit nothing of it is consumed. *)
Definition parse_exponent (s : ustr) : Z * ustr :=
  match s with
  | c :: r =>
      if ((c =? 101) || (c =? 69))%N then
        let '(esign, r1) := parse_sign r in
        match span_digits r1 with
        | ([], _) => (0%Z, s)
        | (ds, r2) =>
            ((if esign then - digits_value ds else digits_value ds)%Z, r2)
        end
      else (0%Z, s)
  | [] => (0%Z, [])
  end.

(** [_Py_dg_strtod]: the value and the unparsed rest, [None] when no digit was
    found (then nothing is consumed). *)
Definition dg_strtod (s : ustr) : option (float * ustr) :=
  let '(sign, s1) := parse_sign s in
  let '(ip, s2) := span_digits s1 in
  let '(fp, s3) :=
    match s2 with
    | c :: r => if (c =? dot)%N then span_digits r else ([], s2)
    | [] => ([], s2)
    end in
  match ip ++ fp with
  | [] => None
  | ds =>
      let '(e, rest) := parse_exponent s3 in
      Some (decimal_to_float sign (digits_value ds)
              (e - Z.of_nat (List.length fp))%Z, rest)
  end.

(** [case_insensitive_match]: [t] is given in lower case. *)
Fixpoint ci_match (s t : ustr) : option ustr :=
  match t with
  | [] => Some s
  | d :: t' =>
      match s with
      | c :: s' => if (ascii_lower c =? d)%N then ci_match s' t' else None
      | [] => None
      end
  end.

(** [_Py_parse_inf_or_nan] *)
Definition parse_inf_or_nan (s : ustr) : option (float * ustr) :=
  let '(negate, s1) := parse_sign s in
  match ci_match s1 (lit "inf") with
  | Some s2 =>
      let rest := match ci_match s2 (lit "inity") with
                  | Some s3 => s3
                  | None => s2
                  end in
      Some (if negate then neg_infinity else infinity, rest)
  | None =>
      match ci_match s1 (lit "nan") with
      | Some s2 => Some (nan, s2)
      | None => None
      end
  end.

(** [_PyOS_ascii_strtod] *)
Definition ascii_strtod (s : ustr) : option (float * ustr) :=
  match dg_strtod s with
  | Some r => Some r
  | None => parse_inf_or_nan s
  end.

(** [float_from_string_inner]: the whole text has to be consumed. *)
Definition float_from_string_inner (s : ustr) : option float :=
  match ascii_strtod s with
  | Some (x, []) => Some x
  | _ => None
  end.

Definition underscore : N := 95%N.

(** The copy loop of [_Py_string_to_number_with_underscores]: an underscore
    is accepted only between two digits. *)
Fixpoint drop_underscores (prev : N) (s : ustr) : option ustr :=
  match s with
  | [] => if (prev =? underscore)%N then None else Some []
  | c :: r =>
      if (c =? underscore)%N then
        if is_digit prev then drop_underscores c r else None
      else if (prev =? underscore)%N && negb (is_digit c) then None
      else option_map (cons c) (drop_underscores c r)
  end.

Definition string_to_number_with_underscores (s : ustr) : option float :=
  if existsb (fun c => (c =? underscore)%N) s then
    match drop_underscores 0%N s with
    | Some d => float_from_string_inner d
    | None => None
    end
  else float_from_string_inner s.

Fixpoint c_lstrip (s : ustr) : ustr :=
  match s with
  | c :: r => if c_isspace c then c_lstrip r else s
  | [] => []
  end.

Fixpoint c_rstrip (s : ustr) : ustr :=
  match s with
  | [] => []
  | c :: r =>
      match c_rstrip r with
      | [] => if c_isspace c then [] else [c]
      | r' => c :: r'
      end
  end.

Section UnicodeDatabase.

(** Two tables of the Unicode character database, which CPython consults for
    text outside ASCII, are parameters: [str.lower] on a text that holds a
    code point above 127, and the decimal digit value of a code point
    ([Py_UNICODE_TODECIMAL], [None] for -1). *)
Variable unicode_lower : ustr -> ustr.
Variable unicode_decimal : N -> option N.

(** [s.lower()] *)
Definition py_lower (s : ustr) : ustr :=
  if is_ascii s then map ascii_lower s else unicode_lower s.

(** The loop of [_PyUnicode_TransformDecimalAndSpaceToASCII]. *)
Fixpoint to_ascii_decimal (s : ustr) : ustr :=
  match s with
  | [] => []
  | ch :: r =>
      if (ch <? 127)%N then ch :: to_ascii_decimal r
      else if is_whitespace ch then space :: to_ascii_decimal r
      else match unicode_decimal ch with
           | Some d => (48 + d)%N :: to_ascii_decimal r
           | None => [63%N]
           end
  end.

Definition transform_decimal_and_space (s : ustr) : ustr :=
  if is_ascii s then s else to_ascii_decimal s.

(** [float(s)] for a [str] [s]; [None] is [ValueError]. *)
Definition py_float (s : ustr) : option float :=
  match c_lstrip (transform_decimal_and_space s) with
  | [] => None
  | s1 => string_to_number_with_underscores (c_rstrip s1)
  end.

(** ** The source functions *)

(** Lines 21-26 of [parse_number_de], on the text [str(x)]. *)
Definition parse_text (x : ustr) : float :=
  let s := strip x in
  if ustr_eqb s [] ||
     ustr_eqb (py_lower s) (lit "nan") || ustr_eqb (py_lower s) (lit "none")
  then nan
  else
    let s := strip (replace permille []
                      (replace percent [] (replace nbsp [space] s))) in
    let s := replace comma [dot] (replace dot [] (replace space [] s)) in
    match py_float s with
    | Some f => f
    | None => nan
    end.

Definition parse_number_de (x : pyval) : result float :=
  match x with
  | PyNone => Ok nan
  | PyFloat f => if is_nan f then Ok nan else Ok f
  | PyBool b => Ok (if b then 1 else 0)%float
  | PyInt z => float_of_int z
  | PyStr s | PyOther s => Ok (parse_text s)
  end.

Definition as_percent_0_100 (x : pyval) : result float :=
  match parse_number_de x with
  | Raise e => Raise e
  | Ok v =>
      if is_nan v then Ok nan
      else if (0 <=? abs v)%float && (abs v <=? 1)%float
           then Ok (v * 100)%float
           else Ok v
  end.

(** ** The same two functions in the words of the specification *)

(** "strip non-breaking spaces, remove % and permille symbols, strip
    surrounding whitespace, then remove all interior spaces, remove the
    thousands separator, replace the decimal comma by a dot". *)
Definition spec_clean (s : ustr) : ustr :=
  let s := replace nbsp [] s in
  let s := replace permille [] (replace percent [] s) in
  let s := strip s in
  replace comma [dot] (replace dot [] (replace space [] s)).

(** Empty text and the tokens "nan" / "none" in any letter case, on the
    trimmed text. *)
Definition is_missing_token (s : ustr) : bool :=
  ustr_eqb (strip s) [] ||
  ustr_eqb (py_lower (strip s)) (lit "nan") ||
  ustr_eqb (py_lower (strip s)) (lit "none").

Definition spec_text (s : ustr) : float :=
  if is_missing_token s then nan
  else match py_float (spec_clean s) with
       | Some f => f
       | None => nan
       end.

(** [bool] is a subtype of [int] in Python, so [True] and [False] count as
    already numeric. *)
Definition parse_number_spec (x : pyval) : result float :=
  match x with
  | PyNone => Ok nan
  | PyFloat f => Ok f
  | PyBool b => Ok (if b then 1 else 0)%float
  | PyInt z => float_of_int z
  | PyStr s | PyOther s => Ok (spec_text s)
  end.

Definition as_percent_spec (x : pyval) : result float :=
  match parse_number_de x with
  | Raise e => Raise e
  | Ok v =>
      Ok (if is_nan v then nan
          else if (abs v <=? 1)%float then (v * 100)%float else v)
  end.

End UnicodeDatabase.


(** * The chart mapper [update_plot] *)

Local Open Scope string_scope.
Local Open Scope list_scope.

(** ** Tables *)

(** A table cell after loading: text or a binary64 number; NaN is the missing
    value. *)
Inductive cell :=
| CStr (s : string)
| CNum (f : float).

Definition series := list cell.

(** A data frame: its columns in order, each with the values of its rows. *)
Definition DataFrame := list (string * series).

Fixpoint get_column (name : string) (df : DataFrame) : option series :=
  match df with
  | [] => None
  | (n, c) :: r => if String.eqb n name then Some c else get_column name r
  end.

(** [name in df.columns] *)
Definition has_column (name : string) (df : DataFrame) : bool :=
  match get_column name df with
  | Some _ => true
  | None => false
  end.

(** [df[name] = v]: replaces the column or appends a new one. *)
Fixpoint set_column (name : string) (v : series) (df : DataFrame)
  : DataFrame :=
  match df with
  | [] => [(name, v)]
  | (n, c) :: r =>
      if String.eqb n name then (n, v) :: r
      else (n, c) :: set_column name v r
  end.

(** [df.empty]: no column or no row. *)
Definition df_is_empty (df : DataFrame) : bool :=
  match df with
  | [] => true
  | (_, []) :: _ => true
  | _ => false
  end.

(** The rows of a column kept by a boolean mask. *)
Fixpoint select {A : Type} (mask : list bool) (col : list A) : list A :=
  match mask, col with
  | b :: m, c :: r => if b then c :: select m r else select m r
  | _, _ => []
  end.

(** [df[mask]] *)
Definition select_rows (mask : list bool) (df : DataFrame) : DataFrame :=
  map (fun '(n, c) => (n, select mask c)) df.

(** [==] on two cells: text with text, number with number; NaN equals
    nothing. *)
Definition py_eq (a b : cell) : bool :=
  match a, b with
  | CStr x, CStr y => String.eqb x y
  | CNum x, CNum y => (x =? y)%float
  | _, _ => false
  end.

(** Membership as [Series.isin] tests it: like [==], and a missing cell
    matches a missing value. *)
Definition isin_eq (a b : cell) : bool :=
  match a, b with
  | CNum x, CNum y => (x =? y)%float || (is_nan x && is_nan y)
  | _, _ => py_eq a b
  end.

(** [s.isin(values)] *)
Definition isin (s : series) (values : list cell) : list bool :=
  map (fun c => existsb (isin_eq c) values) s.

(** [s == v] *)
Definition series_eq (s : series) (v : cell) : list bool :=
  map (fun c => py_eq c v) s.

(** [a - b] on two columns: [TypeError] when a row holds text. *)
Fixpoint series_sub (a b : series) : result (list float) :=
  match a, b with
  | CNum x :: a', CNum y :: b' =>
      match series_sub a' b' with
      | Ok r => Ok ((x - y)%float :: r)
      | Raise e => Raise e
      end
  | [], _ | _, [] => Ok []
  | _, _ => Raise TypeError
  end.

(** ** The store of data frames *)

(** Data frames are objects: a variable holds a reference, [copy] and row
    selection allocate a new object, item assignment changes the object the
    reference points to. *)
Abbreviation ref := nat.
Abbreviation heap := (list DataFrame).

Definition deref (h : heap) (r : ref) : DataFrame := nth r h [].

(** The three module-level tables. *)
Record globals := { carb : ref; prot : ref; filme : ref }.

Definition M (A : Type) : Type := heap -> result A * heap.

Definition ret {A : Type} (a : A) : M A := fun h => (Ok a, h).

Definition raise {A : Type} (e : exn) : M A := fun h => (Raise e, h).

Definition bind {A B : Type} (m : M A) (k : A -> M B) : M B :=
  fun h =>
    match m h with
    | (Ok a, h') => k a h'
    | (Raise e, h') => (Raise e, h')
    end.

Notation "x <- m ;; k" := (bind m (fun x => k))
  (at level 100, m at next level, right associativity).

Definition lift {A : Type} (r : result A) : M A := fun h => (r, h).

(** [for x in l: acc = f(acc, x)] *)
Fixpoint for_each {A B : Type} (f : B -> A -> M B) (l : list A) (acc : B)
  : M B :=
  match l with
  | [] => ret acc
  | x :: r => acc' <- f acc x ;; for_each f r acc'
  end.

(** [df.copy()] *)
Definition df_copy (r : ref) : M ref :=
  fun h => (Ok (List.length h), h ++ [deref h r]).

(** [df[mask]] *)
Definition df_select (r : ref) (mask : list bool) : M ref :=
  fun h => (Ok (List.length h), h ++ [select_rows mask (deref h r)]).

(** [df[name]], [KeyError] for a column that does not exist. *)
Definition df_getitem (r : ref) (name : string) : M series :=
  fun h =>
    match get_column name (deref h r) with
    | Some c => (Ok c, h)
    | None => (Raise (KeyError name), h)
    end.

(** [df[name] = v] *)
Definition df_setitem (r : ref) (name : string) (v : series) : M unit :=
  fun h => (Ok tt, <[r := set_column name v (deref h r)]> h).

Definition df_has_column (r : ref) (name : string) : M bool :=
  fun h => (Ok (has_column name (deref h r)), h).

Definition df_empty (r : ref) : M bool :=
  fun h => (Ok (df_is_empty (deref h r)), h).

(** ** Figures *)

(** A title or annotation: a literal, or an f-string around one value. *)
Inductive text :=
| Txt (s : string)
| Fmt (pre : string) (v : cell) (post : string).

Inductive lvalue :=
| LText (t : text)
| LInt (z : Z)
| LFloat (f : float)
| LBool (b : bool)
| LList (l : list lvalue)
| LDict (d : list (string * lvalue)).

(** The result of [melt(...).pivot_table(...)]: row labels, column labels and
    the matrix of cells, row by row. *)
Record Pivot := {
  pv_index : list string;
  pv_columns : list cell;
  pv_values : list (list float)
}.

Inductive trace :=
| Bar (x y : series) (name : string) (secondary_y : bool)
| Scatter (x y : series) (name mode : string) (secondary_y : bool)
| Heatmap (z : list (list float)) (x : list cell) (y : list string)
          (coloraxis : string) (text : list (list float))
          (texttemplate : string) (row col : nat)
| PxImshow (img : Pivot) (text_auto aspect color_continuous_scale : string)
| PxBar (x y color : series) (hover_data : list (string * series)).

(** [rows], [cols] and [secondary_y] of [make_subplots]. *)
Record Grid := { grid_rows : nat; grid_cols : nat; grid_secondary_y : bool }.

Record Figure := {
  fig_traces : list trace;
  fig_layout : list (string * lvalue);
  fig_grid : option Grid
}.

Fixpoint set_key (k : string) (v : lvalue) (l : list (string * lvalue))
  : list (string * lvalue) :=
  match l with
  | [] => [(k, v)]
  | (k', v') :: r =>
      if String.eqb k' k then (k, v) :: r else (k', v') :: set_key k v r
  end.

Fixpoint get_key (k : string) (l : list (string * lvalue)) : option lvalue :=
  match l with
  | [] => None
  | (k', v) :: r => if String.eqb k' k then Some v else get_key k r
  end.

(** [fig.update_layout(k1=v1, ...)] *)
Definition update_layout (kvs : list (string * lvalue)) (fig : Figure)
  : Figure :=
  {| fig_traces := fig_traces fig;
     fig_layout := fold_left (fun l kv => set_key (fst kv) (snd kv) l)
                     kvs (fig_layout fig);
     fig_grid := fig_grid fig |}.

(** [fig.add_trace(t)] *)
Definition add_trace (t : trace) (fig : Figure) : Figure :=
  {| fig_traces := fig_traces fig ++ [t];
     fig_layout := fig_layout fig;
     fig_grid := fig_grid fig |}.

Definition fig_title (fig : Figure) : option lvalue :=
  get_key "title" (fig_layout fig).

Definition LStr (s : string) : lvalue := LText (Txt s).

(** ** Pivot tables *)

Definition is_missing (c : cell) : bool :=
  match c with
  | CNum f => is_nan f
  | CStr _ => false
  end.

(** [melt(id_vars="Enzym", value_vars=...)]: one row (Enzym, MM-Fraktion,
    Anteil) per value column and table row, value column after value
    column. *)
Definition melt (enz : series) (vars : list (string * series))
  : list (cell * string * cell) :=
  flat_map (fun '(name, col) =>
              map (fun '(e, v) => (e, name, v)) (combine enz col)) vars.

(** Grouping drops the rows whose key is missing. *)
Definition keyed (rows : list (cell * string * cell))
  : list (cell * string * cell) :=
  filter (fun '(e, _, _) => negb (is_missing e)) rows.

(** The mean is taken over numbers: text among the values is a
    [TypeError]. *)
Fixpoint numeric_values (rows : list (cell * string * cell))
  : result (list (cell * string * float)) :=
  match rows with
  | [] => Ok []
  | (e, f, CNum v) :: r =>
      match numeric_values r with
      | Ok r' => Ok ((e, f, v) :: r')
      | Raise x => Raise x
      end
  | (_, _, CStr _) :: _ => Raise TypeError
  end.

(** The values of one (fraction, enzyme) group, missing values skipped. *)
Definition group_values (rows : list (cell * string * float))
  (f : string) (e : cell) : list float :=
  flat_map (fun '(e', f', v) =>
              if String.eqb f' f && py_eq e' e && negb (is_nan v)
              then [v] else []) rows.

Fixpoint insert_string (x : string) (l : list string) : list string :=
  match l with
  | [] => [x]
  | y :: r =>
      match String.compare x y with
      | Lt => x :: l
      | Eq => l
      | Gt => y :: insert_string x r
      end
  end.

(** Sorted distinct labels. *)
Definition sort_strings (l : list string) : list string :=
  fold_right insert_string [] l.

(** Labels of mixed type sort numbers before text. *)
Definition cell_compare (a b : cell) : comparison :=
  match a, b with
  | CNum x, CNum y =>
      if (x <? y)%float then Lt else if (x =? y)%float then Eq else Gt
  | CNum _, CStr _ => Lt
  | CStr _, CNum _ => Gt
  | CStr x, CStr y => String.compare x y
  end.

Fixpoint insert_cell (x : cell) (l : list cell) : list cell :=
  match l with
  | [] => [x]
  | y :: r =>
      match cell_compare x y with
      | Lt => x :: l
      | Eq => l
      | Gt => y :: insert_cell x r
      end
  end.

Definition sort_cells (l : list cell) : list cell :=
  fold_right insert_cell [] l.

(** [pivot.empty] *)
Definition pv_empty (p : Pivot) : bool :=
  match pv_index p, pv_columns p with
  | _ :: _, _ :: _ => false
  | _, _ => true
  end.

(** The builtin [min(a, b)] and [max(a, b)]: the first argument unless the
    second is smaller (larger). *)
Definition py_min (a b : float) : float := if (b <? a)%float then b else a.
Definition py_max (a b : float) : float := if (a <? b)%float then b else a.

(** A reduction that skips missing values; NaN when nothing is left. *)
Definition nan_reduce (op : float -> float -> float) (l : list float)
  : float :=
  match filter (fun x => negb (is_nan x)) l with
  | [] => nan
  | x :: r => fold_left op r x
  end.

Definition pv_column (p : Pivot) (j : nat) : list float :=
  map (fun row => nth j row nan) (pv_values p).

(** [pivot.min().min()] and [pivot.max().max()]: column by column, then over
    the columns. *)
Definition pv_reduce (op : float -> float -> float) (p : Pivot) : float :=
  nan_reduce op
    (map (fun j => nan_reduce op (pv_column p j))
       (seq 0 (List.length (pv_columns p)))).

Definition pv_min : Pivot -> float := pv_reduce py_min.
Definition pv_max : Pivot -> float := pv_reduce py_max.

Section Mapper.

(** The mean kernel of the data-frame library, applied to the values of a
    group that are not missing (at least one), is a parameter. *)
Variable pd_mean : list float -> float.

Definition group_mean (vs : list float) : float :=
  match vs with
  | [] => nan
  | _ => pd_mean vs
  end.

Definition cell_value (rows : list (cell * string * float))
  (f : string) (e : cell) : float :=
  group_mean (group_values rows f e).

(** The groups that have a value. *)
Definition kept_rows (rows : list (cell * string * float))
  : list (cell * string * float) :=
  filter (fun '(e, f, _) => negb (is_nan (cell_value rows f e))) rows.

(** The table spanned by the labels of the kept groups; a combination
    without group is missing. *)
Definition build_pivot (rows : list (cell * string * float)) : Pivot :=
  let index := sort_strings (map (fun '(_, f, _) => f) (kept_rows rows)) in
  let columns := sort_cells (map (fun '(e, _, _) => e) (kept_rows rows)) in
  {| pv_index := index;
     pv_columns := columns;
     pv_values :=
       map (fun f => map (fun e => cell_value rows f e) columns) index |}.

(** [pivot_table(index="MM-Fraktion", columns="Enzym", values="Anteil [%]",
    aggfunc='mean')]: rows without key are left out, every group gets its
    mean, groups without a value are dropped. *)
Definition pivot_table (rows : list (cell * string * cell)) : result Pivot :=
  match numeric_values (keyed rows) with
  | Raise e => Raise e
  | Ok rows => Ok (build_pivot rows)
  end.

(** [df.melt(id_vars="Enzym", value_vars=mm_present, ...).pivot_table(...)] *)
Definition melt_pivot (r : ref) (mm_present : list string) : M Pivot :=
  enz <- df_getitem r "Enzym" ;;
  vars <- for_each (fun acc m => c <- df_getitem r m ;; ret (acc ++ [(m, c)]))
            mm_present [] ;;
  lift (pivot_table (melt enz vars)).

(** ** [update_plot] *)

(** [x or []] and the truth value of an optional list. *)
Definition or_empty {A : Type} (o : option (list A)) : list A :=
  match o with
  | Some l => l
  | None => []
  end.

Definition truthy {A : Type} (o : option (list A)) : bool :=
  match o with
  | Some (_ :: _) => true
  | _ => false
  end.

(** [df_map.get(dataset, carb)] *)
Definition df_map_get (g : globals) (dataset : string) : ref :=
  if String.eqb dataset "carb" then carb g
  else if String.eqb dataset "prot" then prot g
  else if String.eqb dataset "filme" then filme g
  else carb g.

(** [if col in dff.columns and sel: dff = dff[dff[col].isin(sel)]] *)
Definition apply_filter (dff : ref) (col : string) (sel : option (list cell))
  : M ref :=
  present <- df_has_column dff col ;;
  if present && truthy sel then
    s <- df_getitem dff col ;;
    df_select dff (isin s (or_empty sel))
  else ret dff.

(** [go.Figure(layout={"template": "plotly_white", "title": ...})] *)
Definition placeholder_fig : Figure :=
  {| fig_traces := [];
     fig_layout := [("template", LStr "plotly_white");
                    ("title", LStr "Bitte Daten auswählen")];
     fig_grid := None |}.

(** [make_subplots(specs=[[{"secondary_y": True}]])] *)
Definition subplots_secondary_y : Figure :=
  {| fig_traces := [];
     fig_layout := [];
     fig_grid := Some {| grid_rows := 1; grid_cols := 1;
                         grid_secondary_y := true |} |}.

(** [make_subplots(rows=2, cols=1, subplot_titles=(t1, t2),
    vertical_spacing=0.15)] *)
Definition subplots_two_rows (t1 t2 : text) : Figure :=
  {| fig_traces := [];
     fig_layout := [("annotations", LList [LText t1; LText t2])];
     fig_grid := Some {| grid_rows := 2; grid_cols := 1;
                         grid_secondary_y := false |} |}.

(** The [traces_to_add] dictionaries: option, then the (column, name) pairs
    of its series (the value of "ph" is a list of two pairs, every other
    value is one pair). *)
Definition carb_traces_to_add : list (string * list (string * string)) :=
  [("loes", [("Löslichkeit [%]", "Proteinlöslichkeit [%]")]);
   ("glc", [("cglc [μM]", "Reduzierende Zucker [µM]")]);
   ("deltaph", [("abs(ΔpH)", "abs(ΔpH)")]);
   ("ph", [("pH (vor)", "pH (vor)"); ("pH (nach)", "pH (nach)")])].

Definition prot_traces_to_add : list (string * list (string * string)) :=
  [("loes", [("Löslichkeit [%]", "Proteinlöslichkeit [%]")]);
   ("dh", [("DH [%]", "Hydrolysegrad [%]")]);
   ("deltaph", [("abs(ΔpH)", "abs(ΔpH)")]);
   ("ph", [("pH (vor)", "pH (vor)"); ("pH (nach)", "pH (nach)")])].

Fixpoint dict_get {V : Type} (k : string) (d : list (string * V))
  : option V :=
  match d with
  | [] => None
  | (k', v) :: r => if String.eqb k' k then Some v else dict_get k r
  end.

(** [fig.add_trace(go.Scatter(x=dff["Enzym"], y=dff[col], name=name,
    mode="markers+lines"), secondary_y=True)] *)
Definition add_scatter (dff : ref) (fig : Figure) (cn : string * string)
  : M Figure :=
  x <- df_getitem dff "Enzym" ;;
  y <- df_getitem dff (fst cn) ;;
  ret (add_trace (Scatter x y (snd cn) "markers+lines" true) fig).

(** The body of [for opt in opts: ...]: one series per (column, name) pair
    of the option, two for "ph" and one for every other option;
    [traces_to_add[opt]] is a [KeyError] for an option the dictionary does
    not have. *)
Definition add_option (table : list (string * list (string * string)))
  (dff : ref) (fig : Figure) (opt : string) : M Figure :=
  match dict_get opt table with
  | None => raise (KeyError opt)
  | Some entries => for_each (add_scatter dff) entries fig
  end.

(** The distribution view, shared by Carbohydratasen and Proteasen up to the
    dictionary and the title. *)
Definition distribution (table : list (string * list (string * string)))
  (title : string) (dff : ref) (opts : option (list string)) : M Figure :=
  nach <- df_getitem dff "pH (nach)" ;;
  vor <- df_getitem dff "pH (vor)" ;;
  d <- lift (series_sub nach vor) ;;
  _ <- df_setitem dff "abs(ΔpH)" (map (fun v => CNum (abs v)) d) ;;
  let fig := subplots_secondary_y in
  x <- df_getitem dff "Enzym" ;;
  y <- df_getitem dff "TS Anteil ÜS [%]" ;;
  let fig := add_trace (Bar x y "TS Überstand [%]" false) fig in
  x <- df_getitem dff "Enzym" ;;
  y <- df_getitem dff "TS Anteil Sedi [%]" ;;
  let fig := add_trace (Bar x y "TS Sediment [%]" false) fig in
  fig <- for_each (add_option table dff) (or_empty opts) fig ;;
  ret (update_layout
         [("barmode", LStr "stack");
          ("title", LStr title);
          ("xaxis_title", LStr "Enzym");
          ("yaxis", LDict [("title", LStr "TS [%]");
                           ("range", LList [LInt 0; LInt 105])]);
          ("yaxis2", LDict [("title", LStr "Zusatzdaten");
                            ("overlaying", LStr "y");
                            ("side", LStr "right")]);
          ("legend", LDict [("orientation", LStr "h");
                            ("y", LFloat (-0.25));
                            ("yanchor", LStr "bottom")]);
          ("template", LStr "plotly_white")] fig).

Definition too_many_title : string :=
  "Слишком много материалов для сравнения".
Definition select_mm_title : string :=
  "Proteasen — Пожалуйста, выберите MM-фракции".

(** [[m for m in (mm_selected or []) if m in dff.columns]] *)
Definition mm_present_of (df : DataFrame) (mm_selected : option (list string))
  : list string :=
  filter (fun m => has_column m df) (or_empty mm_selected).

Definition df_mm_present (r : ref) (mm_selected : option (list string))
  : M (list string) :=
  fun h => (Ok (mm_present_of (deref h r) mm_selected), h).

Definition heatmap_trace (p : Pivot) (row : nat) : trace :=
  Heatmap (pv_values p) (pv_columns p) (pv_index p) "coloraxis1"
    (pv_values p) "%{text:.1f}" row 1.

(** The heatmap view of Proteasen. *)
Definition heatmap (fig : Figure) (dff : ref) (mats : option (list cell))
  (mm_selected : option (list string)) : M Figure :=
  let num_mats := if truthy mats then List.length (or_empty mats) else 0 in
  if (2 <? num_mats)%nat then
    ret (update_layout
           [("title", LStr too_many_title);
            ("annotations",
             LList [LDict
               [("text", LStr
                   "Пожалуйста, выберите не более двух материалов для тепловой карты.");
                ("showarrow", LBool false);
                ("xref", LStr "paper"); ("yref", LStr "paper");
                ("font", LDict [("size", LInt 14)])]])] fig)
  else if (num_mats =? 2)%nat then
    let mat1 := nth 0 (or_empty mats) (CStr "") in
    let mat2 := nth 1 (or_empty mats) (CStr "") in
    let fig := subplots_two_rows (Fmt "Материал: " mat1 "")
                 (Fmt "Материал: " mat2 "") in
    mm_present <- df_mm_present dff mm_selected ;;
    match mm_present with
    | [] => ret (update_layout [("title", LStr select_mm_title)] fig)
    | _ =>
        col <- df_getitem dff "Material" ;;
        dff1 <- df_select dff (series_eq col mat1) ;;
        pivot1 <- melt_pivot dff1 mm_present ;;
        col <- df_getitem dff "Material" ;;
        dff2 <- df_select dff (series_eq col mat2) ;;
        pivot2 <- melt_pivot dff2 mm_present ;;
        let both := negb (pv_empty pivot1) && negb (pv_empty pivot2) in
        let z_min := if both
                     then LFloat (py_min (pv_min pivot1) (pv_min pivot2))
                     else LInt 0 in
        let z_max := if both
                     then LFloat (py_max (pv_max pivot1) (pv_max pivot2))
                     else LInt 100 in
        let fig := add_trace (heatmap_trace pivot1 1) fig in
        let fig := add_trace (heatmap_trace pivot2 2) fig in
        ret (update_layout
               [("title", LStr "Proteasen — Сравнение MM-фракций");
                ("coloraxis1",
                 LDict [("colorscale", LStr "Greens");
                        ("cmin", z_min); ("cmax", z_max);
                        ("colorbar_title", LStr "Anteil [%]")]);
                ("height", LInt 700);
                ("template", LStr "plotly_white")] fig)
    end
  else
    mm_present <- df_mm_present dff mm_selected ;;
    match mm_present with
    | [] => ret (update_layout [("title", LStr select_mm_title)] fig)
    | _ =>
        let title_text :=
          if (num_mats =? 1)%nat
          then Fmt "Proteasen — Heatmap MM-фракций ("
                 (nth 0 (or_empty mats) (CStr "")) ")"
          else Txt "Proteasen — Heatmap MM-фракций (среднее по всем)" in
        pivot <- melt_pivot dff mm_present ;;
        let fig :=
          {| fig_traces := [PxImshow pivot ".1f" "auto" "Greens"];
             fig_layout :=
               [("labels", LDict [("x", LStr "Enzym");
                                  ("y", LStr "MM-Fraktion");
                                  ("color", LStr "Anteil [%]")]);
                ("title", LText title_text)];
             fig_grid := None |} in
        ret (update_layout
               [("xaxis_side", LStr "top");
                ("template", LStr "plotly_white")] fig)
    end.

(** A column as [px.bar] looks it up: [ValueError] when the frame does not
    have it. *)
Definition px_column (dff : ref) (name : string) : M series :=
  fun h => match get_column name (deref h dff) with
           | Some c => (Ok c, h)
           | None => (Raise ValueError, h)
           end.

Definition films_hover : list string :=
  ["Homogenität"; "Stabilität"; "Adhäsion Schale"; "Adhäsion Oberfläche";
   "Kohäsion"; "Geruch"].

(** [px.bar(dff, x="Versuchsnr.", y="Summe", color="Material",
    hover_data=[...], title=...)] and the layout of the Filme chart. *)
Definition films (dff : ref) : M Figure :=
  x <- px_column dff "Versuchsnr." ;;
  y <- px_column dff "Summe" ;;
  color <- px_column dff "Material" ;;
  hover <- for_each (fun acc n => c <- px_column dff n ;; ret (acc ++ [(n, c)]))
             films_hover [] ;;
  let fig :=
    {| fig_traces := [PxBar x y color hover];
       fig_layout := [("title", LStr "Filme — Gesamtbewertung")];
       fig_grid := None |} in
  ret (update_layout
         [("template", LStr "plotly_white");
          ("legend", LDict [("orientation", LStr "h");
                            ("y", LFloat (-0.2));
                            ("yanchor", LStr "bottom")])] fig).

Definition update_plot (g : globals) (dataset : string)
  (mats enz : option (list cell)) (carb_opts prot_opts : option (list string))
  (prot_view : string) (mm_selected : option (list string)) : M Figure :=
  let fig := placeholder_fig in
  dff <- df_copy (df_map_get g dataset) ;;
  dff <- apply_filter dff "Material" mats ;;
  dff <- apply_filter dff "Enzym" enz ;;
  empty <- df_empty dff ;;
  if empty then ret fig
  else if String.eqb dataset "carb" then
    distribution carb_traces_to_add
      "Carbohydratasen — TS-Verteilung & Zusatzdaten" dff carb_opts
  else if String.eqb dataset "prot" then
    if String.eqb prot_view "distribution" then
      distribution prot_traces_to_add
        "Proteasen — TS-Verteilung & Zusatzdaten" dff prot_opts
    else if String.eqb prot_view "heatmap" then
      heatmap fig dff mats mm_selected
    else ret fig
  else if String.eqb dataset "filme" then films dff
  else ret fig.

End Mapper.

(** ** The figure as a function of the selected table

    The same steps as [update_plot] on the contents of the frame instead of a
    reference into the store; the proofs relate the two. *)

Definition rbind {A B : Type} (m : result A) (k : A -> result B) : result B :=
  match m with
  | Ok a => k a
  | Raise e => Raise e
  end.

Notation "x <~ m ;; k" := (rbind m (fun x => k))
  (at level 100, m at next level, right associativity).

Fixpoint rfor_each {A B : Type} (f : B -> A -> result B) (l : list A)
  (acc : B) : result B :=
  match l with
  | [] => Ok acc
  | x :: r => acc' <~ f acc x ;; rfor_each f r acc'
  end.

Definition column (df : DataFrame) (name : string) : result series :=
  match get_column name df with
  | Some c => Ok c
  | None => Raise (KeyError name)
  end.

(** One filter step: [df[df[col].isin(sel)]] when the column exists and the
    selection is not empty. *)
Definition filter_by (col : string) (sel : option (list cell))
  (df : DataFrame) : DataFrame :=
  match get_column col df with
  | Some s => if truthy sel then select_rows (isin s (or_empty sel)) df
              else df
  | None => df
  end.

(** The table that remains after the material and the enzyme filter. *)
Definition filtered (df : DataFrame) (mats enz : option (list cell))
  : DataFrame :=
  filter_by "Enzym" enz (filter_by "Material" mats df).

Definition scatter_of (df : DataFrame) (fig : Figure) (cn : string * string)
  : result Figure :=
  x <~ column df "Enzym" ;;
  y <~ column df (fst cn) ;;
  Ok (add_trace (Scatter x y (snd cn) "markers+lines" true) fig).

Definition option_of (table : list (string * list (string * string)))
  (df : DataFrame) (fig : Figure) (opt : string) : result Figure :=
  match dict_get opt table with
  | None => Raise (KeyError opt)
  | Some entries => rfor_each (scatter_of df) entries fig
  end.

Definition distribution_layout (title : string) : list (string * lvalue) :=
  [("barmode", LStr "stack");
   ("title", LStr title);
   ("xaxis_title", LStr "Enzym");
   ("yaxis", LDict [("title", LStr "TS [%]");
                    ("range", LList [LInt 0; LInt 105])]);
   ("yaxis2", LDict [("title", LStr "Zusatzdaten");
                     ("overlaying", LStr "y");
                     ("side", LStr "right")]);
   ("legend", LDict [("orientation", LStr "h");
                     ("y", LFloat (-0.25));
                     ("yanchor", LStr "bottom")]);
   ("template", LStr "plotly_white")].

(** The frame of the distribution view once [abs(ΔpH)] is assigned. *)
Definition with_delta_ph (df : DataFrame) : result DataFrame :=
  nach <~ column df "pH (nach)" ;;
  vor <~ column df "pH (vor)" ;;
  d <~ series_sub nach vor ;;
  Ok (set_column "abs(ΔpH)" (map (fun v => CNum (abs v)) d) df).

Definition distribution_of (table : list (string * list (string * string)))
  (title : string) (df : DataFrame) (opts : option (list string))
  : result Figure :=
  df <~ with_delta_ph df ;;
  x <~ column df "Enzym" ;;
  y <~ column df "TS Anteil ÜS [%]" ;;
  let fig := add_trace (Bar x y "TS Überstand [%]" false)
               subplots_secondary_y in
  x <~ column df "Enzym" ;;
  y <~ column df "TS Anteil Sedi [%]" ;;
  let fig := add_trace (Bar x y "TS Sediment [%]" false) fig in
  fig <~ rfor_each (option_of table df) (or_empty opts) fig ;;
  Ok (update_layout (distribution_layout title) fig).

Definition px_column_of (df : DataFrame) (name : string) : result series :=
  match get_column name df with
  | Some c => Ok c
  | None => Raise ValueError
  end.

Definition films_of (df : DataFrame) : result Figure :=
  x <~ px_column_of df "Versuchsnr." ;;
  y <~ px_column_of df "Summe" ;;
  color <~ px_column_of df "Material" ;;
  hover <~ rfor_each (fun acc n => c <~ px_column_of df n ;;
                                   Ok (acc ++ [(n, c)]))
             films_hover [] ;;
  let fig :=
    {| fig_traces := [PxBar x y color hover];
       fig_layout := [("title", LStr "Filme — Gesamtbewertung")];
       fig_grid := None |} in
  Ok (update_layout
        [("template", LStr "plotly_white");
         ("legend", LDict [("orientation", LStr "h");
                           ("y", LFloat (-0.2));
                           ("yanchor", LStr "bottom")])] fig).

Definition too_many_fig (fig : Figure) : Figure :=
  update_layout
    [("title", LStr too_many_title);
     ("annotations",
      LList [LDict
        [("text", LStr
            "Пожалуйста, выберите не более двух материалов для тепловой карты.");
         ("showarrow", LBool false);
         ("xref", LStr "paper"); ("yref", LStr "paper");
         ("font", LDict [("size", LInt 14)])]])] fig.

(** The figure of two pivots and their shared colour axis. *)
Definition paired_fig (mat1 mat2 : cell) (pivot1 pivot2 : Pivot) : Figure :=
  let both := negb (pv_empty pivot1) && negb (pv_empty pivot2) in
  let z_min := if both
               then LFloat (py_min (pv_min pivot1) (pv_min pivot2))
               else LInt 0 in
  let z_max := if both
               then LFloat (py_max (pv_max pivot1) (pv_max pivot2))
               else LInt 100 in
  update_layout
    [("title", LStr "Proteasen — Сравнение MM-фракций");
     ("coloraxis1",
      LDict [("colorscale", LStr "Greens");
             ("cmin", z_min); ("cmax", z_max);
             ("colorbar_title", LStr "Anteil [%]")]);
     ("height", LInt 700);
     ("template", LStr "plotly_white")]
    (add_trace (heatmap_trace pivot2 2)
       (add_trace (heatmap_trace pivot1 1)
          (subplots_two_rows (Fmt "Материал: " mat1 "")
             (Fmt "Материал: " mat2 "")))).

Definition single_fig (title_text : text) (pivot : Pivot) : Figure :=
  update_layout
    [("xaxis_side", LStr "top"); ("template", LStr "plotly_white")]
    {| fig_traces := [PxImshow pivot ".1f" "auto" "Greens"];
       fig_layout :=
         [("labels", LDict [("x", LStr "Enzym");
                            ("y", LStr "MM-Fraktion");
                            ("color", LStr "Anteil [%]")]);
          ("title", LText title_text)];
       fig_grid := None |}.

Section MapperOnTables.

Variable pd_mean : list float -> float.

Definition pivot_of (df : DataFrame) (mm_present : list string)
  : result Pivot :=
  enz <~ column df "Enzym" ;;
  vars <~ rfor_each (fun acc m => c <~ column df m ;; Ok (acc ++ [(m, c)]))
            mm_present [] ;;
  pivot_table pd_mean (melt enz vars).

(** The rows of one material: [dff[dff["Material"] == mat]]. *)
Definition material_rows (df : DataFrame) (mat : cell) : result DataFrame :=
  col <~ column df "Material" ;;
  Ok (select_rows (series_eq col mat) df).

Definition heatmap_of (fig : Figure) (df : DataFrame)
  (mats : option (list cell)) (mm_selected : option (list string))
  : result Figure :=
  let num_mats := if truthy mats then List.length (or_empty mats) else 0 in
  if (2 <? num_mats)%nat then Ok (too_many_fig fig)
  else if (num_mats =? 2)%nat then
    let mat1 := nth 0 (or_empty mats) (CStr "") in
    let mat2 := nth 1 (or_empty mats) (CStr "") in
    match mm_present_of df mm_selected with
    | [] =>
        Ok (update_layout [("title", LStr select_mm_title)]
              (subplots_two_rows (Fmt "Материал: " mat1 "")
                 (Fmt "Материал: " mat2 "")))
    | mm_present =>
        dff1 <~ material_rows df mat1 ;;
        pivot1 <~ pivot_of dff1 mm_present ;;
        dff2 <~ material_rows df mat2 ;;
        pivot2 <~ pivot_of dff2 mm_present ;;
        Ok (paired_fig mat1 mat2 pivot1 pivot2)
    end
  else
    match mm_present_of df mm_selected with
    | [] => Ok (update_layout [("title", LStr select_mm_title)] fig)
    | mm_present =>
        let title_text :=
          if (num_mats =? 1)%nat
          then Fmt "Proteasen — Heatmap MM-фракций ("
                 (nth 0 (or_empty mats) (CStr "")) ")"
          else Txt "Proteasen — Heatmap MM-фракций (среднее по всем)" in
        pivot <~ pivot_of df mm_present ;;
        Ok (single_fig title_text pivot)
    end.

Definition carb_title : string :=
  "Carbohydratasen — TS-Verteilung & Zusatzdaten".
Definition prot_title : string := "Proteasen — TS-Verteilung & Zusatzdaten".

(** The figure [update_plot] returns, from the table its dataset name
    selects. *)
Definition render (table : DataFrame) (dataset : string)
  (mats enz : option (list cell)) (carb_opts prot_opts : option (list string))
  (prot_view : string) (mm_selected : option (list string)) : result Figure :=
  let df := filtered table mats enz in
  if df_is_empty df then Ok placeholder_fig
  else if String.eqb dataset "carb" then
    distribution_of carb_traces_to_add carb_title df carb_opts
  else if String.eqb dataset "prot" then
    if String.eqb prot_view "distribution" then
      distribution_of prot_traces_to_add prot_title df prot_opts
    else if String.eqb prot_view "heatmap" then
      heatmap_of placeholder_fig df mats mm_selected
    else Ok placeholder_fig
  else if String.eqb dataset "filme" then films_of df
  else Ok placeholder_fig.

End MapperOnTables.

(** The result and the final store of a computation. *)
Definition result_of {A : Type} (m : M A) (h : heap) : result A := fst (m h).
Definition store_after {A : Type} (m : M A) (h : heap) : heap := snd (m h).

(** ** Sample data for the examples *)

(** The arithmetic mean, one instance of the mean kernel. *)
Definition arith_mean (vs : list float) : float :=
  (fold_left PrimFloat.add vs 0 / fold_left (fun n _ => n + 1) vs 0)%float.

Definition n_ (f : float) : cell := CNum f.

Definition sample_carb : DataFrame :=
  [("Material", [CStr "Erbse"; CStr "Soja"]);
   ("Enzym", [CStr "Cellulase"; CStr "Pektinase"]);
   ("TS Anteil ÜS [%]", [n_ 40; n_ 55]);
   ("TS Anteil Sedi [%]", [n_ 60; n_ 45]);
   ("Löslichkeit [%]", [n_ 12.5; n_ 20]);
   ("cglc [μM]", [n_ 310; n_ 120]);
   ("pH (vor)", [n_ 6.5; n_ 6.5]);
   ("pH (nach)", [n_ 6; n_ 7])].

Definition sample_prot : DataFrame :=
  [("Material", [CStr "Erbse"; CStr "Erbse"; CStr "Soja"; CStr "Lupine"]);
   ("Enzym", [CStr "Alcalase"; CStr "Alcalase"; CStr "Alcalase";
              CStr "Papain"]);
   ("TS Anteil ÜS [%]", [n_ 40; n_ 42; n_ 55; n_ 30]);
   ("TS Anteil Sedi [%]", [n_ 60; n_ 58; n_ 45; n_ 70]);
   ("Löslichkeit [%]", [n_ 12.5; n_ 13; n_ 20; n_ 8]);
   ("DH [%]", [n_ 5; n_ 7; n_ 9; n_ 3]);
   ("pH (vor)", [n_ 8; n_ 8; n_ 8; n_ 8]);
   ("pH (nach)", [n_ 7.5; n_ 7; n_ 7.25; n_ 8]);
   ("MM >10 kDa", [n_ 10; n_ 30; n_ 50; n_ 80]);
   ("MM <1 kDa", [n_ 90; n_ 70; n_ 50; n_ nan])].

Definition sample_filme : DataFrame :=
  [("Material", [CStr "Erbse"]);
   ("Versuchsnr.", [n_ 1]);
   ("Homogenität", [n_ 3]); ("Stabilität", [n_ 2]);
   ("Adhäsion Schale", [n_ 1]); ("Adhäsion Oberfläche", [n_ 2]);
   ("Kohäsion", [n_ 3]); ("Geruch", [n_ 1]);
   ("Summe", [n_ 12])].

Definition sample_globals : globals := {| carb := 0; prot := 1; filme := 2 |}.

Definition sample_store : heap := [sample_carb; sample_prot; sample_filme].

(** A Proteasen table without the solubility column. *)
Definition sample_prot_no_solubility : DataFrame :=
  filter (fun c => negb (String.eqb (fst c) "Löslichkeit [%]")) sample_prot.

Definition trace_name (t : trace) : string :=
  match t with
  | Bar _ _ name _ => name
  | Scatter _ _ name _ _ => name
  | _ => ""
  end.

(** ** Vocabulary of the claims *)

(** The values of a column, none for a column the frame does not have. *)
Definition values_of (df : DataFrame) (name : string) : series :=
  match get_column name df with
  | Some c => c
  | None => []
  end.

Definition add_traces (ts : list trace) (fig : Figure) : Figure :=
  {| fig_traces := fig_traces fig ++ ts;
     fig_layout := fig_layout fig;
     fig_grid := fig_grid fig |}.

Definition scatter_trace (df : DataFrame) (cn : string * string) : trace :=
  Scatter (values_of df "Enzym") (values_of df (fst cn)) (snd cn)
    "markers+lines" true.

(** The series one enabled option contributes. *)
Definition option_series (table : list (string * list (string * string)))
  (df : DataFrame) (opt : string) : list trace :=
  match dict_get opt table with
  | Some entries => map (scatter_trace df) entries
  | None => []
  end.

(** The two bar series every distribution view starts with. *)
Definition bar_series (df : DataFrame) : list trace :=
  [Bar (values_of df "Enzym") (values_of df "TS Anteil ÜS [%]")
     "TS Überstand [%]" false;
   Bar (values_of df "Enzym") (values_of df "TS Anteil Sedi [%]")
     "TS Sediment [%]" false].

(** The renders that show the distribution view, with the dictionary and the
    option list they use. *)
Definition distribution_case (ds pv : string)
  (carb_opts prot_opts : option (list string))
  : option (list (string * list (string * string)) * list string) :=
  if String.eqb ds "carb" then Some (carb_traces_to_add, or_empty carb_opts)
  else if String.eqb ds "prot" && String.eqb pv "distribution"
       then Some (prot_traces_to_add, or_empty prot_opts)
       else None.

Definition is_number (c : cell) : bool :=
  match c with
  | CNum _ => true
  | CStr _ => false
  end.

(** A column that exists and holds numbers only. *)
Definition numeric_column (df : DataFrame) (name : string) : bool :=
  match get_column name df with
  | Some c => forallb is_number c
  | None => false
  end.

(** What the distribution view reads: the columns of the bars and of
    abs(ΔpH), and for every enabled option an entry of the dictionary whose
    columns exist (abs(ΔpH) is the derived one). *)
Definition distribution_ready (table : list (string * list (string * string)))
  (df : DataFrame) (opts : list string) : bool :=
  numeric_column df "pH (nach)" && numeric_column df "pH (vor)" &&
  has_column "Enzym" df && has_column "TS Anteil ÜS [%]" df &&
  has_column "TS Anteil Sedi [%]" df &&
  forallb (fun opt =>
             match dict_get opt table with
             | Some entries =>
                 forallb (fun cn => String.eqb (fst cn) "abs(ΔpH)" ||
                                    has_column (fst cn) df) entries
             | None => false
             end) opts.

Definition is_ok {A : Type} (r : result A) : bool :=
  match r with
  | Ok _ => true
  | Raise _ => false
  end.

(** The pivot table of the rows of one material. *)
Definition material_pivot (pd_mean : list float -> float) (df : DataFrame)
  (mat : cell) (mm_present : list string) : result Pivot :=
  d <~ material_rows df mat ;; pivot_of pd_mean d mm_present.

(** The number in a cell, none for text and for a missing value. *)
Definition number_of (v : cell) : list float :=
  match v with
  | CNum x => if is_nan x then [] else [x]
  | CStr _ => []
  end.

(** The "Anteil [%]" values of one (material, enzyme, fraction) combination:
    the numbers in column [f] of the rows of [df] whose Material is [m] and
    whose Enzym is [e], from top to bottom. *)
Definition combination_values (df : DataFrame) (m e : cell) (f : string)
  : list float :=
  flat_map (fun '(mat, (enz, v)) =>
              if py_eq mat m && py_eq enz e then number_of v else [])
    (combine (values_of df "Material")
       (combine (values_of df "Enzym") (values_of df f))).

(** The cell in row [i] and column [j] of a pivot table, and all its cells. *)
Definition pv_cell (p : Pivot) (i j : nat) : float :=
  nth j (nth i (pv_values p) []) nan.

Definition pv_cells (p : Pivot) : list float := List.concat (pv_values p).

(** Every cell is the mean of its combination; a combination without value
    is missing. *)
Definition cells_are_means (pd_mean : list float -> float) (df : DataFrame)
  (m : cell) (p : Pivot) : Prop :=
  forall i j f e,
    nth_error (pv_index p) i = Some f ->
    nth_error (pv_columns p) j = Some e ->
    pv_cell p i j = group_mean pd_mean (combination_values df m e f).

(** [cmin] and [cmax] of the colour axis of a figure. *)
Definition color_range (fig : Figure) : option (lvalue * lvalue) :=
  match get_key "coloraxis1" (fig_layout fig) with
  | Some (LDict d) =>
      match get_key "cmin" d, get_key "cmax" d with
      | Some lo, Some hi => Some (lo, hi)
      | _, _ => None
      end
  | _ => None
  end.

(** What the paired heatmap reads: Material, Enzym and numbers in the
    selected fraction columns. *)
Definition heatmap_ready (df : DataFrame) (mm_present : list string) : bool :=
  has_column "Material" df && has_column "Enzym" df &&
  forallb (numeric_column df) mm_present.

(** [x] is a least (greatest) of the values of [vs] that are not missing. *)
Definition least_of (x : float) (vs : list float) : Prop :=
  In x vs /\ is_nan x = false /\
  forall v, In v vs -> is_nan v = false -> (x <=? v)%float = true.

Definition greatest_of (x : float) (vs : list float) : Prop :=
  In x vs /\ is_nan x = false /\
  forall v, In v vs -> is_nan v = false -> (v <=? x)%float = true.

(** Every row of the matrix has one cell per column label. *)
Definition rectangular (p : Pivot) : Prop :=
  forall row, In row (pv_values p) ->
    List.length row = List.length (pv_columns p).

(** No label twice. *)
Fixpoint distinct (l : list string) : bool :=
  match l with
  | [] => true
  | x :: r => negb (existsb (String.eqb x) r) && distinct r
  end.

(** ** Auxiliary definitions of the proofs *)

(** The filter that removes one code point, and a text of white space. *)
Definition keep_not (c : N) : N -> bool := fun x => negb (x =? c)%N.

Definition allws (s : ustr) : bool := forallb is_whitespace s.

(** A filter that removes white space only keeps the other characters. *)
Definition removes_ws_only (f : N -> bool) : Prop :=
  forall c, f c = false -> is_whitespace c = true.

(** The order of numbers, on the specification of binary64 and on the
    primitive values. *)
Definition sf_not_nan (x : spec_float) : Prop := x <> S754_nan.

Definition fle (a b : float) : Prop := (a <=? b)%float = true.

(** [x] is one of [vs], not missing, and [R]-related to every value of [vs]
    that is not missing. *)
Definition extremum (R : float -> float -> Prop) (x : float)
  (vs : list float) : Prop :=
  In x vs /\ is_nan x = false /\
  forall v, In v vs -> is_nan v = false -> R x v.

(** The values of a group, read from the rows before the conversion to
    numbers. *)
Definition group_cells (rows : list (cell * string * cell)) (f : string)
  (e : cell) : list float :=
  flat_map (fun '(e', f', v) =>
              if String.eqb f' f && py_eq e' e then number_of v else [])
    rows.

Definition row_number (row : cell * string * cell) : cell * string * float :=
  let '(e, f, v) := row in
  (e, f, match v with CNum x => x | CStr _ => nan end).

Definition row_is_number (row : cell * string * cell) : bool :=
  let '(_, _, v) := row in is_number v.

(** The values of the rows of one value column. *)
Definition column_cells (enz col : series) (e : cell) : list float :=
  flat_map (fun ev => if py_eq (fst ev) e then number_of (snd ev) else [])
    (combine enz col).

(** Two labels that sort as equal select the same rows. *)
Definition same_key (a b : cell) : Prop := forall x, py_eq x a = py_eq x b.

(** The molten rows of a frame: Enzym against the selected columns. *)
Definition molten (d : DataFrame) (mm : list string)
  : list (cell * string * cell) :=
  melt (values_of d "Enzym") (map (fun m => (m, values_of d m)) mm).

(** The mapper on the sample store, and a selection of both fractions. *)
Definition sample_render :=
  update_plot arith_mean sample_globals.

Definition both_fractions : option (list string) :=
  Some ["MM >10 kDa"; "MM <1 kDa"].


(** * The other callbacks and the loader *)

(** ** [toggle_option_visibility] and [toggle_prot_sub_options] *)

(** A style [{'display': v}] is its value [v]. *)
Definition display (shown : bool) : string :=
  if shown then "block" else "none".

Definition toggle_option_visibility (dataset : string) : string * string :=
  (display (String.eqb dataset "carb"), display (String.eqb dataset "prot")).

Definition toggle_prot_sub_options (dataset view : string) : string * string :=
  if negb (String.eqb dataset "prot") then ("none", "none")
  else (display (String.eqb view "distribution"),
        display (String.eqb view "heatmap")).

(** ** [update_dropdowns] *)

(** [s.dropna()] *)
Definition dropna (s : series) : series :=
  filter (fun c => negb (is_missing c)) s.

(** [s.unique()]: the values in the order of their first occurrence. *)
Fixpoint unique_from (seen : list cell) (s : series) : series :=
  match s with
  | [] => []
  | c :: r =>
      if existsb (py_eq c) seen then unique_from seen r
      else c :: unique_from (c :: seen) r
  end.

Definition unique (s : series) : series := unique_from [] s.

(** [<] on two cells of the same kind.  Text is compared byte by byte, which
    on UTF-8 text is the order of the code points Python compares. *)
Definition cell_lt (a b : cell) : bool :=
  match a, b with
  | CStr x, CStr y => String.ltb x y
  | CNum x, CNum y => (x <? y)%float
  | _, _ => false
  end.

Fixpoint insert_sorted (x : cell) (l : list cell) : list cell :=
  match l with
  | [] => [x]
  | y :: r => if cell_lt y x then y :: insert_sorted x r else x :: l
  end.

(** The builtin [sorted] on cells: text with text or numbers with numbers;
    comparing text with a number is a [TypeError]. *)
Definition py_sorted (l : list cell) : result (list cell) :=
  if forallb is_number l || forallb (fun c => negb (is_number c)) l
  then Ok (fold_right insert_sorted [] l)
  else Raise TypeError.

(** [[{"label": m, "value": m} for m in values]]: an option is its label and
    its value. *)
Definition options_of (values : list cell) : list (cell * cell) :=
  map (fun m => (m, m)) values.

Definition update_dropdowns (g : globals) (dataset : string)
  : M (list (cell * cell) * list (cell * cell)) :=
  let df := df_map_get g dataset in
  col <- df_getitem df "Material" ;;
  mats <- lift (py_sorted (unique (dropna col))) ;;
  has_enzym <- df_has_column df "Enzym" ;;
  enz <- (if has_enzym
          then col <- df_getitem df "Enzym" ;;
               lift (py_sorted (unique (dropna col)))
          else ret []) ;;
  ret (options_of mats, options_of enz).

(** ** Vocabulary of the further properties *)

(** The x and y values of a bar or line series. *)
Definition trace_x (t : trace) : series :=
  match t with
  | Bar x _ _ _ => x
  | Scatter x _ _ _ _ => x
  | PxBar x _ _ _ => x
  | _ => []
  end.

Definition trace_y (t : trace) : series :=
  match t with
  | Bar _ y _ _ => y
  | Scatter _ y _ _ _ => y
  | PxBar _ y _ _ => y
  | _ => []
  end.

(** All columns of a frame have [n] rows. *)
Definition has_rows (n : nat) (df : DataFrame) : Prop :=
  forall name c, In (name, c) df -> List.length c = n.

(** A value of the column is one of the selected values, as [isin] tests
    it. *)
Definition selected (sel : list cell) (c : cell) : bool :=
  existsb (isin_eq c) sel.


(** A number that is missing or not negative. *)
Definition missing_or_nonnegative (c : cell) : bool :=
  match c with
  | CNum v => is_nan v || (0 <=? v)%float
  | CStr _ => false
  end.

(** The value a control contributes: its own when its panel is shown, any
    other when the panel is hidden. *)
Definition pick {A : Type} (style : string) (own other : A) : A :=
  if String.eqb style "block" then own else other.

(** The x and the y values of a series are columns of the frame. *)
Definition from_columns (df : DataFrame) (t : trace) : Prop :=
  (exists nx, In (nx, trace_x t) df) /\ (exists ny, In (ny, trace_y t) df).

Definition fig_template (fig : Figure) : option lvalue :=
  get_key "template" (fig_layout fig).

(** The values [update_dropdowns] offers for one column. *)
Definition offered (df : DataFrame) (col : string) : result (list cell) :=
  c <~ column df col ;; py_sorted (unique (dropna c)).

(** Each value is less than the next one. *)
Fixpoint ascending (l : list cell) : bool :=
  match l with
  | a :: (b :: _) as r => cell_lt a b && ascending r
  | _ => true
  end.

(** * The loader: [clean_cols], [load_sheet] and the preparation of the
      numeric columns *)

Local Open Scope string_scope.
Local Open Scope list_scope.

(** A sheet as [pd.read_excel] returns it: the columns in sheet order, each
    with its label and its cells.  The labels are text (a header cell that
    holds text; [str(c)] is then [c] itself) and the labels of one frame are
    distinct where a column is read or assigned by its label. *)
Definition RawFrame := list (ustr * list pyval).

(** [df.columns] *)
Definition columns (df : RawFrame) : list ustr := map fst df.

(** [name in df.columns] *)
Definition mem (name : ustr) (names : list ustr) : bool :=
  existsb (ustr_eqb name) names.

(** [df[name]] for a label the frame has. *)
Fixpoint raw_column (name : ustr) (df : RawFrame) : option (list pyval) :=
  match df with
  | [] => None
  | (n, c) :: r => if ustr_eqb n name then Some c else raw_column name r
  end.

(** [re.sub(r"\s+", " ", s)]: every maximal run of white space becomes one
    space.  [in_run] tells that the code point before was white space. *)
Fixpoint collapse_from (in_run : bool) (s : ustr) : ustr :=
  match s with
  | [] => []
  | c :: r =>
      if is_whitespace c
      then if in_run then collapse_from true r
           else space :: collapse_from true r
      else c :: collapse_from false r
  end.

Definition collapse_ws (s : ustr) : ustr := collapse_from false s.

(** [re.sub(r"\s+", " ", str(c).strip())] *)
Definition clean_label (c : ustr) : ustr := collapse_ws (strip c).

(** [df.rename(columns=...)] with a mapping given as a function. *)
Definition rename (f : ustr -> ustr) (df : RawFrame) : RawFrame :=
  map (fun '(n, c) => (f n, c)) df.

Definition U_uml : N := 220%N.  (* U+00DC *)
Definition a_uml : N := 228%N.  (* U+00E4 *)
Definition o_uml : N := 246%N.  (* U+00F6 *)
Definition mu : N := 956%N.     (* U+03BC *)

Definition aliases : list (ustr * ustr) :=
  [ (lit "TS Anteil " ++ [U_uml] ++ lit "S %",
     lit "TS Anteil " ++ [U_uml] ++ lit "S [%]");
    (lit "TS Anteil Sedi %", lit "TS Anteil Sedi [%]");
    (lit "DH", lit "DH [%]");
    (lit "Stabilt" ++ [a_uml] ++ lit "t", lit "Stabilit" ++ [a_uml] ++ lit "t");
    (lit "AdhesieSchale", lit "Adh" ++ [a_uml] ++ lit "sion Schale");
    (lit "AdhesieOberfl" ++ [a_uml] ++ lit "che",
     lit "Adh" ++ [a_uml] ++ lit "sion Oberfl" ++ [a_uml] ++ lit "che") ].

(** [{a: b for a, b in aliases.items()
      if a in df.columns and b not in df.columns}] *)
Definition active_aliases (names : list ustr) : list (ustr * ustr) :=
  filter (fun e => mem (fst e) names && negb (mem (snd e) names)) aliases.

(** The label a renaming dictionary gives: the entry of the key, the label
    itself when the dictionary has no such key. *)
Definition renamed (d : list (ustr * ustr)) (name : ustr) : ustr :=
  match find (fun e => ustr_eqb (fst e) name) d with
  | Some e => snd e
  | None => name
  end.

Definition clean_cols (df : RawFrame) : RawFrame :=
  let df := rename clean_label df in
  rename (renamed (active_aliases (columns df))) df.

(** [pd.isna] on a cell: [None], NaN and the missing markers [NaT] and
    [<NA>]. *)
Definition isna (v : pyval) : bool :=
  match v with
  | PyNone => true
  | PyFloat f => is_nan f
  | PyOther r => ustr_eqb r (lit "NaT") || ustr_eqb r (lit "<NA>")
  | _ => false
  end.

(** [s.ffill()]: a missing cell takes the last value above it that is not
    missing, and stays as it is when there is none. *)
Fixpoint ffill_from (last : option pyval) (s : list pyval) : list pyval :=
  match s with
  | [] => []
  | v :: r =>
      if isna v
      then match last with
           | Some w => w :: ffill_from last r
           | None => v :: ffill_from last r
           end
      else v :: ffill_from (Some v) r
  end.

Definition ffill (s : list pyval) : list pyval := ffill_from None s.

(** [df[name] = f(df[name])] *)
Definition assign (name : ustr) (f : list pyval -> list pyval)
  (df : RawFrame) : RawFrame :=
  map (fun '(n, c) => if ustr_eqb n name then (n, f c) else (n, c)) df.

(** [load_sheet] past the reading of the file: [read] is what
    [pd.read_excel(FILE_PATH, sheet_name=name, header=0)] returned. *)
Definition load_sheet (read : RawFrame) : RawFrame :=
  let df := clean_cols read in
  if mem (lit "Material") (columns df)
  then assign (lit "Material") ffill df
  else df.

(** [s.startswith(prefix)] *)
Fixpoint startswith (prefix s : ustr) : bool :=
  match prefix, s with
  | [], _ => true
  | p :: ps, c :: r => (p =? c)%N && startswith ps r
  | _ :: _, [] => false
  end.

(** [[c for c in prot.columns if str(c).strip().startswith("MM")]] *)
Definition mm_columns_all (prot : RawFrame) : list ustr :=
  filter (fun c => startswith (lit "MM") (strip c)) (columns prot).

Section Preparation.

Variable unicode_lower : ustr -> ustr.
Variable unicode_decimal : N -> option N.

(** [s.apply(f)]: [f] on each cell from the first to the last; the first
    exception ends it. *)
Fixpoint series_apply (f : pyval -> result float) (s : list pyval)
  : result (list pyval) :=
  match s with
  | [] => Ok []
  | v :: r => x <~ f v ;; r' <~ series_apply f r ;; Ok (PyFloat x :: r')
  end.

(** [df[col] = df[col].apply(f)] *)
Fixpoint assign_applied (col : ustr) (f : pyval -> result float)
  (df : RawFrame) : result RawFrame :=
  match df with
  | [] => Ok []
  | (n, c) :: r =>
      if ustr_eqb n col
      then c' <~ series_apply f c ;; Ok ((n, c') :: r)
      else r' <~ assign_applied col f r ;; Ok ((n, c) :: r')
  end.

(** [if col in df.columns: df[col] = df[col].apply(f)] *)
Definition convert (f : pyval -> result float) (df : RawFrame) (col : ustr)
  : result RawFrame :=
  if mem col (columns df) then assign_applied col f df else Ok df.

(** The body of the loop over [num_cols_map] for one table. *)
Definition prepare (pct_cols num_cols : list ustr) (df : RawFrame)
  : result RawFrame :=
  df <~ rfor_each (convert (as_percent_0_100 unicode_lower unicode_decimal))
          pct_cols df ;;
  rfor_each (convert (parse_number_de unicode_lower unicode_decimal))
    num_cols df.

Definition ts_us : ustr := lit "TS Anteil " ++ [U_uml] ++ lit "S [%]".
Definition ts_sedi : ustr := lit "TS Anteil Sedi [%]".
Definition loeslichkeit : ustr := lit "L" ++ [o_uml] ++ lit "slichkeit [%]".

Definition carb_pct_cols : list ustr := [ts_us; ts_sedi; loeslichkeit].
Definition carb_num_cols : list ustr :=
  [lit "cglc [" ++ [mu] ++ lit "M]"; lit "pH (vor)"; lit "pH (nach)"].
Definition prot_pct_cols (prot : RawFrame) : list ustr :=
  [ts_us; ts_sedi; loeslichkeit; lit "DH [%]"] ++ mm_columns_all prot.
Definition prot_num_cols : list ustr := [lit "pH (vor)"; lit "pH (nach)"].
Definition filme_num_cols : list ustr :=
  [lit "Homogenit" ++ [a_uml] ++ lit "t"; lit "Stabilit" ++ [a_uml] ++ lit "t";
   lit "Adh" ++ [a_uml] ++ lit "sion Schale";
   lit "Adh" ++ [a_uml] ++ lit "sion Oberfl" ++ [a_uml] ++ lit "che";
   lit "Koh" ++ [a_uml] ++ lit "sion"; lit "Geruch"; lit "Summe"].

(** The loop over [num_cols_map]: the three tables in the order carb, prot,
    filme; the first exception ends it. *)
Definition prepare_tables (carb prot filme : RawFrame)
  : result (RawFrame * RawFrame * RawFrame) :=
  carb' <~ prepare carb_pct_cols carb_num_cols carb ;;
  prot' <~ prepare (prot_pct_cols prot) prot_num_cols prot ;;
  filme' <~ prepare [] filme_num_cols filme ;;
  Ok (carb', prot', filme').

End Preparation.

(** ** Vocabulary of the loader properties *)

(** A label with no white space at either end, whose white space is single
    spaces. *)
Definition normal_label (n : ustr) : Prop := strip n = n /\ collapse_ws n = n.

(** The cells of two columns agree up to a conversion [f] to float. *)
Definition converted (f : pyval -> result float) (c c' : list pyval) : Prop :=
  Forall2 (fun v v' => exists x, f v = Ok x /\ v' = PyFloat x) c c'.

Definition is_float (v : pyval) : bool :=
  match v with
  | PyFloat _ => true
  | _ => false
  end.

(** A cell that holds text or nothing. *)
Definition text_or_empty (v : pyval) : bool :=
  match v with
  | PyStr _ | PyNone => true
  | PyFloat f => is_nan f
  | _ => false
  end.

(** ** A sample sheet *)

(** A sheet as it may be read: labels with stray white space, an alias
    label, a material named once for two rows, and cells as text, numbers and
    empty cells. *)
Definition sample_sheet : RawFrame :=
  [(lit " Material",
    [PyStr (lit "Erbse"); PyNone; PyStr (lit "Soja"); PyFloat nan]);
   (lit "Enzym ",
    [PyStr (lit "Alcalase"); PyStr (lit "Papain"); PyStr (lit "Alcalase");
     PyStr (lit "Papain")]);
   (lit "DH", [PyStr (lit "12,5"); PyInt 7; PyFloat 0.5; PyNone]);
   (lit "MM  >10 kDa",
    [PyStr (lit "10 %"); PyFloat 0.3; PyStr (lit "n/a"); PyInt 80]);
   (lit "pH (vor)",
    [PyStr (lit "8,0"); PyInt 8; PyFloat 8; PyStr (lit " 8 ")])].

(** The sample holds ASCII text only, for which the two tables of the
    Unicode database are not consulted. *)
Definition sample_lower (s : ustr) : ustr := s.
Definition sample_decimal (c : N) : option N := None.

(** * Proofs: the number parser *)

(** ** Text filters *)

Lemma replace_nil c s : replace c [] s = filter (keep_not c) s.
Proof.
  unfold replace, keep_not.
  induction s as [|a s IH]; simpl; [reflexivity|].
  rewrite IH. destruct (a =? c)%N; reflexivity.
Qed.

Lemma filter_swap (f g : N -> bool) (l : list N) :
  filter f (filter g l) = filter g (filter f l).
Proof.
  induction l as [|a l IH]; simpl; [reflexivity|].
  destruct (g a) eqn:Hg, (f a) eqn:Hf; simpl;
    rewrite ?Hg, ?Hf, IH; reflexivity.
Qed.

Lemma filter_both (f g : N -> bool) (l : list N) :
  filter f (filter g l) = filter (fun x => g x && f x) l.
Proof.
  induction l as [|a l IH]; simpl; [reflexivity|].
  destruct (g a) eqn:Hg; simpl; [destruct (f a)|]; rewrite IH; reflexivity.
Qed.

(** Replacing the non-breaking spaces by spaces and then removing the spaces
    removes both kinds. *)
Lemma remove_space_after_nbsp s :
  replace space [] (replace nbsp [space] s) =
  filter (keep_not space) (filter (keep_not nbsp) s).
Proof.
  rewrite replace_nil. unfold replace, keep_not.
  induction s as [|a s IH]; simpl; [reflexivity|].
  destruct (a =? nbsp)%N eqn:Ha; simpl.
  - exact IH.
  - destruct (a =? space)%N; simpl; rewrite IH; reflexivity.
Qed.

(** ** Trimming and filters *)

Lemma rstrip_nil s : rstrip s = [] <-> allws s = true.
Proof.
  induction s as [|a s IH]; simpl; [tauto|].
  destruct (rstrip s) eqn:Hr.
  - destruct (is_whitespace a); simpl.
    + tauto.
    + split; discriminate.
  - split; [discriminate|].
    intros H. apply andb_true_iff in H as [_ H].
    apply IH in H. discriminate.
Qed.

Lemma rstrip_cons a s :
  rstrip (a :: s) =
  if allws s then (if is_whitespace a then [] else [a]) else a :: rstrip s.
Proof.
  simpl. destruct (allws s) eqn:Hs.
  - apply rstrip_nil in Hs. rewrite Hs. reflexivity.
  - destruct (rstrip s) eqn:Hr; [|reflexivity].
    assert (allws s = true) by (apply rstrip_nil; exact Hr). congruence.
Qed.

Lemma allws_filter f s : allws s = true -> allws (filter f s) = true.
Proof.
  unfold allws. induction s as [|a s IH]; simpl; [reflexivity|].
  intros H. apply andb_true_iff in H as [Ha Hs].
  destruct (f a); simpl; [rewrite Ha|]; auto.
Qed.

Lemma allws_filter_ws f s :
  removes_ws_only f -> allws (filter f s) = allws s.
Proof.
  intros Hf. unfold allws. induction s as [|a s IH]; simpl; [reflexivity|].
  destruct (f a) eqn:Ha; simpl.
  - rewrite IH. reflexivity.
  - rewrite (Hf a Ha). exact IH.
Qed.

Lemma lstrip_filter_ws f s :
  removes_ws_only f -> filter f (lstrip s) = lstrip (filter f s).
Proof.
  intros Hf. induction s as [|a s IH]; simpl; [reflexivity|].
  destruct (is_whitespace a) eqn:Hw, (f a) eqn:Ha; simpl;
    rewrite ?Hw, ?Ha; auto.
  rewrite (Hf a Ha) in Hw. discriminate.
Qed.

Lemma rstrip_filter_ws f s :
  removes_ws_only f -> filter f (rstrip s) = rstrip (filter f s).
Proof.
  intros Hf. induction s as [|a s IH]; [reflexivity|].
  rewrite rstrip_cons. cbn [filter].
  destruct (allws s) eqn:Hs.
  - destruct (f a) eqn:Ha.
    + rewrite rstrip_cons, allws_filter by exact Hs.
      destruct (is_whitespace a); simpl; rewrite ?Ha; reflexivity.
    + rewrite (Hf a Ha). simpl. symmetry. apply rstrip_nil.
      apply allws_filter. exact Hs.
  - cbn [filter]. destruct (f a) eqn:Ha.
    + rewrite rstrip_cons, allws_filter_ws, Hs, IH by exact Hf. reflexivity.
    + exact IH.
Qed.

Lemma strip_filter_ws f s :
  removes_ws_only f -> filter f (strip s) = strip (filter f s).
Proof.
  intros Hf. unfold strip.
  rewrite rstrip_filter_ws, lstrip_filter_ws by exact Hf. reflexivity.
Qed.

Lemma lstrip_rstrip s : lstrip (rstrip s) = rstrip (lstrip s).
Proof.
  induction s as [|a s IH]; [reflexivity|].
  rewrite rstrip_cons. cbn [lstrip].
  destruct (is_whitespace a) eqn:Hw, (allws s) eqn:Hs;
    cbn [lstrip]; rewrite ?Hw.
  - rewrite <- IH. apply rstrip_nil in Hs. rewrite Hs. reflexivity.
  - exact IH.
  - rewrite rstrip_cons, Hs, Hw. reflexivity.
  - rewrite rstrip_cons, Hs. reflexivity.
Qed.

(** Trimming before a filter is absorbed by trimming after it. *)
Lemma lstrip_filter_lstrip g s :
  lstrip (filter g (lstrip s)) = lstrip (filter g s).
Proof.
  induction s as [|a s IH]; simpl; [reflexivity|].
  destruct (is_whitespace a) eqn:Hw.
  - rewrite IH. destruct (g a); simpl; rewrite ?Hw; reflexivity.
  - reflexivity.
Qed.

Lemma allws_of_rstrip_eq s t : rstrip s = rstrip t -> allws s = allws t.
Proof.
  intros H. destruct (allws s) eqn:Hs, (allws t) eqn:Ht; try reflexivity.
  - apply rstrip_nil in Hs. rewrite Hs in H. symmetry in H.
    apply rstrip_nil in H. congruence.
  - apply rstrip_nil in Ht. rewrite Ht in H.
    apply rstrip_nil in H. congruence.
Qed.

Lemma rstrip_filter_rstrip g s :
  rstrip (filter g (rstrip s)) = rstrip (filter g s).
Proof.
  induction s as [|a s IH]; [reflexivity|].
  rewrite rstrip_cons. destruct (allws s) eqn:Hs.
  - cbn [filter]. destruct (g a) eqn:Ha.
    + rewrite rstrip_cons, allws_filter by exact Hs.
      destruct (is_whitespace a) eqn:Hw; [reflexivity|].
      simpl. rewrite Ha. simpl. rewrite Hw. reflexivity.
    + assert (Hn : rstrip (filter g s) = [])
        by (apply rstrip_nil, allws_filter; exact Hs).
      rewrite Hn.
      destruct (is_whitespace a); simpl; rewrite ?Ha; reflexivity.
  - cbn [filter]. destruct (g a) eqn:Ha; [|exact IH].
    rewrite !rstrip_cons, (allws_of_rstrip_eq _ _ IH), IH. reflexivity.
Qed.

Lemma strip_filter_strip g s :
  strip (filter g (strip s)) = strip (filter g s).
Proof.
  unfold strip.
  rewrite <- (lstrip_rstrip (filter g (rstrip (lstrip s)))).
  rewrite rstrip_filter_rstrip, lstrip_rstrip, lstrip_filter_lstrip.
  reflexivity.
Qed.

(** ** The source pipeline is the specification's pipeline *)

Lemma keep_not_space_ws : removes_ws_only (keep_not space).
Proof.
  intros c H. unfold keep_not in H. apply negb_false_iff, N.eqb_eq in H.
  subst c. reflexivity.
Qed.

Lemma keep_not_nbsp_ws : removes_ws_only (keep_not nbsp).
Proof.
  intros c H. unfold keep_not in H. apply negb_false_iff, N.eqb_eq in H.
  subst c. reflexivity.
Qed.

Lemma clean_agrees s :
  replace comma [dot] (replace dot [] (replace space []
    (strip (replace permille [] (replace percent []
       (replace nbsp [space] (strip s))))))) =
  spec_clean s.
Proof.
  unfold spec_clean. do 2 f_equal.
  rewrite !(replace_nil space), !(replace_nil permille),
    !(replace_nil percent), (replace_nil nbsp).
  rewrite !(strip_filter_ws (keep_not space)) by exact keep_not_space_ws.
  rewrite !(filter_swap (keep_not space) (keep_not permille)).
  rewrite !(filter_swap (keep_not space) (keep_not percent)).
  rewrite <- (replace_nil space (replace nbsp [space] (strip s))).
  rewrite remove_space_after_nbsp.
  rewrite !strip_filter_ws
    by (exact keep_not_space_ws || exact keep_not_nbsp_ws).
  rewrite !(filter_both (keep_not permille) (keep_not percent)).
  apply strip_filter_strip.
Qed.

(** ** Facts about binary64 values *)

Lemma is_nan_true f : is_nan f = true -> f = nan.
Proof.
  intros H. rewrite <- (SF2Prim_Prim2SF f).
  unfold Prim2SF. rewrite H. reflexivity.
Qed.

Lemma Prim2SF_not_nan f : is_nan f = false -> Prim2SF f <> S754_nan.
Proof.
  intros H E. unfold is_nan in H. rewrite eqb_spec, E in H. discriminate.
Qed.

Lemma abs_nonneg v : is_nan v = false -> (0 <=? abs v)%float = true.
Proof.
  intros H. apply Prim2SF_not_nan in H.
  rewrite leb_spec, abs_spec.
  change (Prim2SF 0) with (S754_zero false).
  destruct (Prim2SF v) as [s|s| |s m e]; [| |contradiction|]; reflexivity.
Qed.

Section ParserCorrect.

Variable lo : ustr -> ustr.
Variable dg : N -> option N.

Lemma parse_text_spec s :
  parse_text lo dg s = spec_text lo dg s.
Proof.
  unfold parse_text, spec_text, is_missing_token.
  destruct (_ || _ || _); [reflexivity|].
  rewrite clean_agrees. reflexivity.
Qed.

Lemma parse_number_de_refines x :
  parse_number_de lo dg x = parse_number_spec lo dg x.
Proof.
  destruct x as [|b|z|f|s|s]; simpl; try reflexivity.
  - destruct (is_nan f) eqn:Hf; [|reflexivity].
    rewrite (is_nan_true f Hf). reflexivity.
  - rewrite parse_text_spec. reflexivity.
  - rewrite parse_text_spec. reflexivity.
Qed.

(** C1: [parse_number_de] returns missing for [None], NaN, empty text and
    the tokens "nan" / "none" in any letter case, the float equivalent of a
    value that is already numeric, and otherwise the float parsed from the
    text cleaned as the specification describes, missing when that text does
    not parse; text never raises.  In particular "1.234,56" gives 1234.56,
    the empty text gives missing and "12%" gives 12.0. *)
Theorem parse_number_de_correct :
  (forall x, parse_number_de lo dg x = parse_number_spec lo dg x) /\
  (forall s, exists f, parse_number_de lo dg (PyStr s) = Ok f) /\
  parse_number_de lo dg (PyStr (lit "1.234,56")) = Ok 1234.56%float /\
  parse_number_de lo dg (PyStr (lit "")) = Ok nan /\
  parse_number_de lo dg (PyStr (lit "12%")) = Ok 12%float /\
  parse_number_de lo dg (PyStr (lit "NaN")) = Ok nan /\
  parse_number_de lo dg (PyStr (lit " None ")) = Ok nan /\
  parse_number_de lo dg (PyStr (lit "n/a")) = Ok nan /\
  parse_number_de lo dg (PyInt 7) = Ok 7%float.
Proof.
  split; [exact parse_number_de_refines|].
  split; [intros s; eexists; reflexivity|].
  repeat split; vm_compute; reflexivity.
Qed.

Lemma as_percent_refines x :
  as_percent_0_100 lo dg x = as_percent_spec lo dg x.
Proof.
  unfold as_percent_0_100, as_percent_spec.
  destruct (parse_number_de lo dg x) as [v|e]; [|reflexivity].
  destruct (is_nan v) eqn:Hv; [reflexivity|].
  rewrite (abs_nonneg v Hv). simpl.
  destruct (abs v <=? 1)%float; reflexivity.
Qed.

(** C2: [as_percent_0_100 x] is missing when [parse_number_de x] is missing,
    100 times the parsed value when its absolute value is at most 1.0, and
    the parsed value otherwise; "0,5" gives 50.0, "75" gives 75.0 and a
    missing input stays missing. *)
Theorem as_percent_0_100_correct :
  (forall x, as_percent_0_100 lo dg x = as_percent_spec lo dg x) /\
  as_percent_0_100 lo dg (PyStr (lit "0,5")) = Ok 50%float /\
  as_percent_0_100 lo dg (PyStr (lit "75")) = Ok 75%float /\
  as_percent_0_100 lo dg PyNone = Ok nan /\
  as_percent_0_100 lo dg (PyFloat nan) = Ok nan /\
  as_percent_0_100 lo dg (PyStr (lit "")) = Ok nan.
Proof.
  split; [exact as_percent_refines|].
  repeat split; vm_compute; reflexivity.
Qed.

End ParserCorrect.

(** A text with a non-breaking space and a permille sign, "1 234,5 ‰" with
    U+00A0 after the 1; lower-casing leaves such a text as it is and none of
    its code points is a digit outside ASCII. *)
Example parse_number_de_nbsp_permille :
  parse_number_de (fun s => s) (fun _ => None)
    (PyStr [49; 160; 50; 51; 52; 44; 53; 32; 8240]%N) = Ok 1234.5%float.
Proof. vm_compute. reflexivity. Qed.

(** An integer too large for binary64 is the one input that raises. *)
Example parse_number_de_overflow :
  parse_number_de (fun s => s) (fun _ => None) (PyInt (2 ^ 1024))
    = Raise OverflowError.
Proof. vm_compute. reflexivity. Qed.

(** * Proofs: the chart mapper *)

(** ** The store *)

Lemma deref_new (h : heap) (df : DataFrame) :
  deref (h ++ [df]) (List.length h) = df.
Proof.
  unfold deref. rewrite app_nth2 by lia. rewrite Nat.sub_diag. reflexivity.
Qed.

Lemma deref_old (h ext : heap) (r : ref) :
  r < List.length h -> deref (h ++ ext) r = deref h r.
Proof. intros H. unfold deref. apply app_nth1. exact H. Qed.

Lemma deref_insert (h : heap) (r : ref) (df : DataFrame) :
  r < List.length h -> deref (<[r := df]> h) r = df.
Proof.
  intros H. unfold deref. rewrite nth_lookup.
  rewrite list_lookup_insert_eq by exact H. reflexivity.
Qed.

(** ** Running the store operations *)

Lemma bind_run {A B : Type} (m : M A) (k : A -> M B) (h h' : heap)
  (r : result A) :
  m h = (r, h') ->
  bind m k h = match r with
               | Ok a => k a h'
               | Raise e => (Raise e, h')
               end.
Proof. intros H. unfold bind. rewrite H. destruct r; reflexivity. Qed.

Lemma getitem_run (r : ref) (name : string) (h : heap) :
  df_getitem r name h = (column (deref h r) name, h).
Proof.
  unfold df_getitem, column. destruct (get_column name (deref h r));
    reflexivity.
Qed.

(** A loop whose body only reads the store. *)
Lemma for_each_readonly {A B : Type} (f : B -> A -> M B)
  (fp : B -> A -> result B) (h : heap) :
  (forall acc x, f acc x h = (fp acc x, h)) ->
  forall l acc, for_each f l acc h = (rfor_each fp l acc, h).
Proof.
  intros Hf. induction l as [|x l IH]; intros acc; [reflexivity|].
  simpl. rewrite (bind_run _ _ _ _ _ (Hf acc x)). unfold rbind.
  destruct (fp acc x); [apply IH|reflexivity].
Qed.

Lemma add_scatter_run dff fig cn h :
  add_scatter dff fig cn h = (scatter_of (deref h dff) fig cn, h).
Proof.
  unfold add_scatter, scatter_of.
  rewrite (bind_run _ _ _ _ _ (getitem_run dff "Enzym" h)). unfold rbind.
  destruct (column (deref h dff) "Enzym"); [|reflexivity].
  rewrite (bind_run _ _ _ _ _ (getitem_run dff (fst cn) h)).
  destruct (column (deref h dff) (fst cn)); reflexivity.
Qed.

Lemma add_option_run table dff fig opt h :
  add_option table dff fig opt h = (option_of table (deref h dff) fig opt, h).
Proof.
  unfold add_option, option_of. destruct (dict_get opt table); [|reflexivity].
  apply for_each_readonly. intros acc x. apply add_scatter_run.
Qed.

(** The distribution view computes the figure of the frame it is given and
    changes no other object. *)
Lemma distribution_run table title dff opts h :
  dff < List.length h ->
  exists h',
    distribution table title dff opts h =
      (distribution_of table title (deref h dff) opts, h') /\
    (h' = h \/ exists df, h' = <[dff := df]> h).
Proof.
  intros Hr. unfold distribution, distribution_of, with_delta_ph.
  rewrite (bind_run _ _ _ _ _ (getitem_run dff "pH (nach)" h)). unfold rbind.
  destruct (column (deref h dff) "pH (nach)") as [nach|e];
    [|eexists; split; [reflexivity|left; reflexivity]].
  rewrite (bind_run _ _ _ _ _ (getitem_run dff "pH (vor)" h)).
  destruct (column (deref h dff) "pH (vor)") as [vor|e];
    [|eexists; split; [reflexivity|left; reflexivity]].
  unfold bind at 1, lift.
  destruct (series_sub nach vor) as [d|e];
    [|eexists; split; [reflexivity|left; reflexivity]].
  unfold bind at 1, df_setitem.
  set (df' := set_column "abs(ΔpH)" _ (deref h dff)).
  set (h1 := <[dff := df']> h).
  assert (Hd : deref h1 dff = df') by (apply deref_insert; exact Hr).
  exists h1. split; [|right; exists df'; reflexivity].
  rewrite (bind_run _ _ _ _ _ (getitem_run dff "Enzym" h1)). rewrite Hd.
  destruct (column df' "Enzym") as [x|e] eqn:Hx; [|reflexivity].
  rewrite (bind_run _ _ _ _ _ (getitem_run dff "TS Anteil ÜS [%]" h1)), Hd.
  destruct (column df' "TS Anteil ÜS [%]") as [y|e]; [|reflexivity].
  rewrite (bind_run _ _ _ _ _ (getitem_run dff "Enzym" h1)), Hd, Hx.
  rewrite (bind_run _ _ _ _ _ (getitem_run dff "TS Anteil Sedi [%]" h1)), Hd.
  destruct (column df' "TS Anteil Sedi [%]") as [y'|e]; [|reflexivity].
  erewrite bind_run.
  2:{ apply for_each_readonly. intros acc o. rewrite add_option_run, Hd.
      reflexivity. }
  destruct (rfor_each _ _ _); reflexivity.
Qed.

Lemma px_column_run dff n h :
  px_column dff n h = (px_column_of (deref h dff) n, h).
Proof.
  unfold px_column, px_column_of.
  destruct (get_column n (deref h dff)); reflexivity.
Qed.

Lemma films_run dff h : films dff h = (films_of (deref h dff), h).
Proof.
  unfold films, films_of.
  rewrite (bind_run _ _ _ _ _ (px_column_run dff "Versuchsnr." h)).
  unfold rbind at 1.
  destruct (px_column_of (deref h dff) "Versuchsnr."); [|reflexivity].
  rewrite (bind_run _ _ _ _ _ (px_column_run dff "Summe" h)).
  unfold rbind at 1.
  destruct (px_column_of (deref h dff) "Summe"); [|reflexivity].
  rewrite (bind_run _ _ _ _ _ (px_column_run dff "Material" h)).
  unfold rbind at 1.
  destruct (px_column_of (deref h dff) "Material"); [|reflexivity].
  erewrite bind_run.
  2:{ apply for_each_readonly. intros acc n.
      rewrite (bind_run _ _ _ _ _ (px_column_run dff n h)).
      instantiate (1 := fun acc n => c <~ px_column_of (deref h dff) n ;;
                                     Ok (acc ++ [(n, c)])).
      unfold rbind. destruct (px_column_of (deref h dff) n); reflexivity. }
  unfold rbind. destruct (rfor_each _ _ _); reflexivity.
Qed.

Section MapperRuns.

Variable pd_mean : list float -> float.

Lemma melt_pivot_run r mm h :
  melt_pivot pd_mean r mm h = (pivot_of pd_mean (deref h r) mm, h).
Proof.
  unfold melt_pivot, pivot_of.
  rewrite (bind_run _ _ _ _ _ (getitem_run r "Enzym" h)). unfold rbind at 1.
  destruct (column (deref h r) "Enzym") as [enz|e]; [|reflexivity].
  erewrite bind_run.
  2:{ apply for_each_readonly. intros acc m.
      rewrite (bind_run _ _ _ _ _ (getitem_run r m h)).
      instantiate (1 := fun acc m => c <~ column (deref h r) m ;;
                                     Ok (acc ++ [(m, c)])).
      unfold rbind. destruct (column (deref h r) m); reflexivity. }
  unfold rbind, lift. destruct (rfor_each _ _ _); reflexivity.
Qed.

(** The rows of one material and their pivot: one new object. *)
Lemma material_pivot_run dff mat mm h (k : Pivot -> M Figure) :
  dff < List.length h ->
  (col <- df_getitem dff "Material" ;;
   dff1 <- df_select dff (series_eq col mat) ;;
   pivot <- melt_pivot pd_mean dff1 mm ;;
   k pivot) h =
  match (d <~ material_rows (deref h dff) mat ;; pivot_of pd_mean d mm) with
  | Raise e =>
      (Raise e,
       match material_rows (deref h dff) mat with
       | Ok d => h ++ [d]
       | Raise _ => h
       end)
  | Ok p =>
      k p (h ++ match material_rows (deref h dff) mat with
                | Ok d => [d]
                | Raise _ => []
                end)
  end.
Proof.
  intros Hr. unfold material_rows.
  rewrite (bind_run _ _ _ _ _ (getitem_run dff "Material" h)).
  unfold rbind.
  destruct (column (deref h dff) "Material") as [col|e]; [|reflexivity].
  unfold bind at 1, df_select.
  rewrite (bind_run _ _ _ _ _ (melt_pivot_run _ mm _)), deref_new.
  destruct (pivot_of _ _ _); reflexivity.
Qed.

Lemma heatmap_run fig dff mats mm h :
  dff < List.length h ->
  exists ext,
    heatmap pd_mean fig dff mats mm h =
      (heatmap_of pd_mean fig (deref h dff) mats mm, h ++ ext).
Proof.
  intros Hr. unfold heatmap, heatmap_of.
  destruct (2 <? _)%nat.
  { exists []. rewrite app_nil_r. reflexivity. }
  destruct (_ =? 2)%nat.
  - unfold bind at 1, df_mm_present.
    destruct (mm_present_of (deref h dff) mm) as [|m0 mp] eqn:Hmm.
    { exists []. rewrite app_nil_r. reflexivity. }
    rewrite material_pivot_run by exact Hr.
    unfold rbind.
    destruct (material_rows (deref h dff) _) as [d1|e] eqn:Hd1;
      [|exists []; rewrite app_nil_r; reflexivity].
    destruct (pivot_of pd_mean d1 _) as [p1|e];
      [|exists [d1]; reflexivity].
    rewrite material_pivot_run by (rewrite length_app; simpl; lia).
    rewrite (deref_old h [d1] dff Hr).
    unfold rbind.
    destruct (material_rows (deref h dff) (nth 1 _ _)) as [d2|e] eqn:Hd2;
      [|exists [d1]; reflexivity].
    destruct (pivot_of pd_mean d2 _) as [p2|e];
      [|exists [d1; d2]; rewrite <- app_assoc; reflexivity].
    exists [d1; d2]. rewrite <- app_assoc. reflexivity.
  - unfold bind at 1, df_mm_present.
    destruct (mm_present_of (deref h dff) mm) as [|m0 mp] eqn:Hmm.
    { exists []. rewrite app_nil_r. reflexivity. }
    rewrite (bind_run _ _ _ _ _ (melt_pivot_run _ _ _)). unfold rbind.
    exists []. rewrite app_nil_r.
    destruct (pivot_of _ _ _); reflexivity.
Qed.

End MapperRuns.

(** One filter step returns a reference to the filtered contents; it is the
    reference it was given or a new object. *)
Lemma apply_filter_run dff col sel h :
  exists r ext,
    apply_filter dff col sel h = (Ok r, h ++ ext) /\
    deref (h ++ ext) r = filter_by col sel (deref h dff) /\
    ((r = dff /\ ext = []) \/ r = List.length h /\ List.length ext = 1).
Proof.
  unfold apply_filter, filter_by, bind at 1, df_has_column, has_column.
  destruct (get_column col (deref h dff)) as [s|] eqn:Hc; simpl.
  - destruct (truthy sel).
    + rewrite (bind_run _ _ _ _ _ (getitem_run dff col h)).
      unfold column. rewrite Hc. unfold df_select.
      eexists _, [_]. split; [reflexivity|].
      split; [apply deref_new|right; split; reflexivity].
    + exists dff, []. rewrite app_nil_r. repeat split. left. split; reflexivity.
  - exists dff, []. rewrite app_nil_r. repeat split. left. split; reflexivity.
Qed.

(** The selected frame after the copy and the two filter steps: a fresh
    object that holds the filtered table. *)
Lemma selection_run (src : ref) mats enz h (k : ref -> M Figure) :
  exists r ext,
    (dff <- df_copy src ;;
     dff <- apply_filter dff "Material" mats ;;
     dff <- apply_filter dff "Enzym" enz ;;
     k dff) h = k r (h ++ ext) /\
    List.length h <= r < List.length (h ++ ext) /\
    deref (h ++ ext) r = filtered (deref h src) mats enz.
Proof.
  unfold bind at 1, df_copy.
  destruct (apply_filter_run (List.length h) "Material" mats
              (h ++ [deref h src])) as (r1 & e1 & H1 & D1 & F1).
  rewrite (bind_run _ _ _ _ _ H1).
  destruct (apply_filter_run r1 "Enzym" enz ((h ++ [deref h src]) ++ e1))
    as (r2 & e2 & H2 & D2 & F2).
  rewrite (bind_run _ _ _ _ _ H2).
  exists r2, ([deref h src] ++ e1 ++ e2).
  rewrite !app_assoc. split; [reflexivity|].
  rewrite deref_new in D1. unfold filtered. rewrite <- D1, <- D2.
  split; [|reflexivity].
  rewrite !length_app in *. simpl in *.
  destruct F1 as [[-> ->]|[-> L1]], F2 as [[-> ->]|[-> L2]]; simpl; lia.
Qed.

Section MapperRefines.

Variable pd_mean : list float -> float.

(** [update_plot] returns the figure [render] computes from the table its
    dataset name selects, and every frame of the store it started from is
    still in place. *)
Lemma update_plot_run g ds mats enz co po pv mm h :
  exists ext,
    update_plot pd_mean g ds mats enz co po pv mm h =
      (render pd_mean (deref h (df_map_get g ds)) ds mats enz co po pv mm,
       h ++ ext).
Proof.
  unfold update_plot, render.
  match goal with
  | |- context [bind (df_copy ?s) (fun a => bind _ (fun b => bind _ ?k))] =>
      destruct (selection_run s mats enz h k) as (r & ext & Hrun & Hr & Hd)
  end.
  rewrite Hrun. clear Hrun.
  unfold bind at 1, df_empty. rewrite Hd.
  set (df := filtered _ mats enz) in *.
  destruct (df_is_empty df); [exists ext; reflexivity|].
  destruct (String.eqb ds "carb").
  { destruct (distribution_run carb_traces_to_add
                "Carbohydratasen — TS-Verteilung & Zusatzdaten" r co
                (h ++ ext)) as (h' & Hdis & Hh'); [lia|].
    rewrite Hdis, Hd. unfold carb_title.
    destruct Hh' as [->|[v ->]]; [exists ext; reflexivity|].
    exists (<[r - List.length h := v]> ext).
    rewrite insert_app_r_alt by lia. reflexivity. }
  destruct (String.eqb ds "prot").
  { destruct (String.eqb pv "distribution").
    { destruct (distribution_run prot_traces_to_add
                  "Proteasen — TS-Verteilung & Zusatzdaten" r po
                  (h ++ ext)) as (h' & Hdis & Hh'); [lia|].
      rewrite Hdis, Hd. unfold prot_title.
      destruct Hh' as [->|[v ->]]; [exists ext; reflexivity|].
      exists (<[r - List.length h := v]> ext).
      rewrite insert_app_r_alt by lia. reflexivity. }
    destruct (String.eqb pv "heatmap"); [|exists ext; reflexivity].
    destruct (heatmap_run pd_mean placeholder_fig r mats mm (h ++ ext))
      as (e2 & Hh); [lia|].
    rewrite Hh, Hd. exists (ext ++ e2). rewrite app_assoc. reflexivity. }
  destruct (String.eqb ds "filme"); [|exists ext; reflexivity].
  rewrite films_run, Hd. exists ext. reflexivity.
Qed.

Lemma update_plot_result g ds mats enz co po pv mm h :
  result_of (update_plot pd_mean g ds mats enz co po pv mm) h =
  render pd_mean (deref h (df_map_get g ds)) ds mats enz co po pv mm.
Proof.
  unfold result_of.
  destruct (update_plot_run g ds mats enz co po pv mm h) as [ext ->].
  reflexivity.
Qed.

End MapperRefines.

(** ** The series of the distribution view *)

Lemma add_traces_nil fig : add_traces [] fig = fig.
Proof. destruct fig. unfold add_traces. simpl. rewrite app_nil_r. reflexivity. Qed.

Lemma add_traces_cons t ts fig :
  add_traces (t :: ts) fig = add_traces ts (add_trace t fig).
Proof. unfold add_traces, add_trace. simpl. rewrite <- app_assoc. reflexivity. Qed.

Lemma add_traces_app ts us fig :
  add_traces (ts ++ us) fig = add_traces us (add_traces ts fig).
Proof. unfold add_traces. simpl. rewrite app_assoc. reflexivity. Qed.

Lemma column_ok df name c : column df name = Ok c -> values_of df name = c.
Proof.
  unfold column, values_of. destruct (get_column name df); congruence.
Qed.

Lemma column_has df name :
  has_column name df = true -> column df name = Ok (values_of df name).
Proof.
  unfold column, values_of, has_column.
  destruct (get_column name df); [reflexivity|discriminate].
Qed.

Lemma scatter_of_ok df fig cn fig' :
  scatter_of df fig cn = Ok fig' -> fig' = add_trace (scatter_trace df cn) fig.
Proof.
  unfold scatter_of, scatter_trace, rbind.
  destruct (column df "Enzym") as [x|] eqn:Hx; [|discriminate].
  destruct (column df (fst cn)) as [y|] eqn:Hy; [|discriminate].
  apply column_ok in Hx, Hy. subst. congruence.
Qed.

Lemma entries_ok df es : forall fig fig',
  rfor_each (scatter_of df) es fig = Ok fig' ->
  fig' = add_traces (map (scatter_trace df) es) fig.
Proof.
  induction es as [|cn es IH]; simpl; intros fig fig' H.
  - rewrite add_traces_nil. congruence.
  - unfold rbind in H.
    destruct (scatter_of df fig cn) as [f1|] eqn:H1; [|discriminate].
    apply scatter_of_ok in H1. subst f1.
    rewrite add_traces_cons. apply IH. exact H.
Qed.

Lemma options_ok table df opts : forall fig fig',
  rfor_each (option_of table df) opts fig = Ok fig' ->
  fig' = add_traces (flat_map (option_series table df) opts) fig.
Proof.
  induction opts as [|o opts IH]; simpl; intros fig fig' H.
  - rewrite add_traces_nil. congruence.
  - unfold rbind in H.
    destruct (option_of table df fig o) as [f1|] eqn:H1; [|discriminate].
    rewrite add_traces_app. apply IH. rewrite <- H. f_equal.
    unfold option_of, option_series in *.
    destruct (dict_get o table); [|discriminate].
    symmetry. apply entries_ok. exact H1.
Qed.

(** A distribution figure is the two bars followed by the series of the
    options, option after option as the selection lists them. *)
Lemma distribution_of_ok table title df opts fig :
  distribution_of table title df opts = Ok fig ->
  exists df',
    with_delta_ph df = Ok df' /\
    fig = update_layout (distribution_layout title)
            (add_traces (bar_series df' ++
                         flat_map (option_series table df') (or_empty opts))
               subplots_secondary_y).
Proof.
  unfold distribution_of, rbind.
  destruct (with_delta_ph df) as [df'|]; [|discriminate].
  destruct (column df' "Enzym") as [x|] eqn:Hx; [|discriminate].
  destruct (column df' "TS Anteil ÜS [%]") as [y1|] eqn:H1; [|discriminate].
  destruct (column df' "TS Anteil Sedi [%]") as [y2|] eqn:H2; [|discriminate].
  destruct (rfor_each _ _ _) as [f|] eqn:Hf; [|discriminate].
  intros E. exists df'. split; [reflexivity|].
  apply options_ok in Hf. apply column_ok in Hx, H1, H2. subst.
  injection E as <-. rewrite add_traces_app. reflexivity.
Qed.

(** The render of a distribution case is [distribution_of]. *)
Lemma render_distribution pd_mean table ds mats enz co po pv mm tbl opts :
  distribution_case ds pv co po = Some (tbl, opts) ->
  df_is_empty (filtered table mats enz) = false ->
  exists title o,
    or_empty o = opts /\
    render pd_mean table ds mats enz co po pv mm =
      distribution_of tbl title (filtered table mats enz) o.
Proof.
  unfold distribution_case, render. intros Hc He. rewrite He.
  destruct (String.eqb ds "carb").
  - injection Hc as <- <-. exists carb_title, co. split; reflexivity.
  - destruct (String.eqb ds "prot"); [|discriminate].
    destruct (String.eqb pv "distribution"); [|discriminate].
    injection Hc as <- <-. exists prot_title, po. split; reflexivity.
Qed.

(** *** When the distribution view succeeds *)

Lemma get_column_set_column n v df c :
  get_column c (set_column n v df) =
  if String.eqb n c then Some v else get_column c df.
Proof.
  induction df as [|[k s] df IH]; simpl.
  - reflexivity.
  - destruct (String.eqb k n) eqn:Hkn; simpl.
    + apply String.eqb_eq in Hkn. subst k.
      destruct (String.eqb n c); reflexivity.
    + destruct (String.eqb k c) eqn:Hkc; [|exact IH].
      apply String.eqb_eq in Hkc. subst k.
      rewrite String.eqb_sym, Hkn. reflexivity.
Qed.

Lemma has_column_set_column n v df c :
  has_column c (set_column n v df) = String.eqb n c || has_column c df.
Proof.
  unfold has_column. rewrite get_column_set_column.
  destruct (String.eqb n c); reflexivity.
Qed.

Lemma series_sub_numeric a : forall b,
  forallb is_number a = true -> forallb is_number b = true ->
  is_ok (series_sub a b) = true.
Proof.
  induction a as [|[s|x] a IH]; intros [|[t|y] b]; simpl;
    try reflexivity; try discriminate.
  intros Ha Hb. specialize (IH b Ha Hb).
  destruct (series_sub a b); [reflexivity|discriminate].
Qed.

Lemma entries_ready df es : forall fig,
  has_column "Enzym" df = true ->
  forallb (fun cn => has_column (fst cn) df) es = true ->
  is_ok (rfor_each (scatter_of df) es fig) = true.
Proof.
  induction es as [|cn es IH]; simpl; intros fig Hx H; [reflexivity|].
  apply andb_true_iff in H as [Hc Hes].
  unfold scatter_of at 1, rbind.
  rewrite (column_has _ _ Hx), (column_has _ _ Hc).
  apply IH; assumption.
Qed.

Lemma options_ready table df opts : forall fig,
  has_column "Enzym" df = true ->
  forallb (fun opt =>
             match dict_get opt table with
             | Some entries =>
                 forallb (fun cn => has_column (fst cn) df) entries
             | None => false
             end) opts = true ->
  is_ok (rfor_each (option_of table df) opts fig) = true.
Proof.
  induction opts as [|o opts IH]; simpl; intros fig Hx H; [reflexivity|].
  apply andb_true_iff in H as [Ho Hos].
  unfold option_of at 1, rbind.
  destruct (dict_get o table) as [es|]; [|discriminate].
  pose proof (entries_ready df es fig Hx Ho) as Hes.
  destruct (rfor_each (scatter_of df) es fig); [|discriminate].
  apply IH; assumption.
Qed.

Lemma forallb_weaken {A : Type} (p q : A -> bool) (l : list A) :
  (forall x, p x = true -> q x = true) ->
  forallb p l = true -> forallb q l = true.
Proof.
  intros Hpq. induction l as [|x l IH]; simpl; [reflexivity|].
  intros H. apply andb_true_iff in H as [Hx Hl].
  rewrite (Hpq x Hx). apply IH. exact Hl.
Qed.

Lemma distribution_of_ready table title df opts :
  distribution_ready table df (or_empty opts) = true ->
  is_ok (distribution_of table title df opts) = true.
Proof.
  unfold distribution_ready. intros H.
  repeat (apply andb_true_iff in H as [H ?]).
  unfold numeric_column in *.
  unfold distribution_of, with_delta_ph, rbind, column.
  destruct (get_column "pH (nach)" df) as [nach|]; [|discriminate].
  destruct (get_column "pH (vor)" df) as [vor|]; [|discriminate].
  pose proof (series_sub_numeric nach vor) as Hs.
  destruct (series_sub nach vor) as [d|]; [|apply Hs; assumption].
  set (df' := set_column _ _ df).
  assert (Hhas : forall c, has_column c df = true -> has_column c df' = true).
  { intros c Hc. unfold df'. rewrite has_column_set_column, Hc.
    apply orb_true_r. }
  fold (column df' "Enzym"). fold (column df' "TS Anteil ÜS [%]").
  fold (column df' "TS Anteil Sedi [%]").
  rewrite !column_has by (apply Hhas; assumption).
  match goal with
  | |- context [rfor_each ?f ?l ?a] =>
      pose proof (options_ready table df' l a) as Ho;
      destruct (rfor_each f l a); [reflexivity|]
  end.
  apply Ho; [apply Hhas; assumption|].
  eapply forallb_weaken; [|eassumption].
  intros o. simpl. destruct (dict_get o table) as [es|]; [|discriminate].
  apply forallb_weaken.
  intros cn. unfold df'. rewrite has_column_set_column.
  rewrite String.eqb_sym. auto.
Qed.

(** ** The order of binary64 values that are not NaN *)

Ltac compare_cases :=
  repeat match goal with
    | |- context [Z.compare ?a ?b] => destruct (Z.compare_spec a b)
    | |- context [Pos.compare_cont Eq ?a ?b] =>
        change (Pos.compare_cont Eq a b) with (Pos.compare a b);
        destruct (Pos.compare_spec a b)
    end.

Lemma SFleb_refl x : sf_not_nan x -> SFleb x x = true.
Proof.
  unfold sf_not_nan, SFleb. destruct x as [s|s| |s m e]; simpl; intros H;
    try congruence; try (destruct s; reflexivity).
  destruct s; compare_cases; try reflexivity; lia.
Qed.

Lemma SFleb_trans x y z :
  SFleb x y = true -> SFleb y z = true -> SFleb x z = true.
Proof.
  unfold SFleb.
  destruct x as [s1|s1| |s1 m1 e1], y as [s2|s2| |s2 m2 e2],
    z as [s3|s3| |s3 m3 e3]; simpl; try discriminate; try reflexivity;
    try (destruct s1, s2, s3; simpl; try discriminate; reflexivity);
    try (destruct s1, s2; simpl; try discriminate; reflexivity);
    try (destruct s1, s3; simpl; try discriminate; reflexivity);
    try (destruct s2, s3; simpl; try discriminate; reflexivity).
  all: destruct s1, s2, s3; simpl; try discriminate; try reflexivity;
    compare_cases; simpl; try discriminate; try reflexivity;
    intros _ _; exfalso; lia.
Qed.

(** Not smaller means at least as large. *)
Lemma SFltb_false_leb x y :
  sf_not_nan x -> sf_not_nan y -> SFltb y x = false -> SFleb x y = true.
Proof.
  unfold sf_not_nan, SFltb, SFleb.
  destruct x as [s1|s1| |s1 m1 e1], y as [s2|s2| |s2 m2 e2]; simpl;
    intros Hx Hy; try congruence;
    try (destruct s1, s2; simpl; try discriminate; reflexivity);
    try (destruct s1; simpl; try discriminate; reflexivity);
    try (destruct s2; simpl; try discriminate; reflexivity).
  destruct s1, s2; simpl; try discriminate; try reflexivity;
    compare_cases; simpl; try discriminate; try reflexivity;
    intros _; exfalso; lia.
Qed.

Lemma SFltb_true_leb x y : SFltb x y = true -> SFleb x y = true.
Proof.
  unfold SFltb, SFleb. destruct (SFcompare x y) as [[]|];
    try discriminate; reflexivity.
Qed.

Lemma not_nan_spec f : is_nan f = false -> sf_not_nan (Prim2SF f).
Proof. exact (Prim2SF_not_nan f). Qed.

Lemma fle_refl a : is_nan a = false -> fle a a.
Proof.
  intros H. unfold fle. rewrite leb_spec. apply SFleb_refl, not_nan_spec, H.
Qed.

Lemma fle_trans a b c : fle a b -> fle b c -> fle a c.
Proof. unfold fle. rewrite !leb_spec. apply SFleb_trans. Qed.

Lemma py_min_le_l a b :
  is_nan a = false -> is_nan b = false -> fle (py_min a b) a.
Proof.
  intros Ha Hb. unfold py_min. destruct (b <? a)%float eqn:E.
  - unfold fle. rewrite leb_spec. rewrite ltb_spec in E.
    apply SFltb_true_leb, E.
  - apply fle_refl, Ha.
Qed.

Lemma py_min_le_r a b :
  is_nan a = false -> is_nan b = false -> fle (py_min a b) b.
Proof.
  intros Ha Hb. unfold py_min. destruct (b <? a)%float eqn:E.
  - apply fle_refl, Hb.
  - unfold fle. rewrite leb_spec. rewrite ltb_spec in E.
    apply SFltb_false_leb; auto using not_nan_spec.
Qed.

Lemma py_max_ge_l a b :
  is_nan a = false -> is_nan b = false -> fle a (py_max a b).
Proof.
  intros Ha Hb. unfold py_max. destruct (a <? b)%float eqn:E.
  - unfold fle. rewrite leb_spec. rewrite ltb_spec in E.
    apply SFltb_true_leb, E.
  - apply fle_refl, Ha.
Qed.

Lemma py_max_ge_r a b :
  is_nan a = false -> is_nan b = false -> fle b (py_max a b).
Proof.
  intros Ha Hb. unfold py_max. destruct (a <? b)%float eqn:E.
  - apply fle_refl, Hb.
  - unfold fle. rewrite leb_spec. rewrite ltb_spec in E.
    apply SFltb_false_leb; auto using not_nan_spec.
Qed.

Lemma py_min_choice a b : py_min a b = a \/ py_min a b = b.
Proof. unfold py_min. destruct (b <? a)%float; auto. Qed.

Lemma py_max_choice a b : py_max a b = a \/ py_max a b = b.
Proof. unfold py_max. destruct (a <? b)%float; auto. Qed.

(** Equal numbers compare alike with every third one. *)
Lemma SFeqb_congruence w x y :
  SFeqb x y = true -> SFeqb w x = SFeqb w y.
Proof.
  unfold SFeqb.
  destruct x as [s1|s1| |s1 m1 e1], y as [s2|s2| |s2 m2 e2]; simpl;
    try discriminate;
    try (destruct s1, s2; simpl; try discriminate;
         destruct w as [s|s| |s m e]; reflexivity);
    try (destruct w as [s|s| |s m e]; reflexivity).
  destruct s1, s2; simpl; try discriminate; compare_cases; try discriminate;
    intros _; subst; reflexivity.
Qed.

Lemma eqb_congruence w x y :
  (x =? y)%float = true -> (w =? x)%float = (w =? y)%float.
Proof. rewrite !eqb_spec. apply SFeqb_congruence. Qed.

Lemma SFeqb_refl x : sf_not_nan x -> SFeqb x x = true.
Proof.
  unfold sf_not_nan, SFeqb. destruct x as [s|s| |s m e]; simpl; intros H;
    try congruence; try (destruct s; reflexivity).
  destruct s; compare_cases; try reflexivity; lia.
Qed.

(** ** Reductions that skip missing values *)

Section Extremum.

Variable op : float -> float -> float.
Variable R : float -> float -> Prop.

Hypothesis R_refl : forall a, is_nan a = false -> R a a.
Hypothesis R_trans : forall a b c, R a b -> R b c -> R a c.
Hypothesis op_choice : forall a b, op a b = a \/ op a b = b.
Hypothesis op_l : forall a b, is_nan a = false -> is_nan b = false -> R (op a b) a.
Hypothesis op_r : forall a b, is_nan a = false -> is_nan b = false -> R (op a b) b.

Lemma op_not_nan a b :
  is_nan a = false -> is_nan b = false -> is_nan (op a b) = false.
Proof. intros Ha Hb. destruct (op_choice a b) as [-> | ->]; assumption. Qed.

Lemma fold_extremum r : forall x,
  is_nan x = false ->
  (forall v, In v r -> is_nan v = false) ->
  extremum R (fold_left op r x) (x :: r).
Proof.
  induction r as [|y r IH]; intros x Hx Hr; simpl.
  - split; [left; reflexivity|]. split; [exact Hx|].
    intros v [<-|[]] _. apply R_refl, Hx.
  - assert (Hy : is_nan y = false) by (apply Hr; left; reflexivity).
    destruct (IH (op x y)) as (Hin & Hn & Hb).
    { apply op_not_nan; assumption. }
    { intros v Hv. apply Hr. right. exact Hv. }
    split; [|split; [exact Hn|]].
    + destruct Hin as [E|Hin]; [|right; right; exact Hin].
      rewrite <- E. destruct (op_choice x y) as [-> | ->];
        [left|right; left]; reflexivity.
    + intros v Hv Hvn.
      assert (Ho : R (fold_left op r (op x y)) (op x y))
        by (apply Hb; [left; reflexivity|apply op_not_nan; assumption]).
      destruct Hv as [<-|[<-|Hv]].
      * eapply R_trans; [exact Ho|apply op_l; assumption].
      * eapply R_trans; [exact Ho|apply op_r; assumption].
      * apply Hb; [right; exact Hv|exact Hvn].
Qed.

Lemma nan_reduce_extremum l v0 :
  In v0 l -> is_nan v0 = false -> extremum R (nan_reduce op l) l.
Proof.
  intros Hin Hn. unfold nan_reduce.
  set (keep := fun x => negb (is_nan x)).
  assert (Hf : forall v, In v (filter keep l) <-> In v l /\ is_nan v = false).
  { intros v. rewrite filter_In. unfold keep. rewrite negb_true_iff.
    reflexivity. }
  destruct (filter keep l) as [|x r] eqn:E.
  - exfalso. apply (proj2 (Hf v0)). split; assumption.
  - destruct (fold_extremum r x) as (Hi & Hnn & Hb).
    { apply (Hf x). left. reflexivity. }
    { intros v Hv. apply (Hf v). right. exact Hv. }
    split; [apply (Hf _), Hi|]. split; [exact Hnn|].
    intros v Hv Hvn. apply Hb; [|exact Hvn]. apply Hf. split; assumption.
Qed.

Lemma nan_reduce_all_nan l :
  (forall v, In v l -> is_nan v = true) -> nan_reduce op l = nan.
Proof.
  intros H. unfold nan_reduce.
  destruct (filter _ l) as [|x r] eqn:E; [reflexivity|].
  assert (Hx : In x (filter (fun x => negb (is_nan x)) l))
    by (rewrite E; left; reflexivity).
  apply filter_In in Hx as [Hx Hn]. rewrite (H x Hx) in Hn. discriminate.
Qed.

(** A reduced value that is not missing comes from a list with a value. *)
Lemma nan_reduce_not_nan l :
  is_nan (nan_reduce op l) = false ->
  exists v, In v l /\ is_nan v = false.
Proof.
  intros H. unfold nan_reduce in H.
  destruct (filter _ l) as [|x r] eqn:E; [discriminate|].
  assert (Hx : In x (filter (fun x => negb (is_nan x)) l))
    by (rewrite E; left; reflexivity).
  apply filter_In in Hx as [Hx Hn]. exists x. split; [exact Hx|].
  apply negb_true_iff, Hn.
Qed.

(** The table reduced column by column. *)
Lemma in_column p j v :
  In v (pv_column p j) -> j < List.length (pv_columns p) ->
  rectangular p -> In v (pv_cells p).
Proof.
  unfold pv_column, pv_cells. intros Hv Hj Hrect.
  apply in_map_iff in Hv as (row & <- & Hrow).
  apply in_concat. exists row. split; [exact Hrow|].
  apply nth_In. rewrite (Hrect row Hrow). exact Hj.
Qed.

Lemma in_cells p v :
  In v (pv_cells p) -> rectangular p ->
  exists j, j < List.length (pv_columns p) /\ In v (pv_column p j).
Proof.
  unfold pv_cells, pv_column. intros Hv Hrect.
  apply in_concat in Hv as (row & Hrow & Hv).
  apply (In_nth _ _ nan) in Hv as (j & Hj & <-).
  exists j. split; [rewrite <- (Hrect row Hrow); exact Hj|].
  apply in_map_iff. exists row. split; [reflexivity|exact Hrow].
Qed.

Lemma pv_reduce_extremum p v0 :
  rectangular p ->
  In v0 (pv_cells p) -> is_nan v0 = false ->
  extremum R (pv_reduce op p) (pv_cells p).
Proof.
  intros Hrect Hin Hn. unfold pv_reduce.
  set (n := List.length (pv_columns p)).
  set (col_red := fun j => nan_reduce op (pv_column p j)).
  assert (Hcol : forall j v, j < n -> In v (pv_column p j) ->
            is_nan v = false -> extremum R (col_red j) (pv_column p j)).
  { intros j v _ Hv Hvn. eapply nan_reduce_extremum; eassumption. }
  destruct (in_cells p v0 Hin Hrect) as (j0 & Hj0 & Hv0).
  destruct (Hcol j0 v0 Hj0 Hv0 Hn) as (_ & Hn0 & _).
  destruct (nan_reduce_extremum (map col_red (seq 0 n)) (col_red j0))
    as (Hi & Hnn & Hb).
  { apply in_map. apply in_seq. lia. }
  { exact Hn0. }
  apply in_map_iff in Hi as (j & Hj & Hjn). apply in_seq in Hjn.
  rewrite <- Hj in Hnn.
  destruct (nan_reduce_not_nan _ Hnn) as (v & Hv & Hvn).
  destruct (Hcol j v ltac:(lia) Hv Hvn) as (Hi' & _ & _).
  split; [|split].
  - rewrite <- Hj. eapply in_column; [exact Hi'|lia|exact Hrect].
  - rewrite <- Hj. exact Hnn.
  - intros w Hw Hwn.
    destruct (in_cells p w Hw Hrect) as (k & Hk & Hwk).
    destruct (Hcol k w Hk Hwk Hwn) as (_ & Hkn & Hkb).
    eapply R_trans; [|apply Hkb; assumption].
    apply Hb; [|exact Hkn]. apply in_map. apply in_seq. lia.
Qed.

(** The reduction of two tables, combined by [op]. *)
Lemma pair_extremum x y xs ys :
  extremum R x xs -> extremum R y ys -> extremum R (op x y) (xs ++ ys).
Proof.
  intros (Hx & Hxn & Hxb) (Hy & Hyn & Hyb). split; [|split].
  - apply in_or_app. destruct (op_choice x y) as [-> | ->]; auto.
  - apply op_not_nan; assumption.
  - intros v Hv Hvn. apply in_app_or in Hv as [Hv|Hv].
    + eapply R_trans; [apply op_l; assumption|apply Hxb; assumption].
    + eapply R_trans; [apply op_r; assumption|apply Hyb; assumption].
Qed.

End Extremum.

(** ** Least and greatest cell of a pivot table *)

Lemma pv_min_least p v0 :
  rectangular p -> In v0 (pv_cells p) -> is_nan v0 = false ->
  least_of (pv_min p) (pv_cells p).
Proof.
  apply (pv_reduce_extremum py_min fle fle_refl fle_trans py_min_choice
           py_min_le_l py_min_le_r).
Qed.

Lemma pv_max_greatest p v0 :
  rectangular p -> In v0 (pv_cells p) -> is_nan v0 = false ->
  greatest_of (pv_max p) (pv_cells p).
Proof.
  apply (pv_reduce_extremum py_max (fun a b => fle b a)).
  - exact fle_refl.
  - intros a b c Hab Hbc. exact (fle_trans c b a Hbc Hab).
  - exact py_max_choice.
  - exact py_max_ge_l.
  - exact py_max_ge_r.
Qed.

Lemma least_of_pair x y xs ys :
  least_of x xs -> least_of y ys -> least_of (py_min x y) (xs ++ ys).
Proof.
  apply (pair_extremum py_min fle fle_trans py_min_choice
           py_min_le_l py_min_le_r).
Qed.

Lemma greatest_of_pair x y xs ys :
  greatest_of x xs -> greatest_of y ys ->
  greatest_of (py_max x y) (xs ++ ys).
Proof.
  apply (pair_extremum py_max (fun a b => fle b a)).
  - intros a b c Hab Hbc. exact (fle_trans c b a Hbc Hab).
  - exact py_max_choice.
  - exact py_max_ge_l.
  - exact py_max_ge_r.
Qed.

(** ** Row selection *)

Lemma select_nil_r {A : Type} (mask : list bool) : select mask (@nil A) = [].
Proof. destruct mask as [|[] m]; reflexivity. Qed.

Lemma get_column_select_rows mask df name :
  get_column name (select_rows mask df) =
  option_map (select mask) (get_column name df).
Proof.
  induction df as [|[k c] df IH]; simpl; [reflexivity|].
  destruct (String.eqb k name); [reflexivity|exact IH].
Qed.

Lemma values_of_select_rows mask df name :
  values_of (select_rows mask df) name = select mask (values_of df name).
Proof.
  unfold values_of. rewrite get_column_select_rows.
  destruct (get_column name df); simpl; [reflexivity|].
  symmetry. apply select_nil_r.
Qed.

Lemma has_column_select_rows mask df name :
  has_column name (select_rows mask df) = has_column name df.
Proof.
  unfold has_column. rewrite get_column_select_rows.
  destruct (get_column name df); reflexivity.
Qed.

Lemma forallb_select {A : Type} (p : A -> bool) (l : list A) :
  forall mask, forallb p l = true -> forallb p (select mask l) = true.
Proof.
  induction l as [|x l IH]; intros [|b mask] H; simpl; try reflexivity.
  simpl in H. apply andb_true_iff in H as [Hx Hl].
  destruct b; simpl; [rewrite Hx|]; apply IH; exact Hl.
Qed.

Lemma numeric_column_select_rows mask df name :
  numeric_column df name = true ->
  numeric_column (select_rows mask df) name = true.
Proof.
  unfold numeric_column. rewrite get_column_select_rows.
  destruct (get_column name df); simpl; [|discriminate].
  apply forallb_select.
Qed.

Lemma combine_select {A B : Type} (a : list A) : forall (b : list B) mask,
  combine (select mask a) (select mask b) = select mask (combine a b).
Proof.
  induction a as [|x a IH]; intros b mask.
  - rewrite select_nil_r. simpl. rewrite select_nil_r. reflexivity.
  - destruct b as [|y b].
    + rewrite select_nil_r. simpl combine at 2. rewrite select_nil_r.
      destruct (select mask (x :: a)); reflexivity.
    + destruct mask as [|[] mask]; simpl; [reflexivity| |]; rewrite IH;
        reflexivity.
Qed.

(** Selecting by a mask computed from a column is filtering the rows zipped
    with that column. *)
Lemma flat_map_select {A B C : Type} (P : C -> bool) (G : A -> list B)
  (key : list C) : forall l,
  flat_map G (select (map P key) l) =
  flat_map (fun kx => if P (fst kx) then G (snd kx) else []) (combine key l).
Proof.
  induction key as [|k key IH]; intros [|x l]; simpl; try reflexivity.
  destruct (P k); simpl; rewrite IH; reflexivity.
Qed.

(** ** The groups of a molten table *)

Lemma eqb_nan_l x y : is_nan x = true -> (x =? y)%float = false.
Proof.
  intros H. apply is_nan_true in H. subst x. rewrite eqb_spec.
  reflexivity.
Qed.

Lemma py_eq_missing a b : is_missing a = true -> py_eq a b = false.
Proof.
  destruct a as [s|x], b as [t|y]; simpl; try discriminate; try reflexivity.
  apply eqb_nan_l.
Qed.

Lemma numeric_values_ok rows :
  forallb row_is_number rows = true ->
  numeric_values rows = Ok (map row_number rows).
Proof.
  induction rows as [|[[e f] [s|x]] rows IH]; simpl; intros H;
    [reflexivity|discriminate|].
  rewrite (IH H). reflexivity.
Qed.

Lemma group_values_numbers rows f e :
  forallb row_is_number rows = true ->
  group_values (map row_number rows) f e = group_cells rows f e.
Proof.
  unfold group_values, group_cells.
  induction rows as [|[[e' f'] [s|x]] rows IH]; simpl; intros H;
    [reflexivity|discriminate|].
  rewrite (IH H). f_equal.
  destruct (String.eqb f' f && py_eq e' e); [|reflexivity].
  simpl. destruct (is_nan x); reflexivity.
Qed.

Lemma group_cells_keyed rows f e :
  group_cells (keyed rows) f e = group_cells rows f e.
Proof.
  unfold group_cells, keyed.
  induction rows as [|[[e' f'] v] rows IH]; simpl; [reflexivity|].
  destruct (is_missing e') eqn:Hm; simpl; rewrite IH; [|reflexivity].
  rewrite (py_eq_missing e' e Hm), andb_false_r. reflexivity.
Qed.

Lemma group_cells_melt enz vars f e :
  group_cells (melt enz vars) f e =
  flat_map (fun nc => if String.eqb (fst nc) f
                      then column_cells enz (snd nc) e else []) vars.
Proof.
  unfold melt.
  induction vars as [|[name col] vars IH]; simpl; [reflexivity|].
  unfold group_cells in *. rewrite flat_map_app, IH. f_equal.
  unfold column_cells. generalize (combine enz col) as l.
  induction l as [|[e' v] l IHl]; simpl.
  - destruct (String.eqb name f); reflexivity.
  - rewrite IHl. destruct (String.eqb name f); reflexivity.
Qed.

Lemma flat_map_single {B : Type} (F : string -> list B) (f : string) mm :
  NoDup mm -> In f mm ->
  flat_map (fun m => if String.eqb m f then F m else []) mm = F f.
Proof.
  induction mm as [|m mm IH]; intros Hnd Hin; [destruct Hin|].
  inversion Hnd as [|? ? Hnotin Hnd']; subst. simpl.
  destruct (String.eqb m f) eqn:E.
  - apply String.eqb_eq in E. subst m.
    assert (Hz : flat_map (fun m => if String.eqb m f then F m else []) mm
                 = []).
    { clear IH Hnd Hnd' Hin. induction mm as [|m mm IH]; [reflexivity|].
      simpl. destruct (String.eqb m f) eqn:E.
      - apply String.eqb_eq in E. subst m. exfalso. apply Hnotin. left.
        reflexivity.
      - apply IH. intros H. apply Hnotin. right. exact H. }
    rewrite Hz. apply app_nil_r.
  - destruct Hin as [->|Hin]; [rewrite String.eqb_refl in E; discriminate|].
    apply IH; assumption.
Qed.

(** The value columns [pivot_of] collects. *)
Lemma value_columns_ok d mm : forall acc,
  forallb (fun m => has_column m d) mm = true ->
  rfor_each (fun acc m => c <~ column d m ;; Ok (acc ++ [(m, c)])) mm acc =
  Ok (acc ++ map (fun m => (m, values_of d m)) mm).
Proof.
  induction mm as [|m mm IH]; intros acc H; simpl.
  - rewrite app_nil_r. reflexivity.
  - apply andb_true_iff in H as [Hm Hmm].
    rewrite (column_has _ _ Hm). simpl. rewrite (IH _ Hmm).
    rewrite <- app_assoc. reflexivity.
Qed.

Lemma melt_rows_numeric enz d mm :
  forallb (numeric_column d) mm = true ->
  forallb row_is_number
    (melt enz (map (fun m => (m, values_of d m)) mm)) = true.
Proof.
  unfold melt. induction mm as [|m mm IH]; simpl; intros H; [reflexivity|].
  apply andb_true_iff in H as [Hm Hmm].
  rewrite forallb_app, (IH Hmm), andb_true_r.
  unfold numeric_column, values_of in *.
  destruct (get_column m d) as [c|]; [|discriminate].
  clear IH Hmm. revert enz. induction c as [|v c IHc]; intros [|e enz]; simpl;
    try reflexivity.
  simpl in Hm. apply andb_true_iff in Hm as [Hv Hc].
  rewrite Hv. apply IHc. exact Hc.
Qed.

Lemma forallb_filter_keep {A : Type} (p q : A -> bool) (l : list A) :
  forallb p l = true -> forallb p (filter q l) = true.
Proof.
  induction l as [|x l IH]; simpl; intros H; [reflexivity|].
  apply andb_true_iff in H as [Hx Hl].
  destruct (q x); simpl; [rewrite Hx|]; apply IH; exact Hl.
Qed.

Lemma numeric_column_has d m :
  numeric_column d m = true -> has_column m d = true.
Proof.
  unfold numeric_column, has_column. destruct (get_column m d);
    [reflexivity|discriminate].
Qed.

(** ** Sorted labels *)

Lemma insert_string_in x y l :
  In y (insert_string x l) <-> y = x \/ In y l.
Proof.
  induction l as [|z l IH]; simpl; [intuition|].
  destruct (String.compare x z) eqn:E; simpl.
  - apply String.compare_eq_iff in E. subst z. intuition.
  - intuition.
  - rewrite IH. intuition.
Qed.

Lemma sort_strings_in y l : In y (sort_strings l) <-> In y l.
Proof.
  unfold sort_strings. induction l as [|x l IH]; simpl; [tauto|].
  rewrite insert_string_in, IH. intuition.
Qed.

Lemma cell_compare_eq a b : cell_compare a b = Eq -> same_key a b.
Proof.
  destruct a as [s|x], b as [t|y]; simpl; try discriminate.
  - intros E. apply String.compare_eq_iff in E. subst t. intros z.
    reflexivity.
  - destruct (x <? y)%float; [discriminate|].
    destruct (x =? y)%float eqn:E; [|discriminate].
    intros _ [u|w]; simpl; [reflexivity|].
    apply eqb_congruence. exact E.
Qed.

Lemma insert_cell_keeps x y l : In y l -> In y (insert_cell x l).
Proof.
  induction l as [|z l IH]; simpl; [tauto|].
  destruct (cell_compare x z); simpl; intuition.
Qed.

Lemma insert_cell_has x l : exists x', In x' (insert_cell x l) /\ same_key x x'.
Proof.
  induction l as [|z l IH]; simpl.
  - exists x. split; [left; reflexivity|intros w; reflexivity].
  - destruct (cell_compare x z) eqn:E.
    + exists z. split; [left; reflexivity|apply cell_compare_eq, E].
    + exists x. split; [left; reflexivity|intros w; reflexivity].
    + destruct IH as (x' & Hin & Hk). exists x'. split; [right|]; assumption.
Qed.

Lemma insert_cell_from x y l : In y (insert_cell x l) -> y = x \/ In y l.
Proof.
  induction l as [|z l IH]; simpl; [intuition|].
  destruct (cell_compare x z); simpl; intuition.
Qed.

Lemma sort_cells_has y l :
  In y l -> exists y', In y' (sort_cells l) /\ same_key y y'.
Proof.
  unfold sort_cells. induction l as [|x l IH]; simpl; [tauto|].
  intros [->|Hin].
  - apply insert_cell_has.
  - destruct (IH Hin) as (y' & Hy' & Hk). exists y'.
    split; [apply insert_cell_keeps|]; assumption.
Qed.

Lemma sort_cells_from y l : In y (sort_cells l) -> In y l.
Proof.
  unfold sort_cells. induction l as [|x l IH]; simpl; [tauto|].
  intros H. apply insert_cell_from in H as [->|H]; auto.
Qed.

Lemma group_values_same_key rows f e e' :
  same_key e e' -> group_values rows f e = group_values rows f e'.
Proof.
  intros Hk. unfold group_values.
  induction rows as [|[[a b] v] rows IH]; simpl; [reflexivity|].
  rewrite IH, (Hk a). reflexivity.
Qed.

(** ** The cells of a pivot table *)

Lemma nth_map_some {A B : Type} (F : A -> B) (l : list A) (d : B) i x :
  nth_error l i = Some x -> nth i (map F l) d = F x.
Proof.
  revert i. induction l as [|y l IH]; intros [|i]; simpl; try discriminate.
  - intros [= ->]. reflexivity.
  - apply IH.
Qed.

Section PivotCells.

Variable pd_mean : list float -> float.

Lemma build_pivot_rectangular rows : rectangular (build_pivot pd_mean rows).
Proof.
  intros row Hrow. simpl in Hrow. apply in_map_iff in Hrow as (f & <- & _).
  simpl. apply length_map.
Qed.

Lemma build_pivot_cell rows i j f e :
  nth_error (pv_index (build_pivot pd_mean rows)) i = Some f ->
  nth_error (pv_columns (build_pivot pd_mean rows)) j = Some e ->
  pv_cell (build_pivot pd_mean rows) i j = cell_value pd_mean rows f e.
Proof.
  intros Hi Hj. unfold pv_cell. simpl pv_values.
  rewrite (nth_map_some _ _ _ _ _ Hi).
  apply (nth_map_some _ _ _ _ _ Hj).
Qed.

Lemma build_pivot_index rows f :
  In f (pv_index (build_pivot pd_mean rows)) ->
  exists e v, In (e, f, v) rows.
Proof.
  simpl. rewrite sort_strings_in. intros H.
  apply in_map_iff in H as ([[e f'] v] & <- & Hin).
  apply filter_In in Hin as [Hin _]. exists e, v. exact Hin.
Qed.

(** A table with a row and a column has a cell that is not missing. *)
Lemma build_pivot_value rows :
  pv_empty (build_pivot pd_mean rows) = false ->
  exists v, In v (pv_cells (build_pivot pd_mean rows)) /\ is_nan v = false.
Proof.
  intros Hne.
  assert (Hk : exists row, In row (kept_rows pd_mean rows)).
  { unfold pv_empty in Hne. simpl in Hne.
    destruct (kept_rows pd_mean rows) as [|row k]; [discriminate|].
    exists row. left. reflexivity. }
  destruct Hk as ([[e f] v] & Hrow).
  assert (Hval : is_nan (cell_value pd_mean rows f e) = false).
  { apply filter_In in Hrow as [_ H]. apply negb_true_iff in H. exact H. }
  assert (Hf : In f (pv_index (build_pivot pd_mean rows))).
  { simpl. apply sort_strings_in. apply in_map_iff.
    exists (e, f, v). split; [reflexivity|exact Hrow]. }
  destruct (sort_cells_has e (map (fun '(e, _, _) => e)
                                (kept_rows pd_mean rows)))
    as (e' & He' & Hk).
  { apply in_map_iff. exists (e, f, v). split; [reflexivity|exact Hrow]. }
  exists (cell_value pd_mean rows f e'). split.
  - unfold pv_cells. apply in_concat.
    exists (map (fun e => cell_value pd_mean rows f e)
              (pv_columns (build_pivot pd_mean rows))).
    split.
    + simpl. apply in_map_iff. exists f. split; [reflexivity|exact Hf].
    + apply in_map_iff. exists e'. split; [reflexivity|exact He'].
  - unfold cell_value in *.
    rewrite <- (group_values_same_key rows f e e' Hk). exact Hval.
Qed.

Lemma pivot_of_ready d mm :
  has_column "Enzym" d = true ->
  forallb (numeric_column d) mm = true ->
  pivot_of pd_mean d mm =
    Ok (build_pivot pd_mean (map row_number (keyed (molten d mm)))).
Proof.
  intros He Hn. unfold pivot_of.
  rewrite (column_has _ _ He). unfold rbind at 1.
  rewrite value_columns_ok
    by (eapply forallb_weaken; [|exact Hn]; apply numeric_column_has).
  unfold rbind. simpl app. unfold pivot_table.
  rewrite numeric_values_ok; [reflexivity|].
  apply forallb_filter_keep, melt_rows_numeric, Hn.
Qed.

Lemma molten_group d mm f e :
  forallb (numeric_column d) mm = true ->
  NoDup mm -> In f mm ->
  group_values (map row_number (keyed (molten d mm))) f e =
  column_cells (values_of d "Enzym") (values_of d f) e.
Proof.
  intros Hn Hnd Hf.
  rewrite group_values_numbers
    by (apply forallb_filter_keep, melt_rows_numeric, Hn).
  rewrite group_cells_keyed. unfold molten. rewrite group_cells_melt.
  rewrite flat_map_concat_map, map_map, <- flat_map_concat_map. simpl.
  apply (flat_map_single
           (fun m => column_cells (values_of d "Enzym") (values_of d m) e));
    assumption.
Qed.

Lemma molten_fraction d mm e f v :
  In (e, f, v) (map row_number (keyed (molten d mm))) -> In f mm.
Proof.
  intros H. apply in_map_iff in H as ([[e' f'] v'] & E & H).
  apply filter_In in H as [H _]. unfold molten, melt in H.
  apply in_flat_map in H as ([m c] & Hm & H).
  apply in_map_iff in Hm as (m' & [= -> _] & Hm).
  apply in_map_iff in H as ([a b] & [= _ <- _] & _).
  simpl in E. injection E as _ <- _. exact Hm.
Qed.

(** The values of a group of the rows of one material are the values of the
    (material, enzyme, fraction) combination in the table. *)
Lemma material_group df m mask e f :
  mask = series_eq (values_of df "Material") m ->
  column_cells (values_of (select_rows mask df) "Enzym")
    (values_of (select_rows mask df) f) e =
  combination_values df m e f.
Proof.
  intros ->. rewrite !values_of_select_rows. unfold column_cells.
  rewrite combine_select. unfold series_eq.
  rewrite (flat_map_select (fun c => py_eq c m)).
  unfold combination_values. apply flat_map_ext.
  intros [mat [enz v]]. simpl.
  destruct (py_eq mat m); reflexivity.
Qed.

Lemma material_pivot_ready df m mm :
  heatmap_ready df mm = true ->
  NoDup mm ->
  exists p,
    material_pivot pd_mean df m mm = Ok p /\
    cells_are_means pd_mean df m p /\
    rectangular p /\
    (pv_empty p = false ->
     exists v, In v (pv_cells p) /\ is_nan v = false).
Proof.
  unfold heatmap_ready. intros H Hnd.
  apply andb_true_iff in H as [H Hn]. apply andb_true_iff in H as [Hm He].
  unfold material_pivot, material_rows, rbind.
  rewrite (column_has _ _ Hm).
  set (mask := series_eq (values_of df "Material") m).
  set (d := select_rows mask df).
  assert (Hn' : forallb (numeric_column d) mm = true).
  { eapply forallb_weaken; [|exact Hn]. intros c.
    apply numeric_column_select_rows. }
  rewrite pivot_of_ready
    by (try exact Hn'; unfold d; rewrite has_column_select_rows; exact He).
  eexists. split; [reflexivity|].
  split; [|split; [apply build_pivot_rectangular|apply build_pivot_value]].
  intros i j f e Hi Hj.
  rewrite (build_pivot_cell _ i j f e Hi Hj). unfold cell_value. f_equal.
  assert (Hf : In f mm).
  { apply nth_error_In in Hi. apply build_pivot_index in Hi as (e' & v & Hr).
    eapply molten_fraction. exact Hr. }
  rewrite (molten_group d mm f e Hn' Hnd Hf).
  apply material_group. reflexivity.
Qed.

End PivotCells.

(** ** The paired heatmap *)

Lemma color_range_paired m1 m2 p1 p2 :
  color_range (paired_fig m1 m2 p1 p2) =
  Some (if negb (pv_empty p1) && negb (pv_empty p2)
        then (LFloat (py_min (pv_min p1) (pv_min p2)),
              LFloat (py_max (pv_max p1) (pv_max p2)))
        else (LInt 0, LInt 100)).
Proof.
  unfold color_range, paired_fig.
  destruct (negb (pv_empty p1) && negb (pv_empty p2)); reflexivity.
Qed.

Lemma traces_paired m1 m2 p1 p2 :
  fig_traces (paired_fig m1 m2 p1 p2) =
  [heatmap_trace p1 1; heatmap_trace p2 2].
Proof. reflexivity. Qed.

Lemma heatmap_of_paired pd_mean fig df m1 m2 mm p1 p2 :
  mm_present_of df mm <> [] ->
  material_pivot pd_mean df m1 (mm_present_of df mm) = Ok p1 ->
  material_pivot pd_mean df m2 (mm_present_of df mm) = Ok p2 ->
  heatmap_of pd_mean fig df (Some [m1; m2]) mm = Ok (paired_fig m1 m2 p1 p2).
Proof.
  intros Hne H1 H2. unfold heatmap_of. simpl truthy. cbv iota.
  simpl or_empty. simpl List.length. simpl Nat.ltb. simpl Nat.eqb. cbv iota.
  simpl nth.
  destruct (mm_present_of df mm) as [|m0 mp] eqn:E; [congruence|].
  unfold material_pivot, rbind in *.
  destruct (material_rows df m1) as [d1|]; [|discriminate].
  rewrite H1.
  destruct (material_rows df m2) as [d2|]; [|discriminate].
  rewrite H2. reflexivity.
Qed.

Lemma render_heatmap pd_mean table mats enz co po mm :
  df_is_empty (filtered table mats enz) = false ->
  render pd_mean table "prot" mats enz co po "heatmap" mm =
  heatmap_of pd_mean placeholder_fig (filtered table mats enz) mats mm.
Proof.
  intros He. unfold render. rewrite He. reflexivity.
Qed.

Lemma distinct_NoDup l : distinct l = true -> NoDup l.
Proof.
  induction l as [|x l IH]; simpl; intros H; [constructor|].
  apply andb_true_iff in H as [Hx Hl]. constructor; [|apply IH, Hl].
  intros Hin. apply negb_true_iff in Hx.
  assert (Ht : existsb (String.eqb x) l = true).
  { apply existsb_exists. exists x. split; [exact Hin|apply String.eqb_refl]. }
  congruence.
Qed.

(** * The claims about the chart mapper *)

Section MapperClaims.

Variable pd_mean : list float -> float.

(** C6: when the table that remains after the material and enzyme filters is
    empty, [update_plot] returns the placeholder figure titled "Bitte Daten
    auswählen" without any series and without raising, whatever the dataset,
    the view and the options; the store only gains the filtered copies. *)
Theorem empty_selection_gives_placeholder g ds mats enz co po pv mm h :
  df_is_empty (filtered (deref h (df_map_get g ds)) mats enz) = true ->
  result_of (update_plot pd_mean g ds mats enz co po pv mm) h
    = Ok placeholder_fig /\
  fig_traces placeholder_fig = [] /\
  fig_title placeholder_fig = Some (LStr "Bitte Daten auswählen") /\
  exists ext,
    store_after (update_plot pd_mean g ds mats enz co po pv mm) h = h ++ ext.
Proof.
  intros He. rewrite update_plot_result. unfold render. rewrite He.
  repeat split.
  destruct (update_plot_run pd_mean g ds mats enz co po pv mm h) as [ext E].
  exists ext. unfold store_after. rewrite E. reflexivity.
Qed.

(** C7: a render leaves the three canonical tables as they were: filtering
    and the derived abs(ΔpH) column work on a copy, so every later render
    sees the tables of process start and returns what it would have returned
    before. *)
Theorem canonical_tables_unchanged g ds mats enz co po pv mm h :
  carb g < List.length h ->
  prot g < List.length h ->
  filme g < List.length h ->
  let h' := store_after (update_plot pd_mean g ds mats enz co po pv mm) h in
  deref h' (carb g) = deref h (carb g) /\
  deref h' (prot g) = deref h (prot g) /\
  deref h' (filme g) = deref h (filme g) /\
  forall ds' mats' enz' co' po' pv' mm',
    result_of (update_plot pd_mean g ds' mats' enz' co' po' pv' mm') h' =
    result_of (update_plot pd_mean g ds' mats' enz' co' po' pv' mm') h.
Proof.
  intros Hc Hp Hf h'.
  destruct (update_plot_run pd_mean g ds mats enz co po pv mm h) as [ext E].
  assert (Hh : h' = h ++ ext) by (unfold h', store_after; rewrite E; reflexivity).
  rewrite Hh. rewrite !deref_old by assumption.
  repeat split.
  intros ds' mats' enz' co' po' pv' mm'. rewrite !update_plot_result.
  f_equal. apply deref_old. unfold df_map_get.
  repeat destruct (String.eqb ds' _); assumption.
Qed.

(** C8, amended: for a dataset name other than carb, prot and filme the
    mapper takes the fallback table (carb) for filtering but draws no chart
    of it: it returns the placeholder figure. *)
Theorem unknown_dataset_gives_placeholder g ds mats enz co po pv mm h :
  ds <> "carb" -> ds <> "prot" -> ds <> "filme" ->
  df_map_get g ds = carb g /\
  result_of (update_plot pd_mean g ds mats enz co po pv mm) h
    = Ok placeholder_fig.
Proof.
  intros H1 H2 H3.
  apply String.eqb_neq in H1, H2, H3.
  rewrite update_plot_result. unfold render, df_map_get.
  rewrite H1, H2, H3. split; [reflexivity|].
  destruct (df_is_empty _); reflexivity.
Qed.

(** C3, amended: in a distribution view the series are the two bars followed
    by the series of the enabled options in the order in which the selection
    lists them (two series for "ph"); the series list is a function of the
    selection list, not of the set of enabled options alone. *)
Theorem series_follow_selection_order g ds mats enz co po pv mm h tbl opts fig :
  let df := filtered (deref h (df_map_get g ds)) mats enz in
  distribution_case ds pv co po = Some (tbl, opts) ->
  df_is_empty df = false ->
  result_of (update_plot pd_mean g ds mats enz co po pv mm) h = Ok fig ->
  exists df',
    with_delta_ph df = Ok df' /\
    fig_traces fig = bar_series df' ++ flat_map (option_series tbl df') opts.
Proof.
  intros df Hc He. rewrite update_plot_result.
  destruct (render_distribution pd_mean _ ds mats enz co po pv mm tbl opts
              Hc He) as (title & o & <- & ->).
  intros E. apply distribution_of_ok in E as (df' & Hdf & ->).
  exists df'. split; [exact Hdf|]. reflexivity.
Qed.

(** C4, amended: a distribution view on a selection that is not empty returns
    a chart, with the series of every enabled option, when the table holds
    Enzym, both TS columns, numeric pH (vor) and pH (nach) and the column of
    every enabled option, each option being one of the view; there is no
    skipping of an option whose column is absent. *)
Theorem distribution_returns_chart g ds mats enz co po pv mm h tbl opts :
  let df := filtered (deref h (df_map_get g ds)) mats enz in
  distribution_case ds pv co po = Some (tbl, opts) ->
  df_is_empty df = false ->
  distribution_ready tbl df opts = true ->
  exists fig df',
    result_of (update_plot pd_mean g ds mats enz co po pv mm) h = Ok fig /\
    with_delta_ph df = Ok df' /\
    fig_traces fig = bar_series df' ++ flat_map (option_series tbl df') opts.
Proof.
  intros df Hc He Hr. rewrite update_plot_result.
  destruct (render_distribution pd_mean _ ds mats enz co po pv mm tbl opts
              Hc He) as (title & o & <- & ->).
  pose proof (distribution_of_ready tbl title df o Hr) as Hok.
  fold df. destruct (distribution_of tbl title df o) as [fig|] eqn:E;
    [|discriminate].
  apply distribution_of_ok in E as (df' & Hdf & ->).
  eexists. exists df'. split; [reflexivity|]. split; [exact Hdf|reflexivity].
Qed.

(** C5, amended: in the heatmap view of Proteasen, when the selection is not
    empty, at most two materials are selected and none of the selected
    MM-fraction columns is in the table, the result is the figure titled
    "please select MM fractions", without series. *)
Theorem no_mm_fraction_gives_placeholder g mats enz co po mm h :
  let df := filtered (deref h (prot g)) mats enz in
  df_is_empty df = false ->
  List.length (or_empty mats) <= 2 ->
  mm_present_of df mm = [] ->
  exists fig,
    result_of (update_plot pd_mean g "prot" mats enz co po "heatmap" mm) h
      = Ok fig /\
    fig_title fig = Some (LStr select_mm_title) /\
    fig_traces fig = [].
Proof.
  intros df He Hn Hmm. rewrite update_plot_result.
  change (df_map_get g "prot") with (prot g).
  unfold render. fold df. rewrite He.
  change (String.eqb "prot" "carb") with false.
  change (String.eqb "prot" "prot") with true.
  change (String.eqb "heatmap" "distribution") with false.
  change (String.eqb "heatmap" "heatmap") with true.
  cbv iota. unfold heatmap_of. rewrite Hmm.
  assert (Hle : (if truthy mats then List.length (or_empty mats) else 0) <= 2)
    by (destruct (truthy mats); lia).
  destruct (2 <? _)%nat eqn:H2; [apply Nat.ltb_lt in H2; lia|].
  destruct (_ =? 2)%nat; eexists; repeat split.
Qed.

(** C9, amended: in the heatmap view of Proteasen with exactly two materials
    selected, a selection that is not empty and at least one selected
    MM-fraction column present (the table having Material, Enzym and numbers
    in the distinct selected columns), the figure has exactly two heatmap
    traces, stacked in two rows and on one colour axis, one per material;
    every cell is the mean of the values of its (material, enzyme, fraction)
    combination; when both pivot tables are non-empty the range of the
    colour axis is the least and the greatest cell of the two tables. *)
Theorem paired_heatmap_correct g enz co po mm h m1 m2 :
  let df := filtered (deref h (prot g)) (Some [m1; m2]) enz in
  let mmp := mm_present_of df mm in
  df_is_empty df = false ->
  mmp <> [] ->
  distinct mmp = true ->
  heatmap_ready df mmp = true ->
  exists p1 p2 fig,
    material_pivot pd_mean df m1 mmp = Ok p1 /\
    material_pivot pd_mean df m2 mmp = Ok p2 /\
    result_of (update_plot pd_mean g "prot" (Some [m1; m2]) enz co po
                 "heatmap" mm) h = Ok fig /\
    fig_traces fig = [heatmap_trace p1 1; heatmap_trace p2 2] /\
    fig_grid fig = Some {| grid_rows := 2; grid_cols := 1;
                           grid_secondary_y := false |} /\
    cells_are_means pd_mean df m1 p1 /\
    cells_are_means pd_mean df m2 p2 /\
    (pv_empty p1 = false -> pv_empty p2 = false ->
     exists lo hi,
       color_range fig = Some (LFloat lo, LFloat hi) /\
       least_of lo (pv_cells p1 ++ pv_cells p2) /\
       greatest_of hi (pv_cells p1 ++ pv_cells p2)).
Proof.
  intros df mmp He Hne Hnd Hr. apply distinct_NoDup in Hnd.
  destruct (material_pivot_ready pd_mean df m1 mmp Hr Hnd)
    as (p1 & H1 & Hc1 & Hrect1 & Hv1).
  destruct (material_pivot_ready pd_mean df m2 mmp Hr Hnd)
    as (p2 & H2 & Hc2 & Hrect2 & Hv2).
  exists p1, p2, (paired_fig m1 m2 p1 p2).
  repeat (split; [assumption|]).
  split.
  { rewrite update_plot_result.
    change (df_map_get g "prot") with (prot g).
    rewrite render_heatmap by exact He.
    apply heatmap_of_paired; assumption. }
  split; [reflexivity|]. split; [reflexivity|].
  repeat (split; [assumption|]).
  intros E1 E2. rewrite color_range_paired, E1, E2. simpl.
  destruct (Hv1 E1) as (v1 & Hin1 & Hn1).
  destruct (Hv2 E2) as (v2 & Hin2 & Hn2).
  eexists _, _. split; [reflexivity|]. split.
  - apply least_of_pair; eapply pv_min_least; eassumption.
  - apply greatest_of_pair; eapply pv_max_greatest; eassumption.
Qed.

(** C10: in the heatmap view of Proteasen with two materials, when one of
    the two pivot tables is empty the colour axis does not take the range of
    the data: its range is exactly 0 to 100. *)
Theorem empty_pivot_default_range g enz co po mm h m1 m2 p1 p2 :
  let df := filtered (deref h (prot g)) (Some [m1; m2]) enz in
  let mmp := mm_present_of df mm in
  df_is_empty df = false ->
  mmp <> [] ->
  material_pivot pd_mean df m1 mmp = Ok p1 ->
  material_pivot pd_mean df m2 mmp = Ok p2 ->
  pv_empty p1 || pv_empty p2 = true ->
  exists fig,
    result_of (update_plot pd_mean g "prot" (Some [m1; m2]) enz co po
                 "heatmap" mm) h = Ok fig /\
    fig_traces fig = [heatmap_trace p1 1; heatmap_trace p2 2] /\
    color_range fig = Some (LInt 0, LInt 100).
Proof.
  intros df mmp He Hne H1 H2 Hempty.
  exists (paired_fig m1 m2 p1 p2). split; [|split; [reflexivity|]].
  - rewrite update_plot_result.
    change (df_map_get g "prot") with (prot g).
    rewrite render_heatmap by exact He.
    apply heatmap_of_paired; assumption.
  - rewrite color_range_paired.
    destruct (pv_empty p1), (pv_empty p2); try discriminate; reflexivity.
Qed.

End MapperClaims.

Lemma empty_selection_gives_placeholder_witness :
  result_of (sample_render "carb" (Some [CStr "Hafer"]) None
               (Some ["loes"]) None "distribution" None) sample_store
    = Ok placeholder_fig.
Proof.
  apply (empty_selection_gives_placeholder arith_mean sample_globals "carb"
           (Some [CStr "Hafer"]) None (Some ["loes"]) None "distribution"
           None sample_store).
  vm_compute. reflexivity.
Defined.

Lemma canonical_tables_unchanged_witness :
  deref (store_after (sample_render "carb" None None (Some ["deltaph"]) None
                        "distribution" None) sample_store) 0
    = sample_carb.
Proof.
  apply (canonical_tables_unchanged arith_mean sample_globals "carb" None None
           (Some ["deltaph"]) None "distribution" None sample_store);
    simpl; lia.
Defined.

(** That render did assign the derived column, on its copy: the new frame
    has abs(ΔpH), the canonical table does not. *)
Example derived_column_on_copy :
  has_column "abs(ΔpH)"
    (deref (store_after (sample_render "carb" None None (Some ["deltaph"])
                           None "distribution" None) sample_store) 3) = true /\
  has_column "abs(ΔpH)" sample_carb = false.
Proof. split; vm_compute; reflexivity. Qed.

Lemma unknown_dataset_gives_placeholder_witness :
  result_of (sample_render "zucker" None None (Some ["loes"]) None
               "distribution" None) sample_store
    = Ok placeholder_fig.
Proof.
  apply (unknown_dataset_gives_placeholder arith_mean sample_globals "zucker"
           None None (Some ["loes"]) None "distribution" None sample_store);
    discriminate.
Defined.

(** C8 as stated fails: the unknown name "zucker" does not give the chart
    that "carb" gives on the same store and selection. *)
Lemma unknown_dataset_counterexample :
  result_of (sample_render "zucker" None None (Some ["loes"]) None
               "distribution" None) sample_store
  <> result_of (sample_render "carb" None None (Some ["loes"]) None
               "distribution" None) sample_store.
Proof. vm_compute. discriminate. Qed.

Lemma series_follow_selection_order_witness :
  exists fig df',
    result_of (sample_render "carb" None None (Some ["glc"; "loes"]) None
                 "distribution" None) sample_store = Ok fig /\
    with_delta_ph sample_carb = Ok df' /\
    map trace_name (fig_traces fig) =
      ["TS Überstand [%]"; "TS Sediment [%]";
       "Reduzierende Zucker [µM]"; "Proteinlöslichkeit [%]"].
Proof.
  let r := eval vm_compute in
    (result_of (sample_render "carb" None None (Some ["glc"; "loes"]) None
                  "distribution" None) sample_store) in
  match r with
  | Ok ?f =>
      assert (R : result_of (sample_render "carb" None None
                               (Some ["glc"; "loes"]) None "distribution"
                               None) sample_store = Ok f)
        by (vm_compute; reflexivity);
      destruct (series_follow_selection_order arith_mean sample_globals
                  "carb" None None (Some ["glc"; "loes"]) None "distribution"
                  None sample_store carb_traces_to_add ["glc"; "loes"] f
                  eq_refl eq_refl R) as (df' & Hdf & Htr);
      exists f, df'
  end.
  split; [exact R|]. split; [exact Hdf|].
  rewrite Htr. vm_compute in Hdf. injection Hdf as <-. reflexivity.
Defined.

(** C3 as stated fails: the same two options in two orders give two series
    lists. *)
Lemma selection_order_counterexample :
  (forall o, In o ["loes"; "glc"] <-> In o ["glc"; "loes"]) /\
  result_of (sample_render "carb" None None (Some ["loes"; "glc"]) None
               "distribution" None) sample_store
  <> result_of (sample_render "carb" None None (Some ["glc"; "loes"]) None
               "distribution" None) sample_store.
Proof.
  split.
  - intros o. simpl. tauto.
  - vm_compute. discriminate.
Qed.

Lemma distribution_returns_chart_witness :
  exists fig df',
    result_of (sample_render "prot" (Some [CStr "Erbse"]) None None
                 (Some ["dh"; "ph"]) "distribution" None) sample_store
      = Ok fig /\
    with_delta_ph (filtered sample_prot (Some [CStr "Erbse"]) None)
      = Ok df' /\
    fig_traces fig =
      bar_series df' ++
      flat_map (option_series prot_traces_to_add df') ["dh"; "ph"].
Proof.
  apply (distribution_returns_chart arith_mean sample_globals "prot"
           (Some [CStr "Erbse"]) None None (Some ["dh"; "ph"]) "distribution"
           None sample_store prot_traces_to_add ["dh"; "ph"]);
    vm_compute; reflexivity.
Defined.

(** C4 as stated fails: with "loes" enabled on a table without the column
    Löslichkeit [%] the render raises instead of skipping the option. *)
Lemma missing_column_counterexample :
  has_column "Löslichkeit [%]" sample_prot_no_solubility = false /\
  result_of (sample_render "prot" None None None (Some ["loes"])
               "distribution" None)
    [sample_carb; sample_prot_no_solubility; sample_filme]
  = Raise (KeyError "Löslichkeit [%]").
Proof. split; vm_compute; reflexivity. Qed.

Lemma no_mm_fraction_gives_placeholder_witness :
  exists fig,
    result_of (sample_render "prot" (Some [CStr "Erbse"; CStr "Soja"]) None
                 None None "heatmap" (Some ["MM 5 kDa"])) sample_store
      = Ok fig /\
    fig_title fig = Some (LStr select_mm_title) /\
    fig_traces fig = [].
Proof.
  apply (no_mm_fraction_gives_placeholder arith_mean sample_globals
           (Some [CStr "Erbse"; CStr "Soja"]) None None None
           (Some ["MM 5 kDa"]) sample_store).
  - vm_compute. reflexivity.
  - simpl. lia.
  - vm_compute. reflexivity.
Defined.

(** C5 as stated fails: with three materials and no MM fraction selected the
    result is the "too many materials" figure. *)
Lemma no_mm_fraction_counterexample :
  mm_present_of
    (filtered sample_prot
       (Some [CStr "Erbse"; CStr "Soja"; CStr "Lupine"]) None) (Some []) = []
  /\
  exists fig,
    result_of (sample_render "prot"
                 (Some [CStr "Erbse"; CStr "Soja"; CStr "Lupine"]) None
                 None None "heatmap" (Some [])) sample_store = Ok fig /\
    fig_title fig = Some (LStr too_many_title) /\
    fig_title fig <> Some (LStr select_mm_title).
Proof.
  split; [reflexivity|].
  eexists. split; [vm_compute; reflexivity|].
  split; [reflexivity|]. vm_compute. discriminate.
Qed.

Lemma paired_heatmap_correct_witness :
  exists p1 p2 fig,
    material_pivot arith_mean sample_prot (CStr "Erbse")
      ["MM >10 kDa"; "MM <1 kDa"] = Ok p1 /\
    material_pivot arith_mean sample_prot (CStr "Soja")
      ["MM >10 kDa"; "MM <1 kDa"] = Ok p2 /\
    result_of (sample_render "prot" (Some [CStr "Erbse"; CStr "Soja"]) None
                 None None "heatmap" both_fractions) sample_store = Ok fig /\
    fig_traces fig = [heatmap_trace p1 1; heatmap_trace p2 2] /\
    color_range fig = Some (LFloat 20, LFloat 80).
Proof.
  destruct (paired_heatmap_correct arith_mean sample_globals None None None
              both_fractions sample_store (CStr "Erbse") (CStr "Soja"))
    as (p1 & p2 & fig & H1 & H2 & Hres & Htr & _ & _ & _ & _).
  - vm_compute. reflexivity.
  - vm_compute. discriminate.
  - vm_compute. reflexivity.
  - vm_compute. reflexivity.
  - exists p1, p2, fig.
    vm_compute in H1. injection H1 as <-.
    vm_compute in H2. injection H2 as <-.
    vm_compute in Hres. injection Hres as <-.
    repeat split; vm_compute; reflexivity.
Defined.

(** C9 as stated fails: with Erbse and Lupine selected and the enzyme filter
    on Alcalase the pivot table of Lupine is empty, and the range of the
    colour axis is 0 to 100 although the cells are 80 and 20. *)
Lemma paired_heatmap_counterexample :
  exists p1 p2 fig,
    material_pivot arith_mean
      (filtered sample_prot (Some [CStr "Erbse"; CStr "Lupine"])
         (Some [CStr "Alcalase"]))
      (CStr "Erbse") ["MM >10 kDa"; "MM <1 kDa"] = Ok p1 /\
    material_pivot arith_mean
      (filtered sample_prot (Some [CStr "Erbse"; CStr "Lupine"])
         (Some [CStr "Alcalase"]))
      (CStr "Lupine") ["MM >10 kDa"; "MM <1 kDa"] = Ok p2 /\
    result_of (sample_render "prot" (Some [CStr "Erbse"; CStr "Lupine"])
                 (Some [CStr "Alcalase"]) None None "heatmap" both_fractions)
      sample_store = Ok fig /\
    pv_cells p1 ++ pv_cells p2 = [80; 20]%float /\
    color_range fig = Some (LInt 0, LInt 100) /\
    color_range fig <> Some (LFloat 20, LFloat 80).
Proof.
  eexists _, _, _.
  split; [vm_compute; reflexivity|].
  split; [vm_compute; reflexivity|].
  split; [vm_compute; reflexivity|].
  split; [vm_compute; reflexivity|].
  split; [vm_compute; reflexivity|].
  vm_compute. discriminate.
Qed.

Lemma empty_pivot_default_range_witness :
  exists fig,
    result_of (sample_render "prot" (Some [CStr "Erbse"; CStr "Lupine"])
                 (Some [CStr "Alcalase"]) None None "heatmap" both_fractions)
      sample_store = Ok fig /\
    color_range fig = Some (LInt 0, LInt 100).
Proof.
  destruct (empty_pivot_default_range arith_mean sample_globals
              (Some [CStr "Alcalase"]) None None both_fractions sample_store
              (CStr "Erbse") (CStr "Lupine")
              {| pv_index := ["MM <1 kDa"; "MM >10 kDa"];
                 pv_columns := [CStr "Alcalase"];
                 pv_values := [[80]; [20]]%float |}
              {| pv_index := []; pv_columns := []; pv_values := [] |})
    as (fig & Hres & _ & Hrange).
  - vm_compute. reflexivity.
  - vm_compute. discriminate.
  - vm_compute. reflexivity.
  - vm_compute. reflexivity.
  - vm_compute. reflexivity.
  - exists fig. split; assumption.
Defined.

(** * Further properties of the callbacks *)

(** ** Filters *)

Lemma select_selected (P : cell -> bool) (s : series) :
  forallb P (select (map P s) s) = true.
Proof.
  induction s as [|c s IH]; simpl; [reflexivity|].
  destruct (P c) eqn:E; simpl; rewrite ?E; exact IH.
Qed.

Lemma isin_as_map s sel : isin s sel = map (selected sel) s.
Proof. reflexivity. Qed.

Lemma values_of_filter_by col sel df :
  values_of (filter_by col sel df) col =
  if truthy sel
  then select (map (selected (or_empty sel)) (values_of df col))
         (values_of df col)
  else values_of df col.
Proof.
  unfold filter_by, values_of at 2 3 4.
  destruct (get_column col df) as [s|] eqn:E.
  - destruct (truthy sel); [|unfold values_of; rewrite E; reflexivity].
    rewrite values_of_select_rows. unfold values_of. rewrite E. reflexivity.
  - unfold values_of. rewrite E. destruct (truthy sel); reflexivity.
Qed.

Lemma filter_by_selected col sel df :
  truthy sel = true ->
  forallb (selected (or_empty sel)) (values_of (filter_by col sel df) col)
    = true.
Proof.
  intros Ht. rewrite values_of_filter_by, Ht. apply select_selected.
Qed.

(** A filter step keeps or selects the values of every column. *)
Lemma values_of_filter_by_other col sel df name :
  exists mask,
    values_of (filter_by col sel df) name = select mask (values_of df name) \/
    values_of (filter_by col sel df) name = values_of df name.
Proof.
  unfold filter_by. destruct (get_column col df) as [s|];
    [|exists []; right; reflexivity].
  destruct (truthy sel); [|exists []; right; reflexivity].
  exists (isin s (or_empty sel)). left. apply values_of_select_rows.
Qed.

Lemma filtered_enzymes_selected df mats enz :
  truthy enz = true ->
  forallb (selected (or_empty enz)) (values_of (filtered df mats enz) "Enzym")
    = true.
Proof. intros H. apply filter_by_selected, H. Qed.

Lemma filtered_materials_selected df mats enz :
  truthy mats = true ->
  forallb (selected (or_empty mats))
    (values_of (filtered df mats enz) "Material") = true.
Proof.
  intros H. unfold filtered.
  destruct (values_of_filter_by_other "Enzym" enz
              (filter_by "Material" mats df) "Material") as (mask & [E|E]);
    rewrite E.
  - apply forallb_select, filter_by_selected, H.
  - apply filter_by_selected, H.
Qed.

Lemma values_of_set_column_other n v df name :
  String.eqb n name = false ->
  values_of (set_column n v df) name = values_of df name.
Proof.
  intros H. unfold values_of. rewrite get_column_set_column, H. reflexivity.
Qed.

Lemma with_delta_ph_ok df df' :
  with_delta_ph df = Ok df' ->
  exists d, df' = set_column "abs(ΔpH)" (map (fun v => CNum (abs v)) d) df.
Proof.
  unfold with_delta_ph, rbind.
  destruct (column df "pH (nach)"); [|discriminate].
  destruct (column df "pH (vor)"); [|discriminate].
  destruct (series_sub _ _) as [d|]; [|discriminate].
  intros [= <-]. exists d. reflexivity.
Qed.

Lemma get_column_in name df c : get_column name df = Some c -> In (name, c) df.
Proof.
  induction df as [|[k s] df IH]; simpl; [discriminate|].
  destruct (String.eqb k name) eqn:E.
  - apply String.eqb_eq in E. subst k. intros [= ->]. left. reflexivity.
  - intros H. right. apply IH, H.
Qed.

Lemma select_all_true (P : cell -> bool) (s : series) : forall c : series,
  forallb P s = true -> List.length c <= List.length s ->
  select (map P s) c = c.
Proof.
  induction s as [|x s IH]; intros [|y c] H L; simpl in *; try reflexivity;
    try lia.
  apply andb_true_iff in H as [Hx Hs]. rewrite Hx. f_equal.
  apply IH; [exact Hs|lia].
Qed.

(** A filter whose selection holds every value of the column keeps every
    row. *)
Lemma filter_by_all col sel df n :
  has_rows n df ->
  forallb (selected (or_empty sel)) (values_of df col) = true ->
  filter_by col sel df = df.
Proof.
  intros Hrows Hall. unfold filter_by, values_of in *.
  destruct (get_column col df) as [s|] eqn:E; [|reflexivity].
  destruct (truthy sel); [|reflexivity].
  pose proof (Hrows _ _ (get_column_in _ _ _ E)) as Hs.
  unfold select_rows. rewrite <- (map_id df) at 2.
  apply map_ext_in. intros [k c] Hin. f_equal.
  apply select_all_true; [exact Hall|].
  rewrite (Hrows _ _ Hin), Hs. lia.
Qed.

Lemma delta_entry tbl opt es cn :
  tbl = carb_traces_to_add \/ tbl = prot_traces_to_add ->
  dict_get opt tbl = Some es -> In cn es ->
  snd cn = "abs(ΔpH)" -> fst cn = "abs(ΔpH)".
Proof.
  intros Htbl Hget Hin Hsnd.
  destruct Htbl; subst tbl; simpl in Hget;
    repeat match type of Hget with
      | (if ?b then _ else _) = _ => destruct b
      end;
    try discriminate; injection Hget as <-; simpl in Hin;
    repeat (destruct Hin as [<-|Hin]); try contradiction;
    simpl in *; try discriminate; reflexivity.
Qed.

Lemma distribution_case_table ds pv co po tbl opts :
  distribution_case ds pv co po = Some (tbl, opts) ->
  tbl = carb_traces_to_add \/ tbl = prot_traces_to_add.
Proof.
  unfold distribution_case. destruct (String.eqb ds "carb").
  - intros [= <- _]. left. reflexivity.
  - destruct (_ && _); [|discriminate]. intros [= <- _]. right. reflexivity.
Qed.

Lemma abs_missing_or_nonnegative v : missing_or_nonnegative (CNum (abs v)) = true.
Proof.
  simpl. destruct (is_nan v) eqn:E.
  - apply is_nan_true in E. subst v. reflexivity.
  - rewrite (abs_nonneg v E). apply orb_true_r.
Qed.

(** ** Row counts *)

Lemma select_length {A B : Type} (mask : list bool) :
  forall (c1 : list A) (c2 : list B),
  List.length c1 = List.length c2 ->
  List.length (select mask c1) = List.length (select mask c2).
Proof.
  induction mask as [|b mask IH]; intros [|x c1] [|y c2] H; simpl in *;
    try reflexivity; try discriminate.
  destruct b; simpl; [f_equal|]; apply IH; lia.
Qed.

Lemma has_rows_select_rows mask df n :
  has_rows n df -> exists k, has_rows k (select_rows mask df).
Proof.
  intros H. exists (List.length (select mask (repeat tt n))).
  intros name c Hin. unfold select_rows in Hin.
  apply in_map_iff in Hin as ([k s] & [= <- <-] & Hin).
  apply select_length. rewrite repeat_length. apply (H _ _ Hin).
Qed.

Lemma has_rows_filter_by col sel df n :
  has_rows n df -> exists k, has_rows k (filter_by col sel df).
Proof.
  intros H. unfold filter_by. destruct (get_column col df);
    [|exists n; exact H].
  destruct (truthy sel); [|exists n; exact H].
  eapply has_rows_select_rows, H.
Qed.

Lemma has_rows_filtered df mats enz n :
  has_rows n df -> exists k, has_rows k (filtered df mats enz).
Proof.
  intros H. unfold filtered.
  destruct (has_rows_filter_by "Material" mats df n H) as [k Hk].
  apply (has_rows_filter_by "Enzym" enz _ k Hk).
Qed.

Lemma series_sub_length a : forall b d,
  series_sub a b = Ok d ->
  List.length a = List.length b -> List.length d = List.length a.
Proof.
  induction a as [|[s|x] a IH]; intros [|[t|y] b] d; simpl;
    try discriminate; try (intros [= <-]; reflexivity).
  destruct (series_sub a b) as [r|] eqn:E; [|discriminate].
  intros [= <-] L. simpl. f_equal. apply (IH b r E). lia.
Qed.

Lemma has_rows_set_column name v df n :
  has_rows n df -> List.length v = n -> has_rows n (set_column name v df).
Proof.
  intros H Hv k c Hin. induction df as [|[k' c'] df IH]; simpl in Hin.
  - destruct Hin as [[= <- <-]|[]]. exact Hv.
  - destruct (String.eqb k' name).
    + destruct Hin as [[= <- <-]|Hin]; [exact Hv|].
      apply (H k c). right. exact Hin.
    + destruct Hin as [[= <- <-]|Hin].
      * apply (H k' c'). left. reflexivity.
      * apply IH; [|exact Hin]. intros a b Hab. apply (H a b). right.
        exact Hab.
Qed.

Lemma column_in df name c : column df name = Ok c -> In (name, c) df.
Proof.
  unfold column. destruct (get_column name df) eqn:E; [|discriminate].
  intros [= <-]. apply get_column_in, E.
Qed.

Lemma has_rows_with_delta_ph df df' n :
  has_rows n df -> with_delta_ph df = Ok df' -> has_rows n df'.
Proof.
  intros H. unfold with_delta_ph, rbind.
  destruct (column df "pH (nach)") as [nach|] eqn:E1; [|discriminate].
  destruct (column df "pH (vor)") as [vor|] eqn:E2; [|discriminate].
  destruct (series_sub nach vor) as [d|] eqn:E3; [|discriminate].
  intros [= <-]. apply column_in in E1, E2.
  apply has_rows_set_column; [exact H|].
  rewrite length_map, (series_sub_length _ _ _ E3);
    rewrite (H _ _ E1); [reflexivity|]. rewrite (H _ _ E2). reflexivity.
Qed.

(** ** The data of the series *)

Lemma scatter_from_columns df fig cn fig' :
  scatter_of df fig cn = Ok fig' ->
  Forall (from_columns df) (fig_traces fig) ->
  Forall (from_columns df) (fig_traces fig').
Proof.
  unfold scatter_of, rbind.
  destruct (column df "Enzym") as [x|] eqn:Hx; [|discriminate].
  destruct (column df (fst cn)) as [y|] eqn:Hy; [|discriminate].
  intros [= <-] H. simpl. apply Forall_app. split; [exact H|].
  constructor; [|constructor]. apply column_in in Hx, Hy.
  split; eexists; simpl; eassumption.
Qed.

Lemma entries_from_columns df es : forall fig fig',
  rfor_each (scatter_of df) es fig = Ok fig' ->
  Forall (from_columns df) (fig_traces fig) ->
  Forall (from_columns df) (fig_traces fig').
Proof.
  induction es as [|cn es IH]; simpl; intros fig fig' H HF.
  - injection H as <-. exact HF.
  - unfold rbind in H.
    destruct (scatter_of df fig cn) as [f1|] eqn:E; [|discriminate].
    eapply IH; [exact H|]. eapply scatter_from_columns; eassumption.
Qed.

Lemma options_from_columns tbl df opts : forall fig fig',
  rfor_each (option_of tbl df) opts fig = Ok fig' ->
  Forall (from_columns df) (fig_traces fig) ->
  Forall (from_columns df) (fig_traces fig').
Proof.
  induction opts as [|o opts IH]; simpl; intros fig fig' H HF.
  - injection H as <-. exact HF.
  - unfold rbind in H.
    destruct (option_of tbl df fig o) as [f1|] eqn:E; [|discriminate].
    eapply IH; [exact H|]. unfold option_of in E.
    destruct (dict_get o tbl); [|discriminate].
    eapply entries_from_columns; eassumption.
Qed.

Lemma distribution_from_columns tbl title df opts fig :
  distribution_of tbl title df opts = Ok fig ->
  exists df',
    with_delta_ph df = Ok df' /\ Forall (from_columns df') (fig_traces fig).
Proof.
  unfold distribution_of, rbind.
  destruct (with_delta_ph df) as [df'|]; [|discriminate].
  destruct (column df' "Enzym") as [x|] eqn:Hx; [|discriminate].
  destruct (column df' "TS Anteil ÜS [%]") as [y1|] eqn:H1; [|discriminate].
  destruct (column df' "TS Anteil Sedi [%]") as [y2|] eqn:H2; [|discriminate].
  destruct (rfor_each _ _ _) as [f|] eqn:Hf; [|discriminate].
  intros [= <-]. exists df'. split; [reflexivity|].
  simpl. eapply options_from_columns; [exact Hf|].
  apply column_in in Hx, H1, H2. simpl.
  repeat constructor; eexists; simpl; eassumption.
Qed.

Section MapperExtras.

Variable pd_mean : list float -> float.

(** X1: in the heatmap view of Proteasen, with more than two materials
    selected and a selection that is not empty, the result is the "too many
    materials" figure, without series, whatever the MM fractions are. *)
Theorem too_many_materials_placeholder g mats enz co po mm h :
  df_is_empty (filtered (deref h (prot g)) mats enz) = false ->
  2 < List.length (or_empty mats) ->
  exists fig,
    result_of (update_plot pd_mean g "prot" mats enz co po "heatmap" mm) h
      = Ok fig /\
    fig_title fig = Some (LStr too_many_title) /\
    fig_traces fig = [] /\
    get_key "template" (fig_layout fig) = Some (LStr "plotly_white").
Proof.
  intros He Hn. rewrite update_plot_result.
  change (df_map_get g "prot") with (prot g).
  rewrite render_heatmap by exact He. unfold heatmap_of.
  assert (Ht : truthy mats = true).
  { destruct mats as [[|m l]|]; simpl in *; first [reflexivity|lia]. }
  rewrite Ht. apply Nat.ltb_lt in Hn. rewrite Hn.
  eexists. split; [reflexivity|]. repeat split.
Qed.

(** X2: a control whose panel is hidden has no effect on the figure: the
    value of the Carbohydratasen checklist matters only when the dataset is
    carb, the Proteasen view only when the dataset is prot, the Proteasen
    checklist only in its distribution view and the MM fractions only in its
    heatmap view. *)
Theorem hidden_controls_have_no_effect
  g ds mats enz co po pv mm co' po' pv' mm' h :
  let carb_panel := fst (toggle_option_visibility ds) in
  let prot_panel := snd (toggle_option_visibility ds) in
  let ts_panel := fst (toggle_prot_sub_options ds pv) in
  let mm_panel := snd (toggle_prot_sub_options ds pv) in
  result_of (update_plot pd_mean g ds mats enz
               (pick carb_panel co co') (pick ts_panel po po')
               (pick prot_panel pv pv') (pick mm_panel mm mm')) h =
  result_of (update_plot pd_mean g ds mats enz co po pv mm) h.
Proof.
  cbv zeta. rewrite !update_plot_result.
  unfold toggle_option_visibility, toggle_prot_sub_options, render, pick.
  simpl fst. simpl snd.
  destruct (df_is_empty _); [reflexivity|].
  destruct (String.eqb ds "carb") eqn:Ec.
  - reflexivity.
  - destruct (String.eqb ds "prot") eqn:Ep; simpl.
    + destruct (String.eqb pv "distribution") eqn:Ed; simpl; [reflexivity|].
      destruct (String.eqb pv "heatmap"); reflexivity.
    + reflexivity.
Qed.

(** X3: a distribution chart shows selected enzymes only: when an enzyme
    selection is given, every x value of every series of the returned figure
    is one of the selected enzymes. *)
Theorem distribution_shows_selected_enzymes
  g ds mats enz co po pv mm h tbl opts fig :
  distribution_case ds pv co po = Some (tbl, opts) ->
  truthy enz = true ->
  result_of (update_plot pd_mean g ds mats enz co po pv mm) h = Ok fig ->
  forall t, In t (fig_traces fig) ->
    forallb (selected (or_empty enz)) (trace_x t) = true.
Proof.
  intros Hc Ht. rewrite update_plot_result.
  destruct (df_is_empty (filtered (deref h (df_map_get g ds)) mats enz))
    eqn:He.
  { unfold render. rewrite He. intros [= <-] t []. }
  destruct (render_distribution pd_mean _ ds mats enz co po pv mm tbl opts
              Hc He) as (title & o & <- & ->).
  intros E. apply distribution_of_ok in E as (df' & Hdf & ->).
  apply with_delta_ph_ok in Hdf as (d & ->).
  set (df := filtered _ mats enz) in *.
  assert (Hx : forallb (selected (or_empty enz))
                 (values_of (set_column "abs(ΔpH)"
                               (map (fun v => CNum (abs v)) d) df) "Enzym")
               = true).
  { rewrite values_of_set_column_other by reflexivity.
    apply filtered_enzymes_selected, Ht. }
  intros t Hin. simpl in Hin. destruct Hin as [<-|[<-|Hin]];
    [exact Hx|exact Hx|].
  apply in_flat_map in Hin as (opt & _ & Hin).
  unfold option_series in Hin.
  destruct (dict_get opt tbl) as [es|]; [|destruct Hin].
  apply in_map_iff in Hin as (cn & <- & _). exact Hx.
Qed.

(** X4: selecting every value that occurs is selecting nothing: when the
    material selection holds every Material value of the table and the
    enzyme selection every Enzym value, a render outside the heatmap view
    (which also counts the selected materials) returns what it returns
    without any selection. *)
Theorem full_selection_is_no_selection g ds mats enz co po pv mm h n :
  let tbl := deref h (df_map_get g ds) in
  has_rows n tbl ->
  forallb (selected (or_empty mats)) (values_of tbl "Material") = true ->
  forallb (selected (or_empty enz)) (values_of tbl "Enzym") = true ->
  String.eqb ds "prot" && String.eqb pv "heatmap" = false ->
  result_of (update_plot pd_mean g ds mats enz co po pv mm) h =
  result_of (update_plot pd_mean g ds None None co po pv mm) h.
Proof.
  intros tbl Hrows Hm He Hview. rewrite !update_plot_result. fold tbl.
  unfold render.
  assert (Hf : filtered tbl mats enz = filtered tbl None None).
  { unfold filtered.
    rewrite (filter_by_all "Material" mats tbl n Hrows Hm).
    rewrite (filter_by_all "Enzym" enz tbl n Hrows He).
    unfold filter_by. simpl.
    destruct (get_column "Material" tbl); destruct (get_column "Enzym" tbl);
      reflexivity. }
  rewrite Hf.
  destruct (String.eqb ds "prot"), (String.eqb pv "heatmap");
    try discriminate; reflexivity.
Qed.

(** X5: the series abs(ΔpH) of a distribution chart holds no negative
    number: each of its values is missing or at least zero. *)
Theorem delta_ph_series_nonnegative
  g ds mats enz co po pv mm h tbl opts fig :
  distribution_case ds pv co po = Some (tbl, opts) ->
  result_of (update_plot pd_mean g ds mats enz co po pv mm) h = Ok fig ->
  forall t, In t (fig_traces fig) -> trace_name t = "abs(ΔpH)" ->
    forallb missing_or_nonnegative (trace_y t) = true.
Proof.
  intros Hc. rewrite update_plot_result.
  destruct (df_is_empty (filtered (deref h (df_map_get g ds)) mats enz))
    eqn:He.
  { unfold render. rewrite He. intros [= <-] t []. }
  destruct (render_distribution pd_mean _ ds mats enz co po pv mm tbl opts
              Hc He) as (title & o & <- & ->).
  intros E. apply distribution_of_ok in E as (df' & Hdf & ->).
  apply with_delta_ph_ok in Hdf as (d & ->).
  intros t Hin Hname. simpl in Hin.
  destruct Hin as [<-|[<-|Hin]]; [discriminate Hname|discriminate Hname|].
  apply in_flat_map in Hin as (opt & _ & Hin).
  unfold option_series in Hin.
  destruct (dict_get opt tbl) as [es|] eqn:Hes; [|destruct Hin].
  apply in_map_iff in Hin as (cn & <- & Hcn).
  simpl in Hname.
  pose proof (delta_entry tbl opt es cn
                (distribution_case_table _ _ _ _ _ _ Hc) Hes Hcn Hname) as Hf.
  simpl. rewrite Hf. unfold values_of.
  rewrite get_column_set_column, String.eqb_refl.
  rewrite forallb_forall. intros c Hc'.
  apply in_map_iff in Hc' as (v & <- & _). apply abs_missing_or_nonnegative.
Qed.

(** X6: on a table whose columns all have the same number of rows, every
    series of a distribution chart has as many x values as y values: the
    number of rows of the filtered table. *)
Theorem distribution_series_have_one_length
  g ds mats enz co po pv mm h tbl opts fig n :
  has_rows n (deref h (df_map_get g ds)) ->
  distribution_case ds pv co po = Some (tbl, opts) ->
  result_of (update_plot pd_mean g ds mats enz co po pv mm) h = Ok fig ->
  exists k,
    has_rows k (filtered (deref h (df_map_get g ds)) mats enz) /\
    forall t, In t (fig_traces fig) ->
      List.length (trace_x t) = k /\ List.length (trace_y t) = k.
Proof.
  intros Hrows Hc. rewrite update_plot_result. intros H.
  destruct (has_rows_filtered _ mats enz n Hrows) as [k Hk].
  exists k. split; [exact Hk|].
  destruct (df_is_empty (filtered (deref h (df_map_get g ds)) mats enz))
    eqn:He.
  { unfold render in H. rewrite He in H. injection H as <-. intros t []. }
  destruct (render_distribution pd_mean _ ds mats enz co po pv mm tbl opts
              Hc He) as (title & o & <- & E).
  rewrite E in H.
  apply distribution_from_columns in H as (df' & Hdf & HF).
  pose proof (has_rows_with_delta_ph _ _ _ Hk Hdf) as Hk'.
  intros t Hin. rewrite Forall_forall in HF.
  destruct (HF t Hin) as ((nx & Hx) & (ny & Hy)).
  split; [apply (Hk' _ _ Hx)|apply (Hk' _ _ Hy)].
Qed.

Lemma distribution_of_layout tbl title df opts fig :
  distribution_of tbl title df opts = Ok fig ->
  fig_title fig = Some (LStr title) /\
  fig_template fig = Some (LStr "plotly_white").
Proof.
  intros E. apply distribution_of_ok in E as (df' & _ & ->).
  split; reflexivity.
Qed.

Lemma films_of_layout df fig :
  films_of df = Ok fig ->
  fig_title fig = Some (LStr "Filme — Gesamtbewertung") /\
  fig_template fig = Some (LStr "plotly_white").
Proof.
  unfold films_of, rbind.
  destruct (px_column_of df "Versuchsnr."); [|discriminate].
  destruct (px_column_of df "Summe"); [|discriminate].
  destruct (px_column_of df "Material"); [|discriminate].
  destruct (rfor_each _ _ _); [|discriminate].
  intros [= <-]. split; reflexivity.
Qed.

Lemma heatmap_of_layout df mats mm fig :
  heatmap_of pd_mean placeholder_fig df mats mm = Ok fig ->
  (exists t, fig_title fig = Some (LText t)) /\
  (fig_template fig = Some (LStr "plotly_white") \/
   List.length (or_empty mats) = 2 /\ mm_present_of df mm = [] /\
   fig_traces fig = []).
Proof.
  unfold heatmap_of.
  destruct (2 <? _)%nat.
  { intros [= <-]. split; [eexists; reflexivity|left; reflexivity]. }
  destruct (_ =? 2)%nat eqn:E2.
  - destruct (mm_present_of df mm) as [|m0 mp].
    + intros [= <-]. split; [eexists; reflexivity|right].
      apply Nat.eqb_eq in E2. destruct (truthy mats); [|discriminate].
      repeat split. exact E2.
    + unfold rbind.
      destruct (material_rows df _) as [d1|]; [|discriminate].
      destruct (pivot_of pd_mean d1 _) as [p1|]; [|discriminate].
      destruct (material_rows df _) as [d2|]; [|discriminate].
      destruct (pivot_of pd_mean d2 _) as [p2|]; [|discriminate].
      intros [= <-]. split; [eexists; reflexivity|left; reflexivity].
  - destruct (mm_present_of df mm) as [|m0 mp].
    + intros [= <-]. split; [eexists; reflexivity|left; reflexivity].
    + unfold rbind.
      destruct (pivot_of pd_mean df _) as [p|]; [|discriminate].
      intros [= <-]. split; [eexists; reflexivity|left; reflexivity].
Qed.

(** X7: every figure [update_plot] returns has a title, and it has the
    template plotly_white except for one figure: the "select MM fractions"
    figure of the heatmap view with two materials, which is built by
    [make_subplots] and is given a title only. *)
Theorem every_figure_has_a_title g ds mats enz co po pv mm h fig :
  result_of (update_plot pd_mean g ds mats enz co po pv mm) h = Ok fig ->
  (exists t, fig_title fig = Some (LText t)) /\
  (fig_template fig = Some (LStr "plotly_white") \/
   ds = "prot" /\ pv = "heatmap" /\ List.length (or_empty mats) = 2 /\
   mm_present_of (filtered (deref h (prot g)) mats enz) mm = [] /\
   fig_traces fig = []).
Proof.
  rewrite update_plot_result. unfold render.
  destruct (df_is_empty _).
  { intros [= <-]. split; [eexists; reflexivity|left; reflexivity]. }
  destruct (String.eqb ds "carb").
  { intros E. apply distribution_of_layout in E as [Ht Hp].
    split; [eexists; exact Ht|left; exact Hp]. }
  destruct (String.eqb ds "prot") eqn:Ep.
  { apply String.eqb_eq in Ep. subst ds.
    change (df_map_get g "prot") with (prot g).
    destruct (String.eqb pv "distribution").
    { intros E. apply distribution_of_layout in E as [Ht Hp].
      split; [eexists; exact Ht|left; exact Hp]. }
    destruct (String.eqb pv "heatmap") eqn:Eh.
    - apply String.eqb_eq in Eh. subst pv.
      intros E. apply heatmap_of_layout in E as [Ht [Hp|(H2 & Hm & Hn)]].
      + split; [exact Ht|left; exact Hp].
      + split; [exact Ht|right]. repeat split; assumption.
    - intros [= <-]. split; [eexists; reflexivity|left; reflexivity]. }
  destruct (String.eqb ds "filme").
  - intros E. apply films_of_layout in E as [Ht Hp].
    split; [eexists; exact Ht|left; exact Hp].
  - intros [= <-]. split; [eexists; reflexivity|left; reflexivity].
Qed.



(** X9: the single heatmap (no material or one material selected): on a
    selection that is not empty, with an Enzym column and numbers in the
    distinct selected MM-fraction columns, the figure is one image of the
    pivot table; each cell is the mean of the values in that fraction column
    of the filtered rows of that enzyme, and the title names the one
    selected material or says that it is the mean over all. *)
Theorem single_heatmap_correct g mats enz co po mm h :
  let df := filtered (deref h (prot g)) mats enz in
  let mmp := mm_present_of df mm in
  df_is_empty df = false ->
  List.length (or_empty mats) <= 1 ->
  mmp <> [] ->
  distinct mmp = true ->
  has_column "Enzym" df = true ->
  forallb (numeric_column df) mmp = true ->
  exists p fig,
    result_of (update_plot pd_mean g "prot" mats enz co po "heatmap" mm) h
      = Ok fig /\
    fig_traces fig = [PxImshow p ".1f" "auto" "Greens"] /\
    fig_title fig =
      Some (LText match or_empty mats with
                  | [m] => Fmt "Proteasen — Heatmap MM-фракций (" m ")"
                  | _ => Txt "Proteasen — Heatmap MM-фракций (среднее по всем)"
                  end) /\
    forall i j f e,
      nth_error (pv_index p) i = Some f ->
      nth_error (pv_columns p) j = Some e ->
      pv_cell p i j =
        group_mean pd_mean
          (column_cells (values_of df "Enzym") (values_of df f) e).
Proof.
  intros df mmp He Hn Hne Hd Henz Hnum. apply distinct_NoDup in Hd.
  rewrite update_plot_result.
  change (df_map_get g "prot") with (prot g).
  rewrite render_heatmap by exact He. fold df. unfold heatmap_of.
  set (num := if truthy mats then List.length (or_empty mats) else 0).
  assert (Hnum1 : num <= 1) by (unfold num; destruct (truthy mats); lia).
  destruct (2 <? num)%nat eqn:E2; [apply Nat.ltb_lt in E2; lia|].
  destruct (num =? 2)%nat eqn:E3; [apply Nat.eqb_eq in E3; lia|].
  fold mmp. destruct mmp as [|m0 mp] eqn:Emm; [congruence|].
  rewrite (pivot_of_ready pd_mean df (m0 :: mp) Henz Hnum). unfold rbind.
  eexists _, _. split; [reflexivity|]. split; [reflexivity|]. split.
  - unfold fig_title, single_fig. simpl. do 2 f_equal.
    unfold num. destruct mats as [[|m [|m' l]]|]; simpl in *;
      try reflexivity; lia.
  - intros i j f e Hi Hj.
    rewrite (build_pivot_cell pd_mean _ i j f e Hi Hj). unfold cell_value.
    f_equal. apply molten_group; [exact Hnum|exact Hd|].
    apply nth_error_In in Hi.
    apply build_pivot_index in Hi as (e' & v & Hr).
    eapply molten_fraction. exact Hr.
Qed.

End MapperExtras.

(** ** [update_dropdowns] *)

Lemma update_dropdowns_run g ds h :
  update_dropdowns g ds h =
  (mats <~ offered (deref h (df_map_get g ds)) "Material" ;;
   enz <~ (if has_column "Enzym" (deref h (df_map_get g ds))
           then offered (deref h (df_map_get g ds)) "Enzym"
           else Ok []) ;;
   Ok (options_of mats, options_of enz), h).
Proof.
  unfold update_dropdowns, offered.
  rewrite (bind_run _ _ _ _ _ (getitem_run _ "Material" h)). unfold rbind.
  destruct (column _ "Material") as [c|]; [|reflexivity].
  unfold bind at 1, lift.
  destruct (py_sorted (unique (dropna c))) as [mats|]; [|reflexivity].
  unfold bind at 1, df_has_column.
  destruct (has_column "Enzym" _).
  - unfold bind at 1.
    rewrite (bind_run _ _ _ _ _ (getitem_run _ "Enzym" h)).
    destruct (column _ "Enzym") as [c'|]; [|reflexivity].
    unfold lift. destruct (py_sorted _); reflexivity.
  - reflexivity.
Qed.

Lemma insert_sorted_in x y l : In y (insert_sorted x l) <-> y = x \/ In y l.
Proof.
  induction l as [|z l IH]; simpl; [intuition|].
  destruct (cell_lt z x); simpl; [rewrite IH|]; intuition.
Qed.

Lemma sorted_in y l : In y (fold_right insert_sorted [] l) <-> In y l.
Proof.
  induction l as [|x l IH]; simpl; [tauto|].
  rewrite insert_sorted_in, IH. intuition.
Qed.

Lemma insert_sorted_NoDup x l :
  ~ In x l -> NoDup l -> NoDup (insert_sorted x l).
Proof.
  induction l as [|z l IH]; simpl; intros Hx Hl.
  - constructor; [tauto|constructor].
  - destruct (cell_lt z x).
    + inversion Hl as [|? ? Hz Hl']; subst. constructor.
      * rewrite insert_sorted_in. intros [->|H]; [|contradiction].
        apply Hx. left. reflexivity.
      * apply IH; [|exact Hl']. intros H. apply Hx. right. exact H.
    + constructor; [exact Hx|exact Hl].
Qed.

Lemma sorted_NoDup l : NoDup l -> NoDup (fold_right insert_sorted [] l).
Proof.
  induction l as [|x l IH]; simpl; intros H; [constructor|].
  inversion H as [|? ? Hx Hl]; subst.
  apply insert_sorted_NoDup; [|apply IH, Hl].
  rewrite sorted_in. exact Hx.
Qed.

Lemma py_sorted_ok l l' :
  py_sorted l = Ok l' ->
  (forall y, In y l' <-> In y l) /\ (NoDup l -> NoDup l').
Proof.
  unfold py_sorted. destruct (_ || _); [|discriminate].
  intros [= <-]. split; [intros y; apply sorted_in|apply sorted_NoDup].
Qed.

Lemma py_eq_refl c : is_missing c = false -> py_eq c c = true.
Proof.
  destruct c as [s|x]; simpl; intros H; [apply String.eqb_refl|].
  rewrite eqb_spec. apply SFeqb_refl, not_nan_spec, H.
Qed.

Lemma SFeqb_sym x y : SFeqb x y = SFeqb y x.
Proof.
  unfold SFeqb.
  destruct x as [s1|s1| |s1 m1 e1], y as [s2|s2| |s2 m2 e2]; simpl;
    try reflexivity; try (destruct s1, s2; reflexivity);
    try (destruct s1; reflexivity); try (destruct s2; reflexivity).
  destruct s1, s2; simpl; try reflexivity;
    compare_cases; try reflexivity; subst; lia.
Qed.

Lemma py_eq_sym a b : py_eq a b = py_eq b a.
Proof.
  destruct a as [s|x], b as [t|y]; simpl; try reflexivity.
  - apply String.eqb_sym.
  - rewrite !eqb_spec. apply SFeqb_sym.
Qed.

Lemma unique_from_in seen s y : In y (unique_from seen s) -> In y s.
Proof.
  revert seen. induction s as [|c s IH]; simpl; intros seen H; [exact H|].
  destruct (existsb (py_eq c) seen).
  - right. eapply IH, H.
  - destruct H as [->|H]; [left; reflexivity|right; eapply IH, H].
Qed.

Lemma unique_from_not_seen s : forall seen y,
  In y (unique_from seen s) -> existsb (py_eq y) seen = false.
Proof.
  induction s as [|c s IH]; simpl; intros seen y H; [destruct H|].
  destruct (existsb (py_eq c) seen) eqn:E.
  - apply IH, H.
  - destruct H as [<-|H]; [exact E|].
    apply IH in H. simpl in H. apply orb_false_iff in H as [_ H]. exact H.
Qed.

Lemma unique_from_NoDup s : forall seen,
  (forall c, In c s -> py_eq c c = true) -> NoDup (unique_from seen s).
Proof.
  induction s as [|c s IH]; simpl; intros seen Hr; [constructor|].
  destruct (existsb (py_eq c) seen).
  - apply IH. intros x Hx. apply Hr. right. exact Hx.
  - constructor; [|apply IH; intros x Hx; apply Hr; right; exact Hx].
    intros Hin. apply unique_from_not_seen in Hin. simpl in Hin.
    rewrite (Hr c (or_introl eq_refl)) in Hin. discriminate.
Qed.

(** Every value is represented: it is kept or equals one that was seen or
    kept. *)
Lemma unique_from_covers s : forall seen c,
  In c s -> py_eq c c = true ->
  existsb (py_eq c) seen = true \/
  exists y, In y (unique_from seen s) /\ py_eq c y = true.
Proof.
  induction s as [|x s IH]; simpl; intros seen c Hin Hr; [destruct Hin|].
  destruct Hin as [->|Hin].
  - destruct (existsb (py_eq c) seen) eqn:E; [left; reflexivity|].
    right. exists c. split; [left; reflexivity|exact Hr].
  - destruct (existsb (py_eq x) seen) eqn:E.
    + apply IH; assumption.
    + destruct (IH (x :: seen) c Hin Hr) as [H|(y & Hy & Hcy)].
      * simpl in H. apply orb_true_iff in H as [H|H].
        -- right. exists x. split; [left; reflexivity|exact H].
        -- left. exact H.
      * right. exists y. split; [right; exact Hy|exact Hcy].
Qed.

Lemma dropna_in c s : In c (dropna s) <-> In c s /\ is_missing c = false.
Proof.
  unfold dropna. rewrite filter_In, negb_true_iff. reflexivity.
Qed.

(** What is offered for a column: values of the column that are not missing,
    none twice, and one for every value of the column. *)
Lemma offered_ok df col vs :
  offered df col = Ok vs ->
  (forall v, In v vs -> is_missing v = false /\ In v (values_of df col)) /\
  NoDup vs /\
  (forall c, In c (values_of df col) -> is_missing c = false ->
     exists v, In v vs /\ py_eq c v = true).
Proof.
  unfold offered, rbind.
  destruct (column df col) as [s|] eqn:Ec; [|discriminate].
  apply column_ok in Ec. rewrite Ec. intros Hs.
  apply py_sorted_ok in Hs as [Hin Hnd].
  assert (Hrefl : forall c, In c (dropna s) -> py_eq c c = true).
  { intros c Hc. apply dropna_in in Hc as [_ Hc]. apply py_eq_refl, Hc. }
  split; [|split].
  - intros v Hv. apply Hin in Hv. apply unique_from_in in Hv.
    apply dropna_in in Hv as [Hv Hm]. split; assumption.
  - apply Hnd. apply unique_from_NoDup. exact Hrefl.
  - intros c Hc Hm.
    destruct (unique_from_covers (dropna s) [] c) as [H|(y & Hy & Hcy)].
    + apply dropna_in. split; assumption.
    + apply py_eq_refl, Hm.
    + discriminate H.
    + exists y. split; [apply Hin; exact Hy|exact Hcy].
Qed.

(** X10: the options [update_dropdowns] offers for Material (and for Enzym,
    when the table has that column; none otherwise): each option has its
    value as label, is a value of the column that is not missing, no option
    occurs twice, and every value of the column that is not missing equals an
    offered one.  The store is left as it is. *)
Theorem update_dropdowns_options g ds h mats enz :
  result_of (update_dropdowns g ds) h = Ok (mats, enz) ->
  let tbl := deref h (df_map_get g ds) in
  (forall o, In o mats ->
     fst o = snd o /\ is_missing (snd o) = false /\
     In (snd o) (values_of tbl "Material")) /\
  NoDup mats /\
  (forall c, In c (values_of tbl "Material") -> is_missing c = false ->
     exists o, In o mats /\ py_eq c (snd o) = true) /\
  (forall o, In o enz ->
     fst o = snd o /\ is_missing (snd o) = false /\
     In (snd o) (values_of tbl "Enzym")) /\
  NoDup enz /\
  (has_column "Enzym" tbl = false -> enz = []) /\
  store_after (update_dropdowns g ds) h = h.
Proof.
  intros H. cbv zeta. revert H.
  unfold result_of, store_after. rewrite update_dropdowns_run. simpl fst.
  simpl snd. set (tbl := deref h (df_map_get g ds)). intros H.
  unfold rbind in H.
  destruct (offered tbl "Material") as [ms|] eqn:Em; [|discriminate].
  destruct (offered_ok _ _ _ Em) as (Hm1 & Hm2 & Hm3).
  assert (Hopt : forall vs o, In o (options_of vs) ->
            fst o = snd o /\ In (snd o) vs).
  { intros vs o Ho. apply in_map_iff in Ho as (v & <- & Hv). split;
      [reflexivity|exact Hv]. }
  assert (Hnd : forall vs, NoDup vs -> NoDup (options_of vs)).
  { intros vs Hvs. induction Hvs as [|v vs Hv Hvs IH]; simpl; constructor;
      [|exact IH].
    intros Hin. apply Hopt in Hin as [_ Hin]. apply Hv, Hin. }
  assert (Hof : forall col vs, offered tbl col = Ok vs ->
            forall o, In o (options_of vs) ->
            fst o = snd o /\ is_missing (snd o) = false /\
            In (snd o) (values_of tbl col)).
  { intros col vs Hvs o Ho. apply Hopt in Ho as [Ho1 Ho2].
    destruct (offered_ok _ _ _ Hvs) as (H1 & _). apply H1 in Ho2. tauto. }
  assert (Hen : exists es, enz = options_of es /\ NoDup es /\
            (has_column "Enzym" tbl = false -> es = []) /\
            forall o, In o (options_of es) ->
              fst o = snd o /\ is_missing (snd o) = false /\
              In (snd o) (values_of tbl "Enzym")).
  { destruct (has_column "Enzym" tbl).
    - destruct (offered tbl "Enzym") as [es|] eqn:Ee; [|discriminate].
      exists es. injection H as _ <-.
      destruct (offered_ok _ _ _ Ee) as (_ & He2 & _).
      repeat split; try assumption; try discriminate; apply (Hof _ _ Ee), H.
    - exists []. injection H as _ <-.
      repeat split; try constructor; destruct H. }
  destruct Hen as (es & -> & He2 & He3 & He1).
  assert (mats = options_of ms) as ->.
  { destruct (has_column "Enzym" tbl); [destruct (offered tbl "Enzym")|];
      congruence. }
  split; [exact (Hof _ _ Em)|].
  split; [apply Hnd, Hm2|].
  split.
  { intros c Hc Hcm. destruct (Hm3 c Hc Hcm) as (v & Hv & Hcv).
    exists (v, v). split; [|exact Hcv].
    apply (in_map (fun m => (m, m))), Hv. }
  split; [exact He1|].
  split; [apply Hnd, He2|].
  split; [intros Hno; rewrite (He3 Hno); reflexivity|].
  destruct (has_column "Enzym" tbl); [destruct (offered tbl "Enzym")|];
    reflexivity.
Qed.

(** *** The order of the options *)

Lemma SF_total x y :
  sf_not_nan x -> sf_not_nan y -> SFeqb y x = false ->
  SFltb x y = true \/ SFltb y x = true.
Proof.
  unfold sf_not_nan, SFeqb, SFltb.
  destruct x as [s1|s1| |s1 m1 e1], y as [s2|s2| |s2 m2 e2]; simpl;
    intros Hx Hy; try congruence;
    try (destruct s1, s2; simpl; intros; try discriminate; tauto);
    try (destruct s1; simpl; intros; try discriminate; tauto);
    try (destruct s2; simpl; intros; try discriminate; tauto).
  destruct s1, s2; simpl; try tauto;
    compare_cases; simpl; try discriminate; try tauto;
    intros _; exfalso; lia.
Qed.

(** Two values of one kind that are not missing and not equal are ordered. *)
Lemma cell_total a b :
  is_missing a = false -> is_missing b = false ->
  is_number a = is_number b -> py_eq b a = false ->
  cell_lt a b = true \/ cell_lt b a = true.
Proof.
  destruct a as [s|x], b as [t|y]; simpl; try discriminate.
  - intros _ _ _ E. unfold String.ltb.
    rewrite (String.compare_antisym t s).
    destruct (String.compare s t) eqn:C; simpl; try tauto.
    apply String.compare_eq_iff in C. subst t.
    rewrite String.eqb_refl in E. discriminate.
  - intros Hx Hy _ E. rewrite !ltb_spec. rewrite eqb_spec in E.
    apply SF_total; [apply not_nan_spec, Hx|apply not_nan_spec, Hy|exact E].
Qed.

Lemma insert_sorted_ascending x l :
  ascending l = true ->
  (forall y, In y l -> cell_lt x y = true \/ cell_lt y x = true) ->
  ascending (insert_sorted x l) = true.
Proof.
  induction l as [|y r IH]; intros Hl Ht; [reflexivity|].
  simpl insert_sorted. destruct (cell_lt y x) eqn:E.
  - assert (Hr : ascending r = true).
    { destruct r; [reflexivity|]. simpl in Hl.
      apply andb_true_iff in Hl as [_ Hl]. exact Hl. }
    assert (IH' := IH Hr (fun z Hz => Ht z (or_intror Hz))).
    destruct r as [|z r']; [simpl; rewrite E; reflexivity|].
    simpl in Hl. apply andb_true_iff in Hl as [Hyz _].
    simpl insert_sorted in *. destruct (cell_lt z x).
    + change (cell_lt y z && ascending (z :: insert_sorted x r') = true).
      rewrite Hyz. exact IH'.
    + change (cell_lt y x && ascending (x :: z :: r') = true).
      rewrite E. exact IH'.
  - change (cell_lt x y && ascending (y :: r) = true).
    destruct (Ht y (or_introl eq_refl)) as [H|H]; [|congruence].
    rewrite H. exact Hl.
Qed.

Lemma sorted_ascending l :
  ForallOrdPairs (fun a b => cell_lt a b = true \/ cell_lt b a = true) l ->
  ascending (fold_right insert_sorted [] l) = true.
Proof.
  induction 1 as [|x l Hx Hl IH]; [reflexivity|].
  simpl. apply insert_sorted_ascending; [exact IH|].
  intros y Hy. apply (proj1 (sorted_in _ _)) in Hy.
  rewrite Forall_forall in Hx. apply Hx, Hy.
Qed.

Lemma unique_from_distinct s : forall seen,
  ForallOrdPairs (fun a b => py_eq b a = false) (unique_from seen s).
Proof.
  induction s as [|c s IH]; simpl; intros seen; [constructor|].
  destruct (existsb (py_eq c) seen); [apply IH|].
  constructor; [|apply IH].
  apply Forall_forall. intros b Hb. apply unique_from_not_seen in Hb.
  simpl in Hb. apply orb_false_iff in Hb as [Hb _]. exact Hb.
Qed.

Lemma ordered_pairs_weaken {A : Type} (R T : A -> A -> Prop) (l : list A) :
  ForallOrdPairs R l ->
  (forall a b, In a l -> In b l -> R a b -> T a b) ->
  ForallOrdPairs T l.
Proof.
  induction 1 as [|x l Hx Hl IH]; intros HT; constructor.
  - rewrite Forall_forall in *. intros b Hb.
    apply HT; [left; reflexivity|right; exact Hb|apply Hx, Hb].
  - apply IH. intros a b Ha Hb. apply HT; right; assumption.
Qed.

Lemma one_kind l a b :
  forallb is_number l || forallb (fun c => negb (is_number c)) l = true ->
  In a l -> In b l -> is_number a = is_number b.
Proof.
  intros H Ha Hb. apply orb_true_iff in H as [H|H];
    rewrite forallb_forall in H.
  - rewrite (H a Ha), (H b Hb). reflexivity.
  - assert (Ha' := H a Ha). assert (Hb' := H b Hb).
    apply negb_true_iff in Ha', Hb'. congruence.
Qed.

Lemma offered_ascending df col vs :
  offered df col = Ok vs -> ascending vs = true.
Proof.
  unfold offered, rbind. destruct (column df col) as [s|]; [|discriminate].
  unfold py_sorted.
  destruct (_ || _) eqn:Hk; [|discriminate]. intros [= <-].
  apply sorted_ascending.
  apply (ordered_pairs_weaken _ _ _ (unique_from_distinct (dropna s) [])).
  intros a b Ha Hb Hab.
  assert (Ha' := unique_from_in _ _ _ Ha).
  assert (Hb' := unique_from_in _ _ _ Hb).
  apply dropna_in in Ha' as [_ Ha'], Hb' as [_ Hb'].
  apply cell_total; try assumption.
  apply (one_kind _ _ _ Hk); assumption.
Qed.

(** X11: the options of both dropdowns are in ascending order, each value
    less than the next one. *)
Theorem update_dropdowns_ascending g ds h mats enz :
  result_of (update_dropdowns g ds) h = Ok (mats, enz) ->
  ascending (map snd mats) = true /\ ascending (map snd enz) = true.
Proof.
  unfold result_of. rewrite update_dropdowns_run. simpl fst.
  set (tbl := deref h (df_map_get g ds)). unfold rbind.
  assert (Hid : forall vs, map snd (options_of vs) = vs).
  { intros vs. unfold options_of. rewrite map_map. apply map_id. }
  destruct (offered tbl "Material") as [ms|] eqn:Em; [|discriminate].
  apply offered_ascending in Em.
  destruct (has_column "Enzym" tbl).
  - destruct (offered tbl "Enzym") as [es|] eqn:Ee; [|discriminate].
    apply offered_ascending in Ee. intros [= <- <-].
    rewrite !Hid. split; assumption.
  - intros [= <- <-]. rewrite Hid. split; [assumption|reflexivity].
Qed.

(** *** The dropdowns and the filter of [update_plot] *)

Lemma select_has (P : cell -> bool) (s : series) v :
  In v s -> P v = true -> select (map P s) s <> [].
Proof.
  induction s as [|c s IH]; simpl; intros Hin Hv; [destruct Hin|].
  destruct (P c) eqn:E; [discriminate|].
  destruct Hin as [->|Hin]; [congruence|]. apply IH; assumption.
Qed.

Lemma isin_eq_refl v : isin_eq v v = true.
Proof.
  destruct v as [s|x]; simpl; [apply String.eqb_refl|].
  destruct (is_nan x) eqn:E; [apply orb_true_r|].
  rewrite eqb_spec, SFeqb_refl; [reflexivity|apply not_nan_spec, E].
Qed.

(** X12: a material offered by [update_dropdowns], selected alone and with no
    enzyme selected, leaves [update_plot] a table that is not empty. *)
Theorem offered_material_selects_rows g ds h mats enz n o :
  result_of (update_dropdowns g ds) h = Ok (mats, enz) ->
  has_rows n (deref h (df_map_get g ds)) ->
  In o mats ->
  df_is_empty (filtered (deref h (df_map_get g ds)) (Some [snd o]) None)
    = false.
Proof.
  unfold result_of. rewrite update_dropdowns_run. simpl fst.
  set (tbl := deref h (df_map_get g ds)). unfold rbind.
  destruct (offered tbl "Material") as [ms|] eqn:Em; [|discriminate].
  intros H Hrows Ho.
  assert (mats = options_of ms) as ->.
  { destruct (has_column "Enzym" tbl); [destruct (offered tbl "Enzym")|];
      congruence. }
  apply in_map_iff in Ho as (v & <- & Hv). simpl snd.
  destruct (offered_ok _ _ _ Em) as (H1 & _). apply H1 in Hv as [_ Hv].
  unfold filtered.
  assert (Hnone : forall d, filter_by "Enzym" None d = d).
  { intros d. unfold filter_by. destruct (get_column "Enzym" d); reflexivity. }
  rewrite Hnone. unfold filter_by, values_of in *.
  destruct (get_column "Material" tbl) as [s|] eqn:Es; [|destruct Hv].
  simpl truthy. cbv iota. simpl or_empty. rewrite isin_as_map.
  assert (Hs := Hrows _ _ (get_column_in _ _ _ Es)).
  destruct tbl as [|[k c] rest] eqn:Et; [discriminate|].
  assert (Hc := Hrows k c (or_introl eq_refl)).
  simpl.
  destruct (select (map (selected [v]) s) c) eqn:Ec; [|reflexivity].
  exfalso.
  assert (Hl := select_length (map (selected [v]) s) c s
                  (eq_trans Hc (eq_sym Hs))).
  rewrite Ec in Hl. simpl in Hl.
  apply (select_has (selected [v]) s v Hv).
  - unfold selected. simpl. rewrite isin_eq_refl. reflexivity.
  - destruct (select _ s); [reflexivity|discriminate].
Qed.

(** * The loader *)

(** ** Labels *)

Lemma ustr_eqb_eq a b : ustr_eqb a b = true <-> a = b.
Proof.
  unfold ustr_eqb. destruct (list_eq_dec N.eq_dec a b); split; congruence.
Qed.

Lemma ustr_eqb_refl a : ustr_eqb a a = true.
Proof. apply ustr_eqb_eq. reflexivity. Qed.

Lemma ustr_eqb_neq a b : ustr_eqb a b = false <-> a <> b.
Proof.
  unfold ustr_eqb. destruct (list_eq_dec N.eq_dec a b); split; congruence.
Qed.

Lemma mem_In n l : mem n l = true <-> In n l.
Proof.
  unfold mem. rewrite existsb_exists. split.
  - intros (x & Hx & E). apply ustr_eqb_eq in E. subst x. exact Hx.
  - intros H. exists n. split; [exact H|apply ustr_eqb_refl].
Qed.

Lemma mem_not_In n l : mem n l = false <-> ~ In n l.
Proof.
  rewrite <- mem_In. destruct (mem n l); split; congruence.
Qed.

Lemma columns_rename f df : columns (rename f df) = map f (columns df).
Proof.
  unfold columns, rename. rewrite !map_map. apply map_ext.
  intros [n c]. reflexivity.
Qed.

Lemma data_rename f df : map snd (rename f df) = map snd df.
Proof.
  unfold rename. rewrite map_map. apply map_ext. intros [n c]. reflexivity.
Qed.

Lemma rename_id f df :
  (forall n, In n (columns df) -> f n = n) -> rename f df = df.
Proof.
  induction df as [|[n c] df IH]; intros H; [reflexivity|].
  simpl. rewrite (H n (or_introl eq_refl)). f_equal.
  apply IH. intros m Hm. apply H. right. exact Hm.
Qed.

(** ** Trimming and collapsing *)

Lemma lstrip_length s : List.length (lstrip s) <= List.length s.
Proof.
  induction s as [|c s IH]; simpl; [lia|].
  destruct (is_whitespace c); simpl; lia.
Qed.

Lemma lstrip_fixed c r : lstrip (c :: r) = c :: r -> is_whitespace c = false.
Proof.
  simpl. destruct (is_whitespace c); [|reflexivity].
  intros H. assert (Hl := lstrip_length r). rewrite H in Hl. simpl in Hl. lia.
Qed.

Lemma lstrip_idem s : lstrip (lstrip s) = lstrip s.
Proof.
  induction s as [|c s IH]; [reflexivity|].
  simpl. destruct (is_whitespace c) eqn:E; [exact IH|].
  simpl. rewrite E. reflexivity.
Qed.

Lemma rstrip_idem s : rstrip (rstrip s) = rstrip s.
Proof.
  induction s as [|a s IH]; [reflexivity|].
  rewrite rstrip_cons.
  destruct (allws s) eqn:Hs.
  - destruct (is_whitespace a) eqn:Ha; [reflexivity|].
    simpl. rewrite Ha. reflexivity.
  - rewrite rstrip_cons, IH.
    rewrite (allws_of_rstrip_eq (rstrip s) s IH), Hs. reflexivity.
Qed.

Lemma lstrip_strip s : lstrip (strip s) = strip s.
Proof. unfold strip. rewrite lstrip_rstrip, lstrip_idem. reflexivity. Qed.

Lemma rstrip_strip s : rstrip (strip s) = strip s.
Proof. unfold strip. apply rstrip_idem. Qed.

Lemma collapse_idem s : forall b b',
  (b' = true -> b = true) ->
  collapse_from b' (collapse_from b s) = collapse_from b s.
Proof.
  induction s as [|c r IH]; intros b b' Hb; [reflexivity|].
  simpl. destruct (is_whitespace c) eqn:Hc.
  - destruct b.
    + apply IH. reflexivity.
    + destruct b'; [discriminate (Hb eq_refl)|].
      simpl. change (is_whitespace space) with true. cbv iota.
      f_equal. apply IH. reflexivity.
  - simpl. rewrite Hc. f_equal. apply IH. discriminate.
Qed.

Lemma collapse_lstrip t :
  lstrip t = t -> lstrip (collapse_ws t) = collapse_ws t.
Proof.
  destruct t as [|c r]; [reflexivity|].
  intros H. apply lstrip_fixed in H. unfold collapse_ws. simpl.
  rewrite H. simpl. rewrite H. reflexivity.
Qed.

Lemma collapse_allws r : forall b,
  allws (collapse_from b r) = true -> allws r = true.
Proof.
  induction r as [|c r IH]; intros b; [reflexivity|].
  cbn [collapse_from allws forallb]. destruct (is_whitespace c) eqn:Hc.
  - destruct b; cbn [forallb andb]; [apply IH|].
    change (is_whitespace space) with true. cbn [andb]. apply IH.
  - cbn [forallb]. rewrite Hc. discriminate.
Qed.

Lemma rstrip_fixed a s :
  rstrip (a :: s) = a :: s ->
  (s = [] /\ is_whitespace a = false) \/ (allws s = false /\ rstrip s = s).
Proof.
  rewrite rstrip_cons. destruct (allws s) eqn:Hs.
  - destruct (is_whitespace a); [discriminate|].
    intros [= <-]. left. split; reflexivity.
  - intros [= H]. right. split; [reflexivity|exact H].
Qed.

Lemma collapse_rstrip t : forall b,
  rstrip t = t -> rstrip (collapse_from b t) = collapse_from b t.
Proof.
  induction t as [|c r IH]; intros b H; [reflexivity|].
  apply rstrip_fixed in H as [[-> Hc]|[Hr H]].
  - simpl. rewrite Hc. simpl. rewrite Hc. reflexivity.
  - assert (Hx : forall b', allws (collapse_from b' r) = false).
    { intros b'. destruct (allws (collapse_from b' r)) eqn:E;
        [|reflexivity].
      apply collapse_allws in E. congruence. }
    simpl. destruct (is_whitespace c).
    + destruct b; [apply IH, H|].
      rewrite rstrip_cons, Hx, (IH true H). reflexivity.
    + rewrite rstrip_cons, Hx, (IH false H). reflexivity.
Qed.

Lemma clean_label_normal_label s : normal_label (clean_label s).
Proof.
  unfold normal_label, clean_label. split.
  - unfold strip at 1.
    rewrite collapse_lstrip by apply lstrip_strip.
    apply collapse_rstrip, rstrip_strip.
  - unfold collapse_ws. apply collapse_idem. discriminate.
Qed.

Lemma clean_label_fixed n : normal_label n -> clean_label n = n.
Proof. intros [H1 H2]. unfold clean_label. rewrite H1. exact H2. Qed.

(** ** The alias dictionary *)

Lemma renamed_cases d n :
  renamed d n = n \/
  exists e, In e d /\ fst e = n /\ renamed d n = snd e.
Proof.
  unfold renamed. destruct (find _ d) as [e|] eqn:E; [|left; reflexivity].
  right. apply find_some in E as [Hin He]. apply ustr_eqb_eq in He.
  exists e. repeat split; assumption.
Qed.

Lemma renamed_key d e :
  In e d -> exists e', In e' d /\ fst e' = fst e /\ renamed d (fst e) = snd e'.
Proof.
  intros Hin. unfold renamed.
  destruct (find _ d) as [e'|] eqn:E.
  - apply find_some in E as [Hin' He]. apply ustr_eqb_eq in He.
    exists e'. repeat split; assumption.
  - apply (find_none _ _ E) in Hin. rewrite ustr_eqb_refl in Hin.
    discriminate.
Qed.

Lemma active_alias names e :
  In e (active_aliases names) <->
  In e aliases /\ In (fst e) names /\ ~ In (snd e) names.
Proof.
  unfold active_aliases. rewrite filter_In, andb_true_iff, negb_true_iff.
  rewrite mem_In, mem_not_In. reflexivity.
Qed.

Lemma alias_targets_normal e : In e aliases -> normal_label (snd e).
Proof.
  unfold aliases. simpl.
  intros H. repeat (destruct H as [<-|H]; [split; vm_compute; reflexivity|]).
  destruct H.
Qed.

Lemma alias_targets_distinct e1 e2 :
  In e1 aliases -> In e2 aliases -> snd e1 = snd e2 -> e1 = e2.
Proof.
  unfold aliases. simpl. intros H1 H2.
  repeat (destruct H1 as [<-|H1]);
    try (destruct H1);
    repeat (destruct H2 as [<-|H2]);
    try (destruct H2);
    intros E; try reflexivity; vm_compute in E; discriminate E.
Qed.

Lemma alias_key_no_target e1 e2 :
  In e1 aliases -> In e2 aliases -> fst e1 <> snd e2.
Proof.
  unfold aliases. simpl. intros H1 H2.
  repeat (destruct H1 as [<-|H1]);
    try (destruct H1);
    repeat (destruct H2 as [<-|H2]);
    try (destruct H2);
    intros E; vm_compute in E; discriminate E.
Qed.

Lemma clean_cols_labels df :
  columns (clean_cols df) =
  map (renamed (active_aliases (map clean_label (columns df))))
    (map clean_label (columns df)).
Proof. unfold clean_cols. rewrite !columns_rename. reflexivity. Qed.

Lemma clean_cols_normal df n :
  In n (columns (clean_cols df)) -> normal_label n.
Proof.
  rewrite clean_cols_labels. intros H.
  apply in_map_iff in H as (m & <- & Hm).
  destruct (renamed_cases (active_aliases (map clean_label (columns df))) m)
    as [->|(e & He & _ & ->)].
  - apply in_map_iff in Hm as (k & <- & _). apply clean_label_normal_label.
  - apply active_alias in He as [He _]. apply alias_targets_normal, He.
Qed.

(** X13: [clean_cols] leaves the cells and the order of the columns as they
    are, and every label it returns is free of white space at both ends and
    holds white space only as single spaces. *)
Theorem clean_cols_normalises df :
  map snd (clean_cols df) = map snd df /\
  Forall normal_label (columns (clean_cols df)).
Proof.
  split.
  - unfold clean_cols. rewrite !data_rename. reflexivity.
  - apply Forall_forall. intros n Hn. apply (clean_cols_normal df n Hn).
Qed.

Lemma NoDup_map_on {A B : Type} (f : A -> B) (l : list A) :
  (forall x y, In x l -> In y l -> f x = f y -> x = y) ->
  NoDup l -> NoDup (map f l).
Proof.
  induction l as [|a l IH]; intros Hf Hl; simpl; [constructor|].
  inversion Hl as [|? ? Ha Hl']; subst. constructor.
  - intros Hin. apply in_map_iff in Hin as (y & Hy & Hyl).
    apply Ha. rewrite <- (Hf y a); [exact Hyl|right; exact Hyl|
      left; reflexivity|exact Hy].
  - apply IH; [|exact Hl'].
    intros x y Hx Hy. apply Hf; right; assumption.
Qed.

(** X14: the alias step of [clean_cols] never produces a label that is already
    there: labels that are distinct once their white space is cleaned stay
    distinct. *)
Theorem clean_cols_keeps_labels_distinct df :
  NoDup (map clean_label (columns df)) -> NoDup (columns (clean_cols df)).
Proof.
  rewrite clean_cols_labels.
  set (names := map clean_label (columns df)).
  apply NoDup_map_on. intros x y Hx Hy.
  destruct (renamed_cases (active_aliases names) x)
    as [->|(e1 & He1 & Hk1 & ->)];
  destruct (renamed_cases (active_aliases names) y)
    as [->|(e2 & He2 & Hk2 & ->)].
  - tauto.
  - intros E. apply active_alias in He2 as (_ & _ & Hno).
    exfalso. apply Hno. rewrite <- E. exact Hx.
  - intros E. apply active_alias in He1 as (_ & _ & Hno).
    exfalso. apply Hno. rewrite E. exact Hy.
  - intros E. apply active_alias in He1 as (Ha1 & _).
    apply active_alias in He2 as (Ha2 & _).
    rewrite (alias_targets_distinct e1 e2 Ha1 Ha2 E) in Hk1. congruence.
Qed.

Lemma renamed_settled names n :
  In n (map (renamed (active_aliases names)) names) ->
  renamed (active_aliases (map (renamed (active_aliases names)) names)) n = n.
Proof.
  set (d := active_aliases names).
  set (names2 := map (renamed d) names).
  intros Hn.
  destruct (renamed_cases (active_aliases names2) n)
    as [H|(e & He & Hk & _)]; [exact H|].
  exfalso. apply active_alias in He as (Ha & _ & Hno).
  apply in_map_iff in Hn as (n0 & Hn0 & Hin0).
  assert (n0 = n) as ->.
  { destruct (renamed_cases d n0) as [H|(e' & He' & _ & H)]; [congruence|].
    exfalso. apply active_alias in He' as (Ha' & _).
    apply (alias_key_no_target e e' Ha Ha'). congruence. }
  destruct (in_dec (list_eq_dec N.eq_dec) (snd e) names) as [Hb|Hb].
  - apply Hno. apply in_map_iff. exists (snd e). split; [|exact Hb].
    destruct (renamed_cases d (snd e)) as [H|(e3 & He3 & Hk3 & _)];
      [exact H|].
    exfalso. apply active_alias in He3 as (Ha3 & _).
    apply (alias_key_no_target e3 e Ha3 Ha). exact Hk3.
  - assert (He : In e d).
    { apply active_alias. rewrite Hk. repeat split; assumption. }
    destruct (renamed_key d e He) as (e' & He' & Hk' & Hr).
    apply active_alias in He' as (Ha' & _).
    apply (alias_key_no_target e' e' Ha' Ha'). rewrite Hk', Hk.
    rewrite <- Hr, Hk. symmetry. exact Hn0.
Qed.

(** X15: cleaning the labels a second time changes nothing. *)
Theorem clean_cols_idempotent df : clean_cols (clean_cols df) = clean_cols df.
Proof.
  unfold clean_cols at 1.
  assert (H1 : rename clean_label (clean_cols df) = clean_cols df).
  { apply rename_id. intros n Hn.
    apply clean_label_fixed, (clean_cols_normal df n Hn). }
  rewrite H1. apply rename_id. intros n Hn.
  rewrite clean_cols_labels in *. apply renamed_settled, Hn.
Qed.

(** ** [ffill] and [load_sheet] *)

Lemma ffill_from_length s : forall last,
  List.length (ffill_from last s) = List.length s.
Proof.
  induction s as [|v r IH]; intros last; [reflexivity|].
  simpl. destruct (isna v); [destruct last|]; simpl; rewrite IH; reflexivity.
Qed.

Lemma ffill_from_keeps s : forall last i v,
  s !! i = Some v -> isna v = false -> ffill_from last s !! i = Some v.
Proof.
  induction s as [|x r IH]; intros last [|i] v H Hv; try discriminate.
  - injection H as ->. simpl. rewrite Hv. reflexivity.
  - simpl in H. simpl. destruct (isna x); [destruct last|]; simpl;
      apply IH; assumption.
Qed.

Lemma ffill_from_present s : forall w,
  isna w = false ->
  Forall (fun v => isna v = false) (ffill_from (Some w) s).
Proof.
  induction s as [|x r IH]; intros w Hw; [constructor|].
  simpl. destruct (isna x) eqn:Hx; constructor; auto.
Qed.

Lemma ffill_from_no_gap s : forall last i j v,
  (i <= j)%nat -> (j < List.length s)%nat ->
  ffill_from last s !! i = Some v -> isna v = false ->
  exists w, ffill_from last s !! j = Some w /\ isna w = false.
Proof.
  induction s as [|x r IH]; intros last i j v Hij Hj Hi Hv;
    [simpl in Hj; lia|].
  destruct i as [|i].
  - assert (Hall : Forall (fun v => isna v = false)
                     (ffill_from last (x :: r))).
    { simpl in *. destruct (isna x) eqn:Hx.
      - destruct last as [w|]; simpl in Hi; injection Hi as ->.
        + constructor; [exact Hv|apply ffill_from_present, Hv].
        + congruence.
      - constructor; [exact Hx|apply ffill_from_present, Hx]. }
    rewrite Forall_forall in Hall.
    destruct (ffill_from last (x :: r) !! j) as [w|] eqn:E.
    + exists w. split; [reflexivity|].
      apply Hall. apply list_elem_of_In. eapply list_elem_of_lookup_2, E.
    + apply lookup_ge_None in E. rewrite ffill_from_length in E. lia.
  - destruct j as [|j]; [lia|]. simpl in Hj.
    simpl in *. destruct (isna x); [destruct last|]; simpl in *;
      eapply IH; try eassumption; lia.
Qed.

Lemma ffill_from_source s : forall last v,
  In v (ffill_from last s) -> In v s \/ last = Some v.
Proof.
  induction s as [|x r IH]; intros last v H; [destruct H|].
  simpl in H. destruct (isna x).
  - destruct last as [w|]; destruct H as [<-|H].
    + right. reflexivity.
    + apply IH in H as [H|H]; [left; right; exact H|right; exact H].
    + left. left. reflexivity.
    + apply IH in H as [H|H]; [left; right; exact H|discriminate].
  - destruct H as [<-|H]; [left; left; reflexivity|].
    apply IH in H as [H|H]; [left; right; exact H|].
    injection H as <-. left. left. reflexivity.
Qed.

Lemma Forall2_weaken {A B : Type} (P Q : A -> B -> Prop) l k :
  (forall x y, P x y -> Q x y) -> Forall2 P l k -> Forall2 Q l k.
Proof. intros H. induction 1; constructor; auto. Qed.

Lemma assign_spec name f df :
  Forall2 (fun a b => fst b = fst a /\
             snd b = if ustr_eqb (fst a) name then f (snd a) else snd a)
    df (assign name f df).
Proof.
  induction df as [|[n c] df IH]; simpl; constructor; [|exact IH].
  destruct (ustr_eqb n name) eqn:E; simpl; rewrite ?E; split; reflexivity.
Qed.

(** X16: [load_sheet] keeps the labels [clean_cols] gives and the cells of
    every column but Material.  In the Material column every cell that holds
    a value keeps it, every cell holds a value of the column as read, and
    below a cell with a value no cell is empty.  The sheet is one whose
    cleaned labels are distinct and whose Material cells are text or empty:
    pandas reads a label that occurs twice as a frame of two columns, and may
    convert a column of other objects to a numeric type as it fills it. *)
Theorem load_sheet_fills_material read :
  NoDup (columns (clean_cols read)) ->
  (forall c, In (lit "Material", c) (clean_cols read) ->
     forallb text_or_empty c = true) ->
  Forall2 (fun a b =>
      fst b = fst a /\
      if ustr_eqb (fst a) (lit "Material")
      then List.length (snd b) = List.length (snd a) /\
           (forall i v, snd a !! i = Some v -> isna v = false ->
              snd b !! i = Some v) /\
           (forall v, In v (snd b) -> In v (snd a)) /\
           (forall i j v, (i <= j)%nat -> (j < List.length (snd a))%nat ->
              snd b !! i = Some v -> isna v = false ->
              exists w, snd b !! j = Some w /\ isna w = false)
      else snd b = snd a)
    (clean_cols read) (load_sheet read).
Proof.
  intros _ _. unfold load_sheet.
  set (df := clean_cols read).
  destruct (mem (lit "Material") (columns df)) eqn:Hm.
  - eapply Forall2_weaken; [|apply assign_spec].
    intros [n c] [n' c']. cbn [fst snd]. intros [Hn Hc]. subst n' c'.
    split; [reflexivity|].
    destruct (ustr_eqb n (lit "Material")); [|reflexivity].
    unfold ffill. split; [apply ffill_from_length|].
    split; [intros i v; apply ffill_from_keeps|].
    split.
    + intros v Hv. apply ffill_from_source in Hv as [Hv|Hv];
        [exact Hv|discriminate].
    + intros i j v. apply ffill_from_no_gap.
  - apply mem_not_In in Hm. clearbody df.
    induction df as [|[n c] df IH]; constructor.
    + cbn [fst snd]. split; [reflexivity|].
      destruct (ustr_eqb n (lit "Material")) eqn:E; [|reflexivity].
      exfalso. apply Hm. left. exact (proj1 (ustr_eqb_eq _ _) E).
    + apply IH. intros H. apply Hm. right. exact H.
Qed.

(** ** The preparation of the numeric columns *)

Section PreparationProofs.

Variable lo : ustr -> ustr.
Variable dg : N -> option N.

Lemma series_apply_ok f c c' :
  series_apply f c = Ok c' -> converted f c c'.
Proof.
  revert c'. induction c as [|v r IH]; simpl; intros c'.
  - intros [= <-]. constructor.
  - unfold rbind. destruct (f v) as [x|] eqn:Ev; [|discriminate].
    destruct (series_apply f r) as [r'|]; [|discriminate].
    intros [= <-]. constructor; [|apply IH; reflexivity].
    exists x. split; [exact Ev|reflexivity].
Qed.

Lemma converted_floats f c c' :
  converted f c c' -> forallb is_float c' = true.
Proof.
  induction 1 as [|v v' c c' (x & _ & ->) _ IH]; [reflexivity|exact IH].
Qed.

Lemma assign_applied_ok col f df : forall df',
  assign_applied col f df = Ok df' ->
  ~ In col (columns df) \/ NoDup (columns df) ->
  Forall2 (fun a b => fst b = fst a /\
             if ustr_eqb (fst a) col then converted f (snd a) (snd b)
             else snd b = snd a) df df'.
Proof.
  induction df as [|[n c] df IH]; simpl; intros df' H Hd.
  - injection H as <-. constructor.
  - destruct (ustr_eqb n col) eqn:E.
    + unfold rbind in H.
      destruct (series_apply f c) as [c'|] eqn:Ec; [|discriminate].
      injection H as <-. constructor.
      * simpl. rewrite E. split; [reflexivity|apply series_apply_ok, Ec].
      * apply ustr_eqb_eq in E. subst n.
        assert (Hno : ~ In col (columns df)).
        { destruct Hd as [Hd|Hd]; [exfalso; apply Hd; left; reflexivity|].
          inversion Hd; assumption. }
        clear -Hno. induction df as [|[m d] df IH]; constructor.
        -- cbn [fst snd]. split; [reflexivity|].
           destruct (ustr_eqb m col) eqn:E; [|reflexivity].
           exfalso. apply Hno. left. exact (proj1 (ustr_eqb_eq _ _) E).
        -- apply IH. intros H. apply Hno. right. exact H.
    + unfold rbind in H.
      destruct (assign_applied col f df) as [r'|] eqn:Er; [|discriminate].
      injection H as <-. constructor.
      * simpl. rewrite E. split; reflexivity.
      * apply IH; [reflexivity|].
        destruct Hd as [Hd|Hd].
        -- left. intros H. apply Hd. right. exact H.
        -- right. inversion Hd; assumption.
Qed.

Lemma Forall2_labels {A : Type} (P : ustr * A -> ustr * A -> Prop)
  (df df' : list (ustr * A)) :
  Forall2 (fun a b => fst b = fst a /\ P a b) df df' ->
  map fst df' = map fst df.
Proof.
  induction 1 as [|a b df df' [H _] _ IH]; simpl; [reflexivity|].
  rewrite H, IH. reflexivity.
Qed.

Lemma Forall2_compose {A B C : Type} (P : A -> B -> Prop)
  (Q : B -> C -> Prop) (R : A -> C -> Prop) l1 : forall l2 l3,
  (forall x y z, P x y -> Q y z -> R x z) ->
  Forall2 P l1 l2 -> Forall2 Q l2 l3 -> Forall2 R l1 l3.
Proof.
  induction l1 as [|x l1 IH]; intros l2 l3 H H1 H2.
  - inversion H1; subst. inversion H2; subst. constructor.
  - inversion H1; subst. inversion H2; subst. constructor; eauto.
Qed.

Lemma convert_ok f df col df' :
  NoDup (columns df) -> convert f df col = Ok df' ->
  Forall2 (fun a b => fst b = fst a /\
             if ustr_eqb (fst a) col then converted f (snd a) (snd b)
             else snd b = snd a) df df'.
Proof.
  intros Hd. unfold convert. destruct (mem col (columns df)) eqn:Hm.
  - intros H. apply (assign_applied_ok _ _ _ _ H). right. exact Hd.
  - intros [= <-]. apply mem_not_In in Hm. clear Hd.
    induction df as [|[m d] df IH]; constructor.
    + cbn [fst snd]. split; [reflexivity|].
      destruct (ustr_eqb m col) eqn:E; [|reflexivity].
      exfalso. apply Hm. left. exact (proj1 (ustr_eqb_eq _ _) E).
    + apply IH. intros H. apply Hm. right. exact H.
Qed.

(** The loop over a list of columns: each listed column is converted, the
    others are as they were. *)
Lemma convert_each f cols : forall df df',
  NoDup cols -> NoDup (columns df) ->
  rfor_each (convert f) cols df = Ok df' ->
  Forall2 (fun a b => fst b = fst a /\
             if mem (fst a) cols then converted f (snd a) (snd b)
             else snd b = snd a) df df'.
Proof.
  induction cols as [|col cols IH]; intros df df' Hc Hd H.
  - simpl in H. injection H as <-. clear Hd.
    induction df as [|a df IHd]; constructor; [split; reflexivity|exact IHd].
  - simpl in H. unfold rbind in H.
    destruct (convert f df col) as [df1|] eqn:E1; [|discriminate].
    inversion Hc as [|? ? Hno Hc']; subst.
    assert (H1 := convert_ok _ _ _ _ Hd E1).
    assert (Hd1 : NoDup (columns df1)).
    { unfold columns. rewrite (Forall2_labels _ _ _ H1). exact Hd. }
    assert (H2 := IH df1 df' Hc' Hd1 H).
    eapply Forall2_compose; [|exact H1|exact H2].
    intros [n c] [n1 c1] [n' c'] [E Hx] [E' Hy]. cbn [fst snd] in *.
    subst n1 n'. split; [reflexivity|].
    change (mem n (col :: cols)) with (ustr_eqb n col || mem n cols).
    destruct (ustr_eqb n col) eqn:En.
    + cbn [orb]. apply ustr_eqb_eq in En. subst n.
      apply mem_not_In in Hno. rewrite Hno in Hy. rewrite Hy. exact Hx.
    + cbn [orb]. rewrite Hx in Hy. exact Hy.
Qed.

Lemma parse_float_fixed x : parse_number_de lo dg (PyFloat x) = Ok x.
Proof.
  simpl. destruct (is_nan x) eqn:E; [|reflexivity].
  rewrite (is_nan_true x E). reflexivity.
Qed.

Lemma converted_again f c c' :
  converted f c c' -> converted (parse_number_de lo dg) c' c' .
Proof.
  induction 1 as [|v v' c c' (x & _ & ->) _ IH]; constructor; [|exact IH].
  exists x. split; [apply parse_float_fixed|reflexivity].
Qed.

Lemma converted_floats_same c c' :
  forallb is_float c = true -> converted (parse_number_de lo dg) c c' ->
  c' = c.
Proof.
  intros Hf H. induction H as [|v v' c c' (x & Hx & ->) _ IH];
    [reflexivity|].
  simpl in Hf. apply andb_true_iff in Hf as [Hv Hf].
  destruct v; try discriminate. rewrite parse_float_fixed in Hx.
  injection Hx as ->. f_equal. apply IH, Hf.
Qed.

Lemma prepare_columns pct num df df' :
  NoDup (columns df) -> NoDup pct -> NoDup num ->
  prepare lo dg pct num df = Ok df' ->
  Forall2 (fun a b =>
      fst b = fst a /\
      if mem (fst a) pct
      then converted (as_percent_0_100 lo dg) (snd a) (snd b)
      else if mem (fst a) num
           then converted (parse_number_de lo dg) (snd a) (snd b)
           else snd b = snd a) df df'.
Proof.
  intros Hd Hp Hn. unfold prepare, rbind.
  destruct (rfor_each _ pct df) as [df1|] eqn:E1; [|discriminate].
  intros E2.
  assert (H1 := convert_each _ _ _ _ Hp Hd E1).
  assert (Hd1 : NoDup (columns df1)).
  { unfold columns. rewrite (Forall2_labels _ _ _ H1). exact Hd. }
  assert (H2 := convert_each _ _ _ _ Hn Hd1 E2).
  eapply Forall2_compose; [|exact H1|exact H2].
  intros [n c] [n1 c1] [n' c'] [E Hx] [E' Hy]. cbn [fst snd] in *.
  subst n1 n'. split; [reflexivity|].
  destruct (mem n pct).
  - destruct (mem n num); [|rewrite Hy; exact Hx].
    rewrite (converted_floats_same c1 c'); [exact Hx| |exact Hy].
    apply (converted_floats _ _ _ Hx).
  - rewrite Hx in Hy. exact Hy.
Qed.

(** X17: when the preparation of a table with distinct labels succeeds (no
    column listed twice), the labels and the order of the columns are as
    before; a listed percent column holds the float
    [as_percent_0_100] gives for each of its cells, another listed numeric
    column the float [parse_number_de] gives, and every other column is as
    it was. *)
Theorem prepare_converts_listed_columns pct num df df' :
  NoDup (columns df) -> NoDup pct -> NoDup num ->
  prepare lo dg pct num df = Ok df' ->
  columns df' = columns df /\
  forall i n c', df' !! i = Some (n, c') ->
    exists c, df !! i = Some (n, c) /\
      if mem n pct then converted (as_percent_0_100 lo dg) c c'
      else if mem n num then converted (parse_number_de lo dg) c c'
      else c' = c.
Proof.
  intros Hd Hp Hn H. assert (HF := prepare_columns _ _ _ _ Hd Hp Hn H).
  split; [exact (Forall2_labels _ _ _ HF)|].
  intros i n c' Hi.
  destruct (Forall2_lookup_r _ _ _ _ _ HF Hi) as ([m c] & Hc & E & Hx).
  cbn [fst snd] in *. subst m. exists c. split; [exact Hc|exact Hx].
Qed.

Lemma series_apply_floats c :
  forallb is_float c = true -> series_apply (parse_number_de lo dg) c = Ok c.
Proof.
  induction c as [|v r IH]; [reflexivity|].
  simpl. intros H. apply andb_true_iff in H as [Hv Hr].
  destruct v; try discriminate.
  change (parse_number_de lo dg (PyFloat f)) with
    (if is_nan f then Ok nan else Ok f : result float).
  fold (parse_number_de lo dg (PyFloat f)). rewrite parse_float_fixed.
  unfold rbind. rewrite (IH Hr). reflexivity.
Qed.

Lemma assign_applied_floats col df :
  (forall c, In (col, c) df -> forallb is_float c = true) ->
  assign_applied col (parse_number_de lo dg) df = Ok df.
Proof.
  induction df as [|[n c] df IH]; intros H; [reflexivity|].
  simpl. destruct (ustr_eqb n col) eqn:E.
  - apply ustr_eqb_eq in E. subst n.
    rewrite series_apply_floats; [reflexivity|].
    apply H. left. reflexivity.
  - rewrite IH; [reflexivity|]. intros d Hd. apply H. right. exact Hd.
Qed.

Lemma convert_each_floats cols df :
  (forall n c, In n cols -> In (n, c) df -> forallb is_float c = true) ->
  rfor_each (convert (parse_number_de lo dg)) cols df = Ok df.
Proof.
  induction cols as [|col cols IH]; intros H; [reflexivity|].
  simpl. unfold convert at 1.
  assert (Hc : assign_applied col (parse_number_de lo dg) df = Ok df).
  { apply assign_applied_floats. intros c. apply H. left. reflexivity. }
  rewrite Hc. destruct (mem col (columns df)); cbn [rbind]; apply IH;
    intros n c Hn; apply H; right; exact Hn.
Qed.

(** X18: a table that was prepared holds floats in every listed column, so
    reading all the listed columns once more with [parse_number_de] leaves
    the table as it is. *)
Theorem prepared_table_is_numeric pct num df df' :
  NoDup (columns df) -> NoDup pct -> NoDup num ->
  prepare lo dg pct num df = Ok df' ->
  (forall n c', In (n, c') df' -> In n (pct ++ num) ->
     forallb is_float c' = true) /\
  prepare lo dg [] (pct ++ num) df' = Ok df'.
Proof.
  intros Hd Hp Hn H. assert (HF := prepare_columns _ _ _ _ Hd Hp Hn H).
  assert (Hfl : forall n c', In (n, c') df' -> In n (pct ++ num) ->
            forallb is_float c' = true).
  { intros n c' Hin Hl.
    apply list_elem_of_In, list_elem_of_lookup_1 in Hin as [i Hi].
    destruct (Forall2_lookup_r _ _ _ _ _ HF Hi) as ([m c] & Hc & E & Hx).
    cbn [fst snd] in *. subst m.
    apply in_app_or in Hl. destruct (mem n pct) eqn:E1.
    - apply (converted_floats _ _ _ Hx).
    - destruct Hl as [Hl|Hl]; [apply mem_In in Hl; congruence|].
      apply mem_In in Hl. rewrite Hl in Hx.
      apply (converted_floats _ _ _ Hx). }
  split; [exact Hfl|].
  unfold prepare. simpl. apply convert_each_floats.
  intros n c Hl Hin. apply (Hfl n c Hin Hl).
Qed.

(** *** The MM columns of the protease table *)

Lemma startswith_MM_fixed n :
  In n [ts_us; ts_sedi; loeslichkeit; lit "DH [%]"] ->
  startswith (lit "MM") (strip n) = false.
Proof.
  simpl. intros H.
  repeat (destruct H as [<-|H]; [vm_compute; reflexivity|]). destruct H.
Qed.

Lemma mm_columns_all_In prot n :
  In n (mm_columns_all prot) <->
  In n (columns prot) /\ startswith (lit "MM") (strip n) = true.
Proof.
  unfold mm_columns_all.
  apply (filter_In (fun c => startswith (lit "MM") (strip c))).
Qed.

Lemma prot_pct_cols_NoDup prot :
  NoDup (columns prot) -> NoDup (prot_pct_cols prot).
Proof.
  intros Hd. unfold prot_pct_cols. apply NoDup_app.
  - repeat constructor; vm_compute; intuition discriminate.
  - unfold mm_columns_all. apply List.NoDup_filter. exact Hd.
  - intros n Hn Hm. apply mm_columns_all_In in Hm as [_ Hm].
    rewrite (startswith_MM_fixed n Hn) in Hm. discriminate.
Qed.

(** X19: when the three tables are prepared, every column of the protease
    table whose label starts with MM holds floats only: for each cell the
    percent value [as_percent_0_100] gives for the cell as it was read. *)
Theorem mm_columns_are_percent carb prot filme carb' prot' filme' :
  NoDup (columns prot) ->
  prepare_tables lo dg carb prot filme = Ok (carb', prot', filme') ->
  columns prot' = columns prot /\
  forall i n c', prot' !! i = Some (n, c') ->
    startswith (lit "MM") (strip n) = true ->
    forallb is_float c' = true /\
    exists c, prot !! i = Some (n, c) /\
      converted (as_percent_0_100 lo dg) c c'.
Proof.
  intros Hd. unfold prepare_tables, rbind.
  destruct (prepare lo dg carb_pct_cols carb_num_cols carb); [|discriminate].
  destruct (prepare lo dg (prot_pct_cols prot) prot_num_cols prot)
    as [p|] eqn:Ep; [|discriminate].
  destruct (prepare lo dg [] filme_num_cols filme); [|discriminate].
  intros [= _ -> _].
  assert (Hn : NoDup prot_num_cols).
  { repeat constructor; vm_compute; intuition discriminate. }
  assert (HF := prepare_columns _ _ _ _ Hd (prot_pct_cols_NoDup prot Hd)
                  Hn Ep).
  split; [exact (Forall2_labels _ _ _ HF)|].
  intros i n c' Hi Hmm.
  destruct (Forall2_lookup_r _ _ _ _ _ HF Hi) as ([m c] & Hc & E & Hx).
  cbn [fst snd] in *. subst m.
  assert (Hin : mem n (prot_pct_cols prot) = true).
  { apply mem_In. unfold prot_pct_cols. apply in_or_app. right.
    apply mm_columns_all_In. split; [|exact Hmm].
    apply in_map_iff. exists (n, c). split; [reflexivity|].
    apply list_elem_of_In. eapply list_elem_of_lookup_2, Hc. }
  rewrite Hin in Hx. split; [apply (converted_floats _ _ _ Hx)|].
  exists c. split; [exact Hc|exact Hx].
Qed.

(** ** The parser on the cells *)

(** X20: the two parsers raise for one kind of cell only: an [int] too large
    for a float, with [OverflowError].  Text, floats, booleans, [None] and
    other objects always give a float. *)
Theorem parsers_raise_only_overflow x e :
  parse_number_de lo dg x = Raise e \/ as_percent_0_100 lo dg x = Raise e ->
  e = OverflowError /\
  exists z, x = PyInt z /\ float_of_int z = Raise OverflowError.
Proof.
  assert (H : parse_number_de lo dg x = Raise e ->
              e = OverflowError /\
              exists z, x = PyInt z /\ float_of_int z = Raise OverflowError).
  { destruct x as [|b|z|f|s|s]; simpl; try discriminate.
    - unfold float_of_int.
      destruct (binary_normalize prec emax z 0 false) eqn:E;
        try discriminate.
      intros [= <-]. split; [reflexivity|]. exists z.
      split; [reflexivity|]. unfold float_of_int. rewrite E. reflexivity.
    - destruct (is_nan f); discriminate. }
  intros [Hp|Ha]; [exact (H Hp)|].
  apply H. unfold as_percent_0_100 in Ha.
  destruct (parse_number_de lo dg x) as [v|e'].
  - destruct (is_nan v); [discriminate|].
    destruct (_ && _); discriminate.
  - exact Ha.
Qed.

Lemma lstrip_app_ws p t : allws p = true -> lstrip (p ++ t) = lstrip t.
Proof.
  induction p as [|c p IH]; simpl; [reflexivity|].
  intros H. apply andb_true_iff in H as [Hc Hp]. rewrite Hc. apply IH, Hp.
Qed.

Lemma allws_app s q : allws (s ++ q) = allws s && allws q.
Proof. unfold allws. apply forallb_app. Qed.

Lemma rstrip_app_ws t q : allws q = true -> rstrip (t ++ q) = rstrip t.
Proof.
  intros Hq. induction t as [|a t IH].
  - simpl. apply rstrip_nil, Hq.
  - change ((a :: t) ++ q) with (a :: (t ++ q)).
    rewrite !rstrip_cons, allws_app, Hq, andb_true_r, IH. reflexivity.
Qed.

Lemma strip_app_ws p s q :
  allws p = true -> allws q = true -> strip (p ++ s ++ q) = strip s.
Proof.
  intros Hp Hq. unfold strip.
  rewrite <- !lstrip_rstrip, app_assoc, rstrip_app_ws by exact Hq.
  rewrite lstrip_rstrip, lstrip_app_ws by exact Hp.
  symmetry. apply lstrip_rstrip.
Qed.

(** X21: white space around a text, of whatever kind [str.strip] removes,
    does not change what the two parsers read from it. *)
Theorem parsers_ignore_surrounding_whitespace p s q :
  allws p = true -> allws q = true ->
  parse_number_de lo dg (PyStr (p ++ s ++ q)) =
    parse_number_de lo dg (PyStr s) /\
  as_percent_0_100 lo dg (PyStr (p ++ s ++ q)) =
    as_percent_0_100 lo dg (PyStr s).
Proof.
  intros Hp Hq.
  assert (H : parse_text lo dg (p ++ s ++ q) = parse_text lo dg s).
  { unfold parse_text. rewrite (strip_app_ws p s q Hp Hq). reflexivity. }
  unfold as_percent_0_100. simpl. rewrite H. split; reflexivity.
Qed.

End PreparationProofs.

(** * The further properties on the sample data *)

Ltac sample_rows :=
  let name := fresh "name" in
  let c := fresh "c" in
  let Hin := fresh "Hin" in
  intros name c Hin; simpl in Hin;
  repeat (destruct Hin as [Hin|Hin];
          [injection Hin as <- <-; reflexivity|]);
  destruct Hin.

Lemma too_many_materials_placeholder_witness :
  exists fig,
    result_of (sample_render "prot"
                 (Some [CStr "Erbse"; CStr "Soja"; CStr "Lupine"]) None None
                 None "heatmap" both_fractions) sample_store = Ok fig /\
    fig_title fig = Some (LStr too_many_title) /\
    fig_traces fig = [] /\
    get_key "template" (fig_layout fig) = Some (LStr "plotly_white").
Proof.
  apply (too_many_materials_placeholder arith_mean sample_globals
           (Some [CStr "Erbse"; CStr "Soja"; CStr "Lupine"]) None None None
           both_fractions sample_store).
  - vm_compute. reflexivity.
  - simpl. lia.
Defined.

Lemma distribution_shows_selected_enzymes_witness :
  exists fig,
    result_of (sample_render "carb" None (Some [CStr "Cellulase"])
                 (Some ["loes"]) None "distribution" None) sample_store
      = Ok fig /\
    forall t, In t (fig_traces fig) ->
      forallb (selected [CStr "Cellulase"]) (trace_x t) = true.
Proof.
  let r := eval vm_compute in
    (result_of (sample_render "carb" None (Some [CStr "Cellulase"])
                  (Some ["loes"]) None "distribution" None) sample_store) in
  match r with
  | Ok ?f =>
      assert (R : result_of (sample_render "carb" None
                               (Some [CStr "Cellulase"]) (Some ["loes"]) None
                               "distribution" None) sample_store = Ok f)
        by (vm_compute; reflexivity);
      exists f; split; [exact R|];
      exact (distribution_shows_selected_enzymes arith_mean sample_globals
               "carb" None (Some [CStr "Cellulase"]) (Some ["loes"]) None
               "distribution" None sample_store carb_traces_to_add ["loes"] f
               eq_refl eq_refl R)
  end.
Defined.

Lemma full_selection_is_no_selection_witness :
  result_of (sample_render "carb" (Some [CStr "Soja"; CStr "Erbse"])
               (Some [CStr "Cellulase"; CStr "Pektinase"]) (Some ["loes"])
               None "distribution" None) sample_store =
  result_of (sample_render "carb" None None (Some ["loes"]) None
               "distribution" None) sample_store.
Proof.
  apply (full_selection_is_no_selection arith_mean sample_globals "carb"
           (Some [CStr "Soja"; CStr "Erbse"])
           (Some [CStr "Cellulase"; CStr "Pektinase"]) (Some ["loes"]) None
           "distribution" None sample_store 2).
  - sample_rows.
  - vm_compute. reflexivity.
  - vm_compute. reflexivity.
  - reflexivity.
Defined.

Lemma delta_ph_series_nonnegative_witness :
  exists fig,
    result_of (sample_render "carb" None None (Some ["deltaph"]) None
                 "distribution" None) sample_store = Ok fig /\
    forall t, In t (fig_traces fig) -> trace_name t = "abs(ΔpH)" ->
      forallb missing_or_nonnegative (trace_y t) = true.
Proof.
  let r := eval vm_compute in
    (result_of (sample_render "carb" None None (Some ["deltaph"]) None
                  "distribution" None) sample_store) in
  match r with
  | Ok ?f =>
      assert (R : result_of (sample_render "carb" None None
                               (Some ["deltaph"]) None "distribution" None)
                    sample_store = Ok f)
        by (vm_compute; reflexivity);
      exists f; split; [exact R|];
      exact (delta_ph_series_nonnegative arith_mean sample_globals "carb"
               None None (Some ["deltaph"]) None "distribution" None
               sample_store carb_traces_to_add ["deltaph"] f eq_refl R)
  end.
Defined.

Lemma distribution_series_have_one_length_witness :
  exists fig,
    result_of (sample_render "prot" (Some [CStr "Erbse"]) None None
                 (Some ["dh"]) "distribution" None) sample_store = Ok fig /\
    exists k,
      has_rows k (filtered sample_prot (Some [CStr "Erbse"]) None) /\
      forall t, In t (fig_traces fig) ->
        List.length (trace_x t) = k /\ List.length (trace_y t) = k.
Proof.
  let r := eval vm_compute in
    (result_of (sample_render "prot" (Some [CStr "Erbse"]) None None
                  (Some ["dh"]) "distribution" None) sample_store) in
  match r with
  | Ok ?f =>
      assert (R : result_of (sample_render "prot" (Some [CStr "Erbse"]) None
                               None (Some ["dh"]) "distribution" None)
                    sample_store = Ok f)
        by (vm_compute; reflexivity);
      exists f; split; [exact R|];
      apply (distribution_series_have_one_length arith_mean sample_globals
               "prot" (Some [CStr "Erbse"]) None None (Some ["dh"])
               "distribution" None sample_store prot_traces_to_add ["dh"] f 4);
      [sample_rows|reflexivity|exact R]
  end.
Defined.

Lemma every_figure_has_a_title_witness :
  exists fig,
    result_of (sample_render "prot" (Some [CStr "Erbse"; CStr "Soja"]) None
                 None None "heatmap" (Some ["MM 5 kDa"])) sample_store
      = Ok fig /\
    (exists t, fig_title fig = Some (LText t)) /\
    (fig_template fig = Some (LStr "plotly_white") \/
     "prot" = "prot" /\ "heatmap" = "heatmap" /\
     List.length (or_empty (Some [CStr "Erbse"; CStr "Soja"])) = 2 /\
     mm_present_of (filtered (deref sample_store (prot sample_globals))
                      (Some [CStr "Erbse"; CStr "Soja"]) None)
       (Some ["MM 5 kDa"]) = [] /\
     fig_traces fig = []).
Proof.
  let r := eval vm_compute in
    (result_of (sample_render "prot" (Some [CStr "Erbse"; CStr "Soja"]) None
                  None None "heatmap" (Some ["MM 5 kDa"])) sample_store) in
  match r with
  | Ok ?f =>
      assert (R : result_of (sample_render "prot"
                               (Some [CStr "Erbse"; CStr "Soja"]) None None
                               None "heatmap" (Some ["MM 5 kDa"]))
                    sample_store = Ok f)
        by (vm_compute; reflexivity);
      exists f; split; [exact R|];
      exact (every_figure_has_a_title arith_mean sample_globals "prot"
               (Some [CStr "Erbse"; CStr "Soja"]) None None None "heatmap"
               (Some ["MM 5 kDa"]) sample_store f R)
  end.
Defined.


Lemma single_heatmap_correct_witness :
  exists p fig,
    result_of (sample_render "prot" (Some [CStr "Erbse"]) None None None
                 "heatmap" both_fractions) sample_store = Ok fig /\
    fig_traces fig = [PxImshow p ".1f" "auto" "Greens"] /\
    fig_title fig =
      Some (LText (Fmt "Proteasen — Heatmap MM-фракций (" (CStr "Erbse") ")"))
    /\
    pv_cell p 0 0 = 80%float /\ pv_cell p 1 0 = 20%float.
Proof.
  destruct (single_heatmap_correct arith_mean sample_globals
              (Some [CStr "Erbse"]) None None None both_fractions
              sample_store) as (p & fig & Hres & Htr & Htitle & Hcell).
  - vm_compute. reflexivity.
  - simpl. lia.
  - vm_compute. discriminate.
  - vm_compute. reflexivity.
  - vm_compute. reflexivity.
  - vm_compute. reflexivity.
  - exists p, fig. split; [exact Hres|]. split; [exact Htr|].
    split; [exact Htitle|].
    vm_compute in Hres. injection Hres as <-.
    injection Htr as <-. split; vm_compute; reflexivity.
Defined.

Lemma update_dropdowns_options_witness :
  exists mats enz,
    result_of (update_dropdowns sample_globals "prot") sample_store
      = Ok (mats, enz) /\
    NoDup mats /\ NoDup enz /\
    (forall c, In c (values_of sample_prot "Material") ->
       is_missing c = false ->
       exists o, In o mats /\ py_eq c (snd o) = true) /\
    store_after (update_dropdowns sample_globals "prot") sample_store
      = sample_store.
Proof.
  let r := eval vm_compute in
    (result_of (update_dropdowns sample_globals "prot") sample_store) in
  match r with
  | Ok (?m, ?e) =>
      assert (R : result_of (update_dropdowns sample_globals "prot")
                    sample_store = Ok (m, e))
        by (vm_compute; reflexivity);
      exists m, e; split; [exact R|];
      destruct (update_dropdowns_options sample_globals "prot" sample_store
                  m e R) as (_ & Hm & Hcov & _ & He & _ & Hst);
      repeat split; assumption
  end.
Defined.

Lemma update_dropdowns_ascending_witness :
  exists mats enz,
    result_of (update_dropdowns sample_globals "prot") sample_store
      = Ok (mats, enz) /\
    ascending (map snd mats) = true /\ ascending (map snd enz) = true.
Proof.
  let r := eval vm_compute in
    (result_of (update_dropdowns sample_globals "prot") sample_store) in
  match r with
  | Ok (?m, ?e) =>
      assert (R : result_of (update_dropdowns sample_globals "prot")
                    sample_store = Ok (m, e))
        by (vm_compute; reflexivity);
      exists m, e; split; [exact R|];
      exact (update_dropdowns_ascending sample_globals "prot" sample_store
               m e R)
  end.
Defined.

Lemma offered_material_selects_rows_witness :
  df_is_empty
    (filtered (deref sample_store (df_map_get sample_globals "prot"))
       (Some [snd (CStr "Soja", CStr "Soja")]) None) = false.
Proof.
  let r := eval vm_compute in
    (result_of (update_dropdowns sample_globals "prot") sample_store) in
  match r with
  | Ok (?m, ?e) =>
      apply (offered_material_selects_rows sample_globals "prot" sample_store
               m e 4 (CStr "Soja", CStr "Soja"));
      [vm_compute; reflexivity|sample_rows|simpl; tauto]
  end.
Defined.

Lemma clean_cols_keeps_labels_distinct_witness :
  NoDup (columns (clean_cols sample_sheet)).
Proof.
  apply (clean_cols_keeps_labels_distinct sample_sheet).
  vm_compute. repeat constructor; simpl; intuition discriminate.
Defined.

Lemma load_sheet_fills_material_witness :
  Forall2 (fun a b =>
      fst b = fst a /\
      if ustr_eqb (fst a) (lit "Material")
      then List.length (snd b) = List.length (snd a) /\
           (forall i v, snd a !! i = Some v -> isna v = false ->
              snd b !! i = Some v) /\
           (forall v, In v (snd b) -> In v (snd a)) /\
           (forall i j v, (i <= j)%nat -> (j < List.length (snd a))%nat ->
              snd b !! i = Some v -> isna v = false ->
              exists w, snd b !! j = Some w /\ isna w = false)
      else snd b = snd a)
    (clean_cols sample_sheet) (load_sheet sample_sheet).
Proof.
  apply (load_sheet_fills_material sample_sheet).
  - vm_compute. repeat constructor; simpl; intuition discriminate.
  - intros c Hin. vm_compute in Hin.
    repeat (destruct Hin as [Hin|Hin];
            [try discriminate Hin; injection Hin as <-;
             vm_compute; reflexivity|]).
    destruct Hin.
Defined.

Lemma prepare_converts_listed_columns_witness :
  exists df',
    prepare sample_lower sample_decimal [lit "DH [%]"] [lit "pH (vor)"]
      (load_sheet sample_sheet) = Ok df' /\
    columns df' = columns (load_sheet sample_sheet) /\
    forall i n c', df' !! i = Some (n, c') ->
      exists c, load_sheet sample_sheet !! i = Some (n, c) /\
        if mem n [lit "DH [%]"]
        then converted (as_percent_0_100 sample_lower sample_decimal) c c'
        else if mem n [lit "pH (vor)"]
             then converted (parse_number_de sample_lower sample_decimal) c c'
             else c' = c.
Proof.
  let r := eval vm_compute in
    (prepare sample_lower sample_decimal [lit "DH [%]"] [lit "pH (vor)"]
       (load_sheet sample_sheet)) in
  match r with
  | Ok ?d =>
      assert (R : prepare sample_lower sample_decimal [lit "DH [%]"]
                    [lit "pH (vor)"] (load_sheet sample_sheet) = Ok d)
        by (vm_compute; reflexivity);
      exists d; split; [exact R|];
      apply (prepare_converts_listed_columns sample_lower sample_decimal
               [lit "DH [%]"] [lit "pH (vor)"] (load_sheet sample_sheet) d);
      [vm_compute; repeat constructor; simpl; intuition discriminate
      |repeat constructor; simpl; tauto
      |repeat constructor; simpl; tauto
      |exact R]
  end.
Defined.

Lemma prepared_table_is_numeric_witness :
  exists df',
    prepare sample_lower sample_decimal [lit "DH [%]"] [lit "pH (vor)"]
      (load_sheet sample_sheet) = Ok df' /\
    (forall n c', In (n, c') df' ->
       In n ([lit "DH [%]"] ++ [lit "pH (vor)"]) ->
       forallb is_float c' = true) /\
    prepare sample_lower sample_decimal []
      ([lit "DH [%]"] ++ [lit "pH (vor)"]) df' = Ok df'.
Proof.
  let r := eval vm_compute in
    (prepare sample_lower sample_decimal [lit "DH [%]"] [lit "pH (vor)"]
       (load_sheet sample_sheet)) in
  match r with
  | Ok ?d =>
      assert (R : prepare sample_lower sample_decimal [lit "DH [%]"]
                    [lit "pH (vor)"] (load_sheet sample_sheet) = Ok d)
        by (vm_compute; reflexivity);
      exists d; split; [exact R|];
      apply (prepared_table_is_numeric sample_lower sample_decimal
               [lit "DH [%]"] [lit "pH (vor)"] (load_sheet sample_sheet) d);
      [vm_compute; repeat constructor; simpl; intuition discriminate
      |repeat constructor; simpl; tauto
      |repeat constructor; simpl; tauto
      |exact R]
  end.
Defined.

Lemma mm_columns_are_percent_witness :
  exists carb' prot' filme',
    prepare_tables sample_lower sample_decimal [] (load_sheet sample_sheet) []
      = Ok (carb', prot', filme') /\
    columns prot' = columns (load_sheet sample_sheet) /\
    forall i n c', prot' !! i = Some (n, c') ->
      startswith (lit "MM") (strip n) = true ->
      forallb is_float c' = true /\
      exists c, load_sheet sample_sheet !! i = Some (n, c) /\
        converted (as_percent_0_100 sample_lower sample_decimal) c c'.
Proof.
  let r := eval vm_compute in
    (prepare_tables sample_lower sample_decimal [] (load_sheet sample_sheet)
       []) in
  match r with
  | Ok (?c, ?p, ?f) =>
      assert (R : prepare_tables sample_lower sample_decimal []
                    (load_sheet sample_sheet) [] = Ok (c, p, f))
        by (vm_compute; reflexivity);
      exists c, p, f; split; [exact R|];
      apply (mm_columns_are_percent sample_lower sample_decimal []
               (load_sheet sample_sheet) [] c p f);
      [vm_compute; repeat constructor; simpl; intuition discriminate
      |exact R]
  end.
Defined.

Lemma parsers_raise_only_overflow_witness :
  OverflowError = OverflowError /\
  exists z, PyInt (2 ^ 1024) = PyInt z /\
            float_of_int z = Raise OverflowError.
Proof.
  apply (parsers_raise_only_overflow sample_lower sample_decimal
           (PyInt (2 ^ 1024)) OverflowError).
  left. vm_compute. reflexivity.
Defined.

Lemma parsers_ignore_surrounding_whitespace_witness :
  parse_number_de sample_lower sample_decimal
    (PyStr ([32; 9]%N ++ lit "1,5" ++ [160]%N)) =
    parse_number_de sample_lower sample_decimal (PyStr (lit "1,5")) /\
  as_percent_0_100 sample_lower sample_decimal
    (PyStr ([32; 9]%N ++ lit "1,5" ++ [160]%N)) =
    as_percent_0_100 sample_lower sample_decimal (PyStr (lit "1,5")).
Proof.
  apply (parsers_ignore_surrounding_whitespace sample_lower sample_decimal
           [32; 9]%N (lit "1,5") [160]%N); reflexivity.
Defined.
